(** * Storyboard grid compositor: a shallow embedding of
      [src/storyboard/storyboard_image_node.py]

    The development models [StoryboardImageNode.create_storyboard_grid]
    and [StoryboardImageNode._parse_output_size].  Python integers are [Z],
    Python floats are IEEE binary64 values ([spec_float] with precision 53
    and maximal exponent 1024), the colour string is the list of its code
    points, read with the interpreter's Unicode database as a parameter,
    exceptions are an error monad, and the Pillow calls ([Image.new],
    [Image.resize], [Image.paste]) are recorded in a call log threaded
    through that monad.

    The file has the model first, then the definitions the statements
    use, then the lemmas and the theorems about the model. *)

From Stdlib Require Import ZArith Lia Bool List Ascii String Reals Lra.
From Stdlib Require Import Floats.SpecFloat.
From stdpp Require Import base option list strings gmap.

Local Open Scope Z_scope.

(** ** Exceptions and the computation monad *)

Module Py.

(** The Python exception classes the modelled code can raise. *)
Inductive exn : Type :=
| ValueError (msg : string)
| ZeroDivisionError (msg : string)
| OverflowError (msg : string).

Definition exn_class (e : exn) : string :=
  match e with
  | ValueError _ => "ValueError"
  | ZeroDivisionError _ => "ZeroDivisionError"
  | OverflowError _ => "OverflowError"
  end.

Inductive result (A : Type) : Type :=
| Ok (a : A)
| Raise (e : exn).
Arguments Ok {A} a.
Arguments Raise {A} e.

Section Monad.
(** [L] is the type of the entries of the call log. *)
Context {L : Type}.

Definition M (A : Type) : Type := list L -> result A * list L.

Definition ret {A} (a : A) : M A := fun log => (Ok a, log).

Definition raise {A} (e : exn) : M A := fun log => (Raise e, log).

Definition bind {A B} (m : M A) (k : A -> M B) : M B :=
  fun log =>
    match m log with
    | (Ok a, log') => k a log'
    | (Raise e, log') => (Raise e, log')
    end.

(** [emit c] appends one entry to the call log. *)
Definition emit (c : L) : M unit := fun log => (Ok tt, log ++ [c]).

(** [try: m except Exception: h] *)
Definition try_except {A} (m : M A) (h : exn -> M A) : M A :=
  fun log =>
    match m log with
    | (Ok a, log') => (Ok a, log')
    | (Raise e, log') => h e log'
    end.

(** [for x in xs: acc = body(acc, x)] *)
Fixpoint for_each {A B} (body : B -> A -> M B) (xs : list A) (acc : B) : M B :=
  match xs with
  | [] => ret acc
  | x :: xs' => bind (body acc x) (for_each body xs')
  end.
End Monad.

Arguments M : clear implicits.

End Py.

Import Py.

Declare Scope py_scope.
Delimit Scope py_scope with py.
Notation "x <- m ;; k" := (bind m (fun x => k))
  (at level 100, m at next level, right associativity) : py_scope.
Notation "m ;;; k" := (bind m (fun _ => k))
  (at level 100, right associativity) : py_scope.
Local Open Scope py_scope.

(** ** Python strings and [int(s, 16)] *)

Module PyStr.

(** A Python [str]: its code points. *)
Definition str : Type := list N.

(** The [str] of a literal written in this file. *)
Definition of_string (s : string) : str := map N_of_ascii (list_ascii_of_string s).

(** What [int()] asks of the interpreter's Unicode database about a code
    point from 128 on: whether it is whitespace ([Py_UNICODE_ISSPACE]) and
    its value as a decimal digit ([Py_UNICODE_TODECIMAL]), from 0 to 9.
    The table depends on the Unicode version of the interpreter, so it is
    a parameter of the model. *)
Record unicode_db : Type := {
  isspace : N -> bool;
  todecimal : N -> option N;
  todecimal_digit : forall c d, todecimal c = Some d -> (d < 10)%N }.

Definition code (c : ascii) : Z := Z.of_N (N_of_ascii c).

(** [Py_ISSPACE]: tab, line feed, vertical tab, form feed, carriage
    return and space. *)
Definition is_space (c : ascii) : bool :=
  let n := code c in
  ((9 <=? n) && (n <=? 13)) || (n =? 32).

(** Value of a base-16 digit, [None] for any other character. *)
Definition hex_digit (c : ascii) : option Z :=
  let n := code c in
  if (48 <=? n) && (n <=? 57) then Some (n - 48)
  else if (97 <=? n) && (n <=? 102) then Some (n - 87)
  else if (65 <=? n) && (n <=? 70) then Some (n - 55)
  else None.

Definition is_underscore (c : ascii) : bool := code c =? 95.

Fixpoint lstrip (s : string) : string :=
  match s with
  | String c r => if is_space c then lstrip r else s
  | EmptyString => s
  end.

(** The digit loop of CPython's [long_from_binary_base]: consumes hex
    digits and single underscores; [None] when two underscores are
    adjacent or the run ends in an underscore.  [prev_us] tells whether
    the previous character was an underscore; [acc] is the value so far
    and [seen] whether some character has been consumed. *)
Fixpoint scan_digits (prev_us seen : bool) (acc : Z) (s : string)
  : option (bool * Z * string) :=
  match s with
  | String c r =>
      match hex_digit c with
      | Some d => scan_digits false true (16 * acc + d) r
      | None =>
          if is_underscore c then
            if prev_us then None else scan_digits true true acc r
          else if prev_us then None else Some (seen, acc, s)
      end
  | EmptyString => if prev_us then None else Some (seen, acc, s)
  end.

(** [PyLong_FromString] in base 16 on a byte buffer, with the test that
    the whole buffer was read: optional leading whitespace, an optional
    sign, an optional [0x]/[0X] prefix (after which one underscore is
    allowed), a non-empty run of digits, optional trailing whitespace. *)
Definition long_from_string (s : string) : option Z :=
  let s1 := lstrip s in
  let '(neg, s2) :=
    match s1 with
    | String "+" r => (false, r)
    | String "-" r => (true, r)
    | _ => (false, s1)
    end in
  let s3 :=
    match s2 with
    | String "0" (String "x" r) | String "0" (String "X" r) =>
        match r with
        | String "_" r' => r'
        | _ => r
        end
    | _ => s2
    end in
  match s3 with
  | String "_" _ => None
  | _ =>
      match scan_digits false false 0 s3 with
      | Some (true, v, rest) =>
          match lstrip rest with
          | EmptyString => Some (if neg then - v else v)
          | _ => None
          end
      | _ => None
      end
  end.

(** All code points are below 128. *)
Definition is_ascii (s : str) : bool := forallb (fun c => c <? 128)%N s.

(** An ASCII [str] as a byte buffer. *)
Definition as_string (s : str) : string := string_of_list_ascii (map ascii_of_N s).

(** The loop of [_PyUnicode_TransformDecimalAndSpaceToASCII], which runs
    on a string that is not ASCII: a code point below 127 stays, a
    whitespace becomes a space, a decimal digit its ASCII digit, and at
    any other code point the buffer ends in a question mark. *)
Fixpoint to_ascii (db : unicode_db) (s : str) : string :=
  match s with
  | [] => EmptyString
  | c :: r =>
      if (c <? 127)%N then String (ascii_of_N c) (to_ascii db r)
      else if (128 <=? c)%N && isspace db c then String " " (to_ascii db r)
      else
        match (if (128 <=? c)%N then todecimal db c else None) with
        | Some d => String (ascii_of_N (48 + d)) (to_ascii db r)
        | None => String "?" EmptyString
        end
  end.

(** [_PyUnicode_TransformDecimalAndSpaceToASCII]: an ASCII string is
    taken as it is. *)
Definition transform (db : unicode_db) (s : str) : string :=
  if is_ascii s then as_string s else to_ascii db s.

(** [int(s, 16)] *)
Definition int16 (db : unicode_db) (s : str) : option Z :=
  long_from_string (transform db s).

(** [s.startswith('#')] *)
Definition startswith_hash (s : str) : bool :=
  match s with
  | c :: _ => (c =? 35)%N
  | [] => false
  end.

(** [s[i:j]] for [0 <= i <= j]; shorter strings give shorter slices. *)
Definition slice (s : str) (i j : nat) : str := take (j - i) (drop i s).

End PyStr.

(** ** Python numbers: binary64 floats and the mixed operations the code uses *)

Module PyNum.

Definition prec : Z := 53.
Definition emax : Z := 1024.

(** A Python [float]. *)
Definition float : Type := spec_float.

(** The correctly rounded (to nearest, ties to even) binary64 value of an
    integer; an infinity when the integer is out of range. *)
Definition of_int (z : Z) : float := binary_normalize prec emax z 0 false.

Definition one : float := of_int 1.

(** [a // b] on integers *)
Definition floordiv {L} (a b : Z) : M L Z :=
  if b =? 0 then raise (ZeroDivisionError "integer division or modulo by zero")
  else ret (a / b).

(** [a % b] on integers *)
Definition modulo {L} (a b : Z) : M L Z :=
  if b =? 0 then raise (ZeroDivisionError "integer division or modulo by zero")
  else ret (a mod b).

(** Implicit conversion of an [int] operand to [float]. *)
Definition float_of_int {L} (z : Z) : M L float :=
  match of_int z with
  | S754_infinity _ => raise (OverflowError "int too large to convert to float")
  | f => ret f
  end.

(** [a / b] on two integers: the correctly rounded quotient, computed as
    CPython does from the integers themselves and not from their float
    conversions; [0 / b] is a zero whose sign is the sign of [b]. *)
Definition int_truediv {L} (a b : Z) : M L float :=
  if b =? 0 then raise (ZeroDivisionError "division by zero")
  else
    match a with
    | Z0 => ret (S754_zero (b <? 0))
    | _ =>
        match SFdiv prec emax
                (S754_finite (a <? 0) (Z.to_pos (Z.abs a)) 0)
                (S754_finite (b <? 0) (Z.to_pos (Z.abs b)) 0) with
        | S754_infinity _ =>
            raise (OverflowError "integer division result too large for a float")
        | f => ret f
        end
    end.

(** [x / y] on two floats *)
Definition float_div {L} (x y : float) : M L float :=
  match y with
  | S754_zero _ => raise (ZeroDivisionError "float division by zero")
  | _ => ret (SFdiv prec emax x y)
  end.

(** [a / y] with [a] an integer and [y] a float *)
Definition int_div_float {L} (a : Z) (y : float) : M L float :=
  x <- float_of_int a ;; float_div x y.

(** [a * y] with [a] an integer and [y] a float *)
Definition int_mul_float {L} (a : Z) (y : float) : M L float :=
  x <- float_of_int a ;; ret (SFmul prec emax x y).

(** [int(x)]: truncation toward zero *)
Definition int_of_float {L} (x : float) : M L Z :=
  match x with
  | S754_nan => raise (ValueError "cannot convert float NaN to integer")
  | S754_infinity _ => raise (OverflowError "cannot convert float infinity to integer")
  | S754_zero _ => ret 0
  | S754_finite s m e =>
      let a := match e with
               | Zneg k => Z.pos m / 2 ^ Z.pos k
               | _ => Z.pos m * 2 ^ e
               end in
      ret (if s then - a else a)
  end.

(** [x > 1] with [x] a float *)
Definition gt_one (x : float) : bool := SFltb one x.

End PyNum.

(** ** Pillow images *)

Module PIL.

Definition color : Type := (Z * Z * Z)%type.

(** An image is described by the calls that produced it: a decoded input
    (its pixel data is the opaque [tag]), a fresh canvas, a resampled
    image, a copy, or a canvas after a paste. *)
Inductive Image : Type :=
| Decoded (mode : string) (w h : Z) (tag : N)
| Blank (mode : string) (w h : Z) (fill : color)
| Resized (src : Image) (w h : Z)
| Copy (src : Image)
| Pasted (dst src : Image) (x y : Z).

(** [img.mode]: resampling, copying and pasting keep the mode. *)
Fixpoint mode (img : Image) : string :=
  match img with
  | Decoded m _ _ _ | Blank m _ _ _ => m
  | Resized src _ _ | Copy src => mode src
  | Pasted dst _ _ _ => mode dst
  end.

(** [img.width] *)
Fixpoint width (img : Image) : Z :=
  match img with
  | Decoded _ w _ _ | Blank _ w _ _ | Resized _ w _ => w
  | Copy src => width src
  | Pasted dst _ _ _ => width dst
  end.

(** [img.height] *)
Fixpoint height (img : Image) : Z :=
  match img with
  | Decoded _ _ h _ | Blank _ _ h _ | Resized _ _ h => h
  | Copy src => height src
  | Pasted dst _ _ _ => height dst
  end.

(** [img.size] *)
Definition size (img : Image) : Z * Z := (width img, height img).

(** The ink a canvas was filled with before anything was pasted. *)
Fixpoint background (img : Image) : option color :=
  match img with
  | Blank _ _ _ c => Some c
  | Pasted dst _ _ _ => background dst
  | _ => None
  end.

(** The images pasted onto a canvas, oldest first, with their positions. *)
Fixpoint pastes (img : Image) : list (Image * (Z * Z)) :=
  match img with
  | Pasted dst src x y => pastes dst ++ [(src, (x, y))]
  | _ => []
  end.

(** The entries of the call log. *)
Inductive call : Type :=
| CallNew (mode : string) (size : Z * Z) (fill : color)
| CallResize (src : Image) (size : Z * Z)
| CallPaste (dst src : Image) (box : Z * Z).

(** [CLIP8] of Pillow: a channel value brought into 0..255. *)
Definition clip8 (v : Z) : Z :=
  if v <=? 0 then 0 else if v <? 256 then v else 255.

(** The ink Pillow makes of an RGB tuple: each channel clipped. *)
Definition ink (c : color) : color := (clip8 c.1.1, clip8 c.1.2, clip8 c.2).

(** A Python integer read as a C [int] by [PyArg_ParseTuple]: [None] when
    it fits, the text of the [OverflowError] when it does not.  The texts
    are those of CPython 3.11 where a C [long] has 64 bits; the theorems
    use the class of the exception only. *)
Definition as_c_int (z : Z) : option string :=
  if (z <? - 2 ^ 63) || (2 ^ 63 <=? z)
  then Some "Python int too large to convert to C long"%string
  else if 2 ^ 31 <=? z then Some "signed integer is greater than maximum"%string
  else if z <? - 2 ^ 31 then Some "signed integer is less than minimum"%string
  else None.

(** The two integers of a size, read in order. *)
Definition size_overflow (size : Z * Z) : option string :=
  match as_c_int size.1 with
  | Some msg => Some msg
  | None => as_c_int size.2
  end.

(** [Image.new(mode, size, color=fill)] with a tuple [fill]: a negative
    dimension is rejected, then the size is read as two C [int]s, and the
    canvas is filled with the ink of [fill].  Memory limits are not
    modelled. *)
Definition new (mode : string) (size : Z * Z) (fill : color) : M call Image :=
  emit (CallNew mode size fill) ;;;
  if (size.1 <? 0) || (size.2 <? 0)
  then raise (ValueError "Width and height must be >= 0")
  else
    match size_overflow size with
    | Some msg => raise (OverflowError msg)
    | None => ret (Blank mode size.1 size.2 (ink fill))
    end.

(** [img.resize(size, Image.LANCZOS)]: a copy when the size is unchanged;
    otherwise the size is read as two C [int]s, and a dimension below 1 is
    rejected.  Memory limits are not modelled. *)
Definition resize (img : Image) (size : Z * Z) : M call Image :=
  emit (CallResize img size) ;;;
  if bool_decide (PIL.size img = size) then ret (Copy img)
  else
    match size_overflow size with
    | Some msg => raise (OverflowError msg)
    | None =>
        if (size.1 <? 1) || (size.2 <? 1)
        then raise (ValueError "height and width must be > 0")
        else ret (Resized img size.1 size.2)
    end.

(** [dst.paste(src, box)] with a 2-tuple [box]: the pasted region is
    clipped to [dst], whose size and mode do not change. *)
Definition paste (dst src : Image) (box : Z * Z) : M call Image :=
  emit (CallPaste dst src box) ;;;
  ret (Pasted dst src box.1 box.2).

End PIL.

(** ** The node: [StoryboardImageNode] *)

Module Storyboard.

Import PyStr PyNum PIL.

(** A Python value as the [columns] argument can receive it. *)
Inductive pyobj : Type :=
| PyInt (z : Z)
| PyBool (b : bool)
| PyFloat (f : float)
| PyStr (s : string)
| PyNone.

Definition black : color := (0, 0, 0).

Definition int16_or_raise (db : unicode_db) (s : str) : M call Z :=
  match int16 db s with
  | Some v => ret v
  | None => raise (ValueError "invalid literal for int() with base 16")
  end.

(** Lines 200-212: the background colour. *)
Definition parse_bg_color (db : unicode_db) (bg_color : str) : M call color :=
  try_except
    (if startswith_hash bg_color then
       r <- int16_or_raise db (slice bg_color 1 3) ;;
       g <- int16_or_raise db (slice bg_color 3 5) ;;
       b <- int16_or_raise db (slice bg_color 5 7) ;;
       ret (r, g, b)
     else
       ret black)
    (fun _ => ret black).

(** Lines 214-216: [bool] is a subclass of [int], so [True] stays (and
    counts as 1) while [False] is below 1. *)
Definition valid_columns (columns : pyobj) : Z :=
  match columns with
  | PyInt z => if z <? 1 then 3 else z
  | PyBool b => if Z.b2z b <? 1 then 3 else Z.b2z b
  | _ => 3
  end.

(** Lines 235-249: the size an image is resized to. *)
Definition fitted_size (available_width available_height : Z) (img : Image)
  : M call (Z * Z) :=
  let '(img_width, img_height) := size img in
  aspect_ratio <- int_truediv img_width img_height ;;
  if gt_one aspect_ratio then
    let new_width := available_width in
    q <- int_div_float new_width aspect_ratio ;;
    new_height <- int_of_float q ;;
    if new_height >? available_height then
      let new_height := available_height in
      p <- int_mul_float new_height aspect_ratio ;;
      new_width <- int_of_float p ;;
      ret (new_width, new_height)
    else ret (new_width, new_height)
  else
    let new_height := available_height in
    p <- int_mul_float new_height aspect_ratio ;;
    new_width <- int_of_float p ;;
    if new_width >? available_width then
      let new_width := available_width in
      q <- int_div_float new_width aspect_ratio ;;
      new_height <- int_of_float q ;;
      ret (new_width, new_height)
    else ret (new_width, new_height).

(** Lines 233-252: one turn of the resize loop. *)
Definition resize_step (available_width available_height : Z)
  (resized_images : list Image) (img : Image) : M call (list Image) :=
  new_size <- fitted_size available_width available_height img ;;
  resized_img <- resize img new_size ;;
  ret (resized_images ++ [resized_img]).

(** [enumerate(l)], counting from [i]. *)
Fixpoint enumerate_from {A} (i : Z) (l : list A) : list (Z * A) :=
  match l with
  | [] => []
  | x :: r => (i, x) :: enumerate_from (i + 1) r
  end.

(** Lines 276-288: where the image of index [idx] goes in the grid. *)
Definition cell_position (columns padding rows last_row_items base_width base_height : Z)
  (idx : Z) : M call (Z * Z) :=
  row <- floordiv idx columns ;;
  col <- modulo idx columns ;;
  x <- (if (row =? rows - 1) && (last_row_items <? columns) then
          offset <- floordiv ((columns - last_row_items) * (base_width + padding)) 2 ;;
          ret (col * (base_width + padding) + padding + offset)
        else
          ret (col * (base_width + padding) + padding)) ;;
  let y := row * (base_height + padding) + padding in
  ret (x, y).

(** Lines 275-289: one turn of the placement loop. *)
Definition place_step (columns padding rows last_row_items base_width base_height : Z)
  (grid_image : Image) (item : Z * Image) : M call Image :=
  xy <- cell_position columns padding rows last_row_items base_width base_height item.1 ;;
  paste grid_image item.2 xy.

(** Lines 195-296; [db] is the Unicode database of the interpreter. *)
Definition create_storyboard_grid (db : unicode_db) (images : list Image)
  (bg_color : str) (columns : pyobj) (padding : Z) (target_size : Z * Z)
  : M call Image :=
  if bool_decide (images = []) then raise (ValueError "No images provided")
  else
    bg_color_tuple <- parse_bg_color db bg_color ;;
    let columns := valid_columns columns in
    let num_images := Z.of_nat (length images) in
    rows <- floordiv (num_images + columns - 1) columns ;;
    let '(target_width, target_height) := target_size in
    available_width <- floordiv (target_width - (columns + 1) * padding) columns ;;
    max_rows <- floordiv (num_images + columns - 1) columns ;;
    available_height <- floordiv (target_height - (max_rows + 1) * padding) max_rows ;;
    resized_images <- for_each (resize_step available_width available_height) images [] ;;
    final_image <- new "RGB" target_size bg_color_tuple ;;
    let base_width :=
      match resized_images !! 0%nat with
      | Some first => width first
      | None => available_width
      end in
    let base_height :=
      match resized_images !! 0%nat with
      | Some first => height first
      | None => available_height
      end in
    let grid_width := columns * base_width + (columns + 1) * padding in
    let grid_height := rows * base_height + (rows + 1) * padding in
    grid_image <- new "RGB" (grid_width, grid_height) bg_color_tuple ;;
    last_row_items <- modulo num_images columns ;;
    let last_row_items := if last_row_items =? 0 then columns else last_row_items in
    grid_image <- for_each
                    (place_step columns padding rows last_row_items base_width base_height)
                    (enumerate_from 0 resized_images) grid_image ;;
    let paste_x := Z.max 0 ((target_width - grid_width) / 2) in
    let paste_y := Z.max 0 ((target_height - grid_height) / 2) in
    final_image <- paste final_image grid_image (paste_x, paste_y) ;;
    ret final_image.

(** Lines 347-358: the table of [_parse_output_size]. *)
Definition size_map : gmap string (Z * Z) :=
  <["4k (3840x2160)" := (3840, 2160)]>
  (<["1920x1080" := (1920, 1080)]>
  (<["1440p (2560x1440)" := (2560, 1440)]>
  (<["720p (1280x720)" := (1280, 720)]> ∅))).

(** [_parse_output_size]: [size_map.get(output_size)] *)
Definition _parse_output_size (output_size : string) : option (Z * Z) :=
  size_map !! output_size.

(** Line 160 of [process]: [self._parse_output_size(output_image_size) or (1920, 1080)];
    a 2-tuple is never falsy, so only [None] takes the default. *)
Definition target_size_of (output_image_size : string) : Z * Z :=
  match _parse_output_size output_image_size with
  | Some sz => sz
  | None => (1920, 1080)
  end.

(** Run a computation from an empty call log. *)
Definition run {A} (m : M call A) : result A * list call := m [].

End Storyboard.

Import PyStr PyNum PIL Storyboard.

(** ** Layout as the specification words it

    These definitions follow the specification's formulas; the theorems
    below compare them with what [create_storyboard_grid] computes. *)

Module Layout.

(** [rows = ceil(n / columns)] *)
Definition rows (n columns : Z) : Z := (n + columns - 1) / columns.

(** [floor((target - (k+1) * padding) / k)] for [k] columns or rows *)
Definition available (target k padding : Z) : Z := (target - (k + 1) * padding) / k.

(** Size of the grid buffer along one axis: [k] cells and [k+1] gaps. *)
Definition grid_extent (k cell padding : Z) : Z := k * cell + (k + 1) * padding.

(** Default position of the cell of index [i]. *)
Definition default_x (columns padding cell_width i : Z) : Z :=
  (i mod columns) * (cell_width + padding) + padding.

Definition default_y (columns padding cell_height i : Z) : Z :=
  (i / columns) * (cell_height + padding) + padding.

(** Number of images in the final row: [n mod columns], or [columns] when
    that is zero. *)
Definition last_row_count (n columns : Z) : Z :=
  if n mod columns =? 0 then columns else n mod columns.

(** The shift that centres a partial final row. *)
Definition centering_offset (n columns padding cell_width : Z) : Z :=
  (columns - last_row_count n columns) * (cell_width + padding) / 2.

(** The cell of index [i] lies in the final row. *)
Definition in_last_row (n columns i : Z) : Prop := i / columns = rows n columns - 1.

(** Position of the grid buffer on the canvas along one axis. *)
Definition centered (target extent : Z) : Z := Z.max 0 ((target - extent) / 2).

End Layout.

(** ** Pure readings of the loops, used to state what a run produced *)

Module Trace.

Import Layout.

(** The colour [parse_bg_color] settles on. *)
Definition bg_color_of (db : unicode_db) (bg_color : str) : color :=
  match run (parse_bg_color db bg_color) with
  | (Ok c, _) => c
  | (Raise _, _) => black
  end.

(** x coordinate computed by [cell_position]. *)
Definition cell_x (columns padding rows last_row_items base_width idx : Z) : Z :=
  if (idx / columns =? rows - 1) && (last_row_items <? columns)
  then (idx mod columns) * (base_width + padding) + padding
       + (columns - last_row_items) * (base_width + padding) / 2
  else (idx mod columns) * (base_width + padding) + padding.

(** y coordinate computed by [cell_position]. *)
Definition cell_y (columns padding base_height idx : Z) : Z :=
  (idx / columns) * (base_height + padding) + padding.

(** The grid after the placement loop ran over [items]. *)
Fixpoint placed (columns padding rows last_row_items base_width base_height : Z)
  (items : list (Z * Image)) (grid : Image) : Image :=
  match items with
  | [] => grid
  | it :: r =>
      placed columns padding rows last_row_items base_width base_height r
        (Pasted grid it.2
           (cell_x columns padding rows last_row_items base_width it.1)
           (cell_y columns padding base_height it.1))
  end.

(** The [paste] calls the placement loop logs. *)
Fixpoint placed_calls (columns padding rows last_row_items base_width base_height : Z)
  (items : list (Z * Image)) (grid : Image) : list call :=
  match items with
  | [] => []
  | it :: r =>
      let x := cell_x columns padding rows last_row_items base_width it.1 in
      let y := cell_y columns padding base_height it.1 in
      CallPaste grid it.2 (x, y)
      :: placed_calls columns padding rows last_row_items base_width base_height r
           (Pasted grid it.2 x y)
  end.

End Trace.

Import Layout Trace.

(** ** Definitions used by the statements *)

(** A computation is [silent] when it leaves the call log alone and its
    outcome does not depend on the log. *)
Definition silent {L A} (m : M L A) : Prop :=
  exists r, forall log, m log = (r, log).

(** The outcome of [fitted_size], which is the same under every log. *)
Definition fitted (aw ah : Z) (img : Image) : result (Z * Z) :=
  (run (fitted_size aw ah img)).1.

(** The outcome of [resize], apart from the log entry. *)
Definition resize_outcome (img : Image) (sz : Z * Z) : result Image :=
  if bool_decide (size img = sz) then Ok (Copy img)
  else
    match size_overflow sz with
    | Some msg => Raise (OverflowError msg)
    | None =>
        if (sz.1 <? 1) || (sz.2 <? 1)
        then Raise (ValueError "height and width must be > 0")
        else Ok (Resized img sz.1 sz.2)
    end.

(** [resized_as aw ah img r]: the resize loop turns [img] into [r]. *)
Definition resized_as (aw ah : Z) (img r : Image) : Prop :=
  exists sz, fitted aw ah img = Ok sz /\ resize_outcome img sz = Ok r.

(** The log entry of a call to [Image.resize]. *)
Definition is_resize_call (c : call) : Prop :=
  match c with CallResize _ _ => True | _ => False end.

(** Sample inputs: a decoded 100x100 RGB image, four of them, and three
    images of different modes and aspect ratios. *)
Definition sq100 (tag : N) : Image := Decoded "RGB" 100 100 tag.

Definition four_squares : list Image := [sq100 0; sq100 1; sq100 2; sq100 3].

Definition mixed_modes : list Image :=
  [Decoded "RGBA" 640 480 0; Decoded "L" 300 500 1; Decoded "P" 64 64 2].

(** A part of a Unicode database, for the examples: the whitespace
    U+0085, U+00A0 and U+3000, the Arabic-Indic digits and the fullwidth
    digits. *)
Definition sample_isspace (c : N) : bool :=
  ((c =? 133) || (c =? 160) || (c =? 12288))%N.

Definition sample_todecimal (c : N) : option N :=
  if ((1632 <=? c) && (c <=? 1641))%N then Some (c - 1632)%N
  else if ((65296 <=? c) && (c <=? 65305))%N then Some (c - 65296)%N
  else None.

Definition sample_db : unicode_db.
Proof.
  refine {| isspace := sample_isspace; todecimal := sample_todecimal |}.
  intros c d. unfold sample_todecimal.
  destruct ((1632 <=? c) && (c <=? 1641))%N eqn:E1.
  - intros [= <-]. apply andb_prop in E1 as [_ E]. apply N.leb_le in E. lia.
  - destruct ((65296 <=? c) && (c <=? 65305))%N eqn:E2; [|discriminate].
    intros [= <-]. apply andb_prop in E2 as [_ E]. apply N.leb_le in E. lia.
Defined.

(** The base-16 value of a code point that is an ASCII hex digit. *)
Definition hex_value (c : N) : option Z :=
  if (c <? 128)%N then hex_digit (ascii_of_N c) else None.

(** The colour syntax of the specification: [#] and six hex digits. *)
Definition valid_rrggbb (s : str) : bool :=
  match s with
  | [h; a; b; c; d; e; f] =>
      (h =? 35)%N && forallb (fun x => bool_decide (is_Some (hex_value x))) [a; b; c; d; e; f]
  | _ => false
  end.

(** A byte that can occur in a buffer of at most two bytes that
    [long_from_string] accepts: a hex digit, whitespace or a sign. *)
Definition literal_char (c : ascii) : bool :=
  bool_decide (is_Some (hex_digit c)) || is_space c || (code c =? 43) || (code c =? 45).

(** A code point that can occur in a string of at most two characters
    that [int(s, 16)] accepts: below 128 a [literal_char], from 128 on a
    whitespace or a decimal digit of the Unicode database. *)
Definition literal (db : unicode_db) (c : N) : bool :=
  if (c <? 128)%N then literal_char (ascii_of_N c)
  else isspace db c || bool_decide (is_Some (todecimal db c)).

(** The 256 bytes. *)
Definition all_ascii : list ascii := map ascii_of_nat (seq 0 256).

(** [long_from_string] accepts the one-byte buffer [a] only if [a] is a
    [literal_char]. *)
Definition check_1 (a : ascii) : bool :=
  match long_from_string (String a EmptyString) with
  | Some _ => literal_char a
  | None => true
  end.

(** [long_from_string] accepts the two-byte buffer [a b] only if both
    are. *)
Definition check_2 (a b : ascii) : bool :=
  match long_from_string (String a (String b EmptyString)) with
  | Some _ => literal_char a && literal_char b
  | None => true
  end.

(** A string the code cannot read as a colour: no leading [#], or one of
    the slices [1:3], [3:5], [5:7] is not a base-16 integer literal. *)
Definition unparsable (db : unicode_db) (bg : str) : Prop :=
  startswith_hash bg = false \/ int16 db (slice bg 1 3) = None \/
  int16 db (slice bg 3 5) = None \/ int16 db (slice bg 5 7) = None.

(** The size of an image Pillow can hold: positive, each side a C [int]. *)
Definition pillow_size (img : Image) : Prop :=
  0 < width img < 2 ^ 31 /\ 0 < height img < 2 ^ 31.

(** A fitted size [(nw, nh)] for [img] in a cell [aw] by [ah]: it fits,
    one dimension fills the cell, and the other is the value that keeps
    the aspect ratio ([aw * h / w] or [ah * w / h]) rounded down, give or
    take one pixel. *)
Definition fits_cell (aw ah : Z) (img : Image) (nw nh : Z) : Prop :=
  nw <= aw /\ nh <= ah /\
  ((nw = aw /\ Z.abs (nh - aw * height img / width img) <= 1) \/
   (nh = ah /\ Z.abs (nw - ah * width img / height img) <= 1)).



(** The error of [Image.resize] for a size it does not take. *)
Definition resize_error (sz : Z * Z) : exn :=
  match size_overflow sz with
  | Some msg => OverflowError msg
  | None => ValueError "height and width must be > 0"
  end.

(** [columns] is replaced by the default: it is no [int] instance, or it
    is below 1. *)
Definition columns_defaulted (columns : pyobj) : Prop :=
  match columns with
  | PyInt z => z < 1
  | PyBool b => Z.b2z b < 1
  | _ => True
  end.

(** The log entry of a call to [Image.new]. *)
Definition is_new_call (k : call) : bool :=
  match k with CallNew _ _ _ => true | _ => false end.

(** ** Definitions for the rounding analysis *)

Module Rounding.

(** The position of [N/D] between [N div D] and its successor. *)
Definition loc_of (N D : Z) : location :=
  if N mod D =? 0 then loc_Exact else loc_Inexact (2 * (N mod D) ?= D).

(** [mrs] holds the quotient, the round bit and the sticky bit of [N/D]. *)
Definition holds (mrs : shr_record) (N D : Z) : Prop :=
  0 < D /\ 0 <= N /\
  shr_m mrs = N / D /\
  shr_r mrs = (D <=? 2 * (N mod D)) /\
  shr_s mrs = negb ((2 * N) mod D =? 0).

End Rounding.

Module Real.

(** [2^e] as a real number. *)
Definition bpow (e : Z) : R := powerRZ 2 e.

(** The real value of a finite float; 0 for the others. *)
Definition B2R (f : spec_float) : R :=
  match f with
  | S754_finite s m e => ((if s then -1 else 1) * IZR (Z.pos m) * bpow e)%R
  | _ => 0%R
  end.

(** The unit roundoff of binary64. *)
Definition u : R := (/ IZR (2 ^ 53))%R.

End Real.

Import Rounding Real.

(** A float that is zero, negative or not a number. *)
Definition nonpos_float (f : spec_float) : Prop :=
  match f with
  | S754_zero _ | S754_nan => True
  | S754_finite s _ _ | S754_infinity s => s = true
  end.

(** An outcome that is not a division by zero; [P] holds of a returned value. *)
Definition no_zero_division {A} (P : A -> Prop) (r : result A) : Prop :=
  match r with
  | Ok a => P a
  | Raise (ZeroDivisionError _) => False
  | Raise _ => True
  end.

(** ** Definitions used by the further properties *)








(** An image whose aspect ratio a cell of [aw] by [ah] can take: neither
    side of the fitted size comes out below 1. *)
Definition fits_aspect (aw ah : Z) (img : Image) : Prop :=
  2 * width img <= aw * height img /\ 2 * height img <= ah * width img.

(** An image too wide or too tall for a cell of [aw] by [ah]: keeping its
    aspect ratio, one side of the fitted size would be below one pixel. *)
Definition unfit (aw ah : Z) (img : Image) : Prop :=
  aw * height img < width img \/ ah * width img < height img.

(** The colour a string of the syntax [#RRGGBB] stands for. *)
Definition rrggbb_value (s : str) : option color :=
  match s with
  | [_; a; b; c; d; e; f] =>
      match hex_value a, hex_value b, hex_value c, hex_value d, hex_value e, hex_value f with
      | Some a, Some b, Some c, Some d, Some e, Some f =>
          Some (16 * a + b, 16 * c + d, 16 * e + f)
      | _, _, _, _, _, _ => None
      end
  | _ => None
  end.

(** [long_from_string] reads a buffer of two hex digits as their value,
    a digit being worth 0 to 15. *)
Definition check_hex (a b : ascii) : bool :=
  match hex_digit a, hex_digit b with
  | Some x, Some y =>
      bool_decide (long_from_string (String a (String b EmptyString)) = Some (16 * x + y))
      && (0 <=? x) && (x <? 16) && (0 <=? y) && (y <? 16)
  | _, _ => true
  end.

(** The log entry of the resize of [img]. *)
Definition resize_call_of (aw ah : Z) (img : Image) (k : call) : Prop :=
  exists sz, fitted aw ah img = Ok sz /\ k = CallResize img sz.

(** The log entry of a paste of [src] on an image that is [base] with
    pastes on it. *)
Definition paste_call_of (src : Image) (k : call) : Prop :=
  exists dst box, k = CallPaste dst src box.

(** ** Checks of the string model *)

Example long_ff : long_from_string "ff" = Some 255. Proof. reflexivity. Qed.
Example long_upper : long_from_string "A0" = Some 160. Proof. reflexivity. Qed.
Example long_empty : long_from_string "" = None. Proof. reflexivity. Qed.
Example long_zz : long_from_string "zz" = None. Proof. reflexivity. Qed.
Example long_sign : long_from_string "-7" = Some (-7). Proof. reflexivity. Qed.
Example long_space : long_from_string " 7" = Some 7. Proof. reflexivity. Qed.
Example long_0x : long_from_string "0x" = None. Proof. reflexivity. Qed.
Example long_us : long_from_string "1_" = None. Proof. reflexivity. Qed.
Example long_long : long_from_string " +0x_1_f " = Some 31. Proof. reflexivity. Qed.

(** Fullwidth digits, a no-break space, and a character that is neither. *)
Example int16_fullwidth : int16 sample_db [65297%N; 65298%N] = Some 18.
Proof. reflexivity. Qed.
Example int16_nbsp : int16 sample_db [160%N; 102%N] = Some 15.
Proof. reflexivity. Qed.
Example int16_accent : int16 sample_db [49%N; 233%N] = None.
Proof. reflexivity. Qed.
Example int16_ascii : int16 sample_db (of_string "fF") = Some 255.
Proof. reflexivity. Qed.

Example slice_short : slice (of_string "#ab") 3 5 = [].
Proof. reflexivity. Qed.
Example slice_mid : slice (of_string "#a1b2c3") 3 5 = of_string "b2".
Proof. reflexivity. Qed.

(** ** Checks of the number model *)

(** A typical fit: 640x480 in a cell of 626x1060. *)
Example fitted_typical :
  run (fitted_size 626 1060 (Decoded "RGBA" 640 480 0)) = (Ok (626, 469), []).
Proof. vm_compute. reflexivity. Qed.

(** A taller image that is too wide at full height is fitted by width. *)
Example fitted_by_width :
  run (fitted_size 626 1060 (Decoded "L" 300 500 1)) = (Ok (626, 1043), []).
Proof. vm_compute. reflexivity. Qed.

(** Binary64 is not exact: [49 * (1 / 49)] is below 1, so a 1x49 image in
    a cell of 49x49 gets the width 0. *)
Example fitted_rounds_below :
  run (fitted_size 49 49 (Decoded "L" 1 49 0)) = (Ok (0, 49), []).
Proof. vm_compute. reflexivity. Qed.

(** A zero height is a division by zero. *)
Example fitted_zero_height :
  run (fitted_size 10 10 (Decoded "L" 5 0 0))
  = (Raise (ZeroDivisionError "division by zero"), []).
Proof. vm_compute. reflexivity. Qed.

(** ** Generic facts about the monad *)

Section MonadFacts.
Context {L : Type}.

Lemma bind_ok {A B} (m : M L A) (k : A -> M L B) log b log' :
  bind m k log = (Ok b, log') ->
  exists a l1, m log = (Ok a, l1) /\ k a l1 = (Ok b, log').
Proof.
  unfold bind. destruct (m log) as [[a|e] l1]; intros H; [eauto | discriminate].
Qed.

Lemma bind_eq_ok {A B} (m : M L A) (k : A -> M L B) log a l1 :
  m log = (Ok a, l1) -> bind m k log = k a l1.
Proof. unfold bind. now intros ->. Qed.

Lemma bind_eq_raise {A B} (m : M L A) (k : A -> M L B) log e l1 :
  m log = (Raise e, l1) -> bind m k log = (Raise e, l1).
Proof. unfold bind. now intros ->. Qed.

Lemma floordiv_eq (a b : Z) (log : list L) :
  b <> 0 -> floordiv a b log = (Ok (a / b), log).
Proof. intros Hb. unfold floordiv. destruct (Z.eqb_spec b 0); [contradiction | reflexivity]. Qed.

Lemma modulo_eq (a b : Z) (log : list L) :
  b <> 0 -> modulo a b log = (Ok (a mod b), log).
Proof. intros Hb. unfold modulo. destruct (Z.eqb_spec b 0); [contradiction | reflexivity]. Qed.

End MonadFacts.

(** ** Facts about the pieces of [create_storyboard_grid] *)

Lemma valid_columns_pos (columns : pyobj) : 1 <= valid_columns columns.
Proof.
  destruct columns as [z|b| | |]; simpl; try lia.
  - destruct (Z.ltb_spec z 1); lia.
  - destruct b; simpl; lia.
Qed.

Lemma rows_pos (n columns : Z) : 1 <= n -> 1 <= columns -> 1 <= rows n columns.
Proof.
  intros Hn Hc. unfold rows.
  apply Z.div_le_lower_bound; lia.
Qed.

Lemma parse_bg_color_eq (db : unicode_db) (bg_color : str) (log : list call) :
  parse_bg_color db bg_color log = (Ok (bg_color_of db bg_color), log).
Proof.
  unfold bg_color_of, run, parse_bg_color, try_except, int16_or_raise.
  destruct (startswith_hash bg_color); [| reflexivity].
  unfold bind, ret, raise.
  destruct (int16 db (slice bg_color 1 3)); [| reflexivity].
  destruct (int16 db (slice bg_color 3 5)); [| reflexivity].
  destruct (int16 db (slice bg_color 5 7)); reflexivity.
Qed.

Lemma cell_position_eq columns padding rows last_row_items base_width base_height idx log :
  columns <> 0 ->
  cell_position columns padding rows last_row_items base_width base_height idx log
  = (Ok (cell_x columns padding rows last_row_items base_width idx,
         cell_y columns padding base_height idx), log).
Proof.
  intros Hc. unfold cell_position, cell_x, cell_y.
  rewrite (bind_eq_ok _ _ _ _ _ (floordiv_eq idx columns log Hc)).
  rewrite (bind_eq_ok _ _ _ _ _ (modulo_eq idx columns log Hc)).
  destruct ((idx / columns =? rows - 1) && (last_row_items <? columns)).
  - unfold bind at 1. unfold bind at 1.
    rewrite floordiv_eq by lia. reflexivity.
  - reflexivity.
Qed.

Lemma placement_loop columns padding rows last_row_items base_width base_height items :
  columns <> 0 ->
  forall grid log,
    for_each (place_step columns padding rows last_row_items base_width base_height)
      items grid log
    = (Ok (placed columns padding rows last_row_items base_width base_height items grid),
       log ++ placed_calls columns padding rows last_row_items base_width base_height
                items grid).
Proof.
  intros Hc. induction items as [|it r IH]; intros grid log; simpl.
  - unfold ret. now rewrite app_nil_r.
  - unfold place_step at 1.
    unfold bind at 1. unfold bind at 1.
    rewrite cell_position_eq by assumption. simpl.
    unfold paste, bind, emit, ret. simpl.
    fold (@bind call). rewrite IH. rewrite <- app_assoc. reflexivity.
Qed.

Section Silent.
Context {L : Type}.

Lemma silent_ret {A} (a : A) : silent (@ret L A a).
Proof. now exists (Ok a). Qed.

Lemma silent_raise {A} (e : exn) : silent (@raise L A e).
Proof. now exists (Raise e). Qed.

Lemma silent_bind {A B} (m : M L A) (k : A -> M L B) :
  silent m -> (forall a, silent (k a)) -> silent (bind m k).
Proof.
  intros [[a|e] Hm] Hk.
  - destruct (Hk a) as [r Hr]. exists r. intros log. unfold bind. now rewrite Hm.
  - exists (Raise e). intros log. unfold bind. now rewrite Hm.
Qed.

Lemma silent_if {A} (b : bool) (m1 m2 : M L A) :
  silent m1 -> silent m2 -> silent (if b then m1 else m2).
Proof. now destruct b. Qed.

Lemma silent_float_of_int (z : Z) : silent (@float_of_int L z).
Proof. unfold float_of_int. destruct (of_int z); auto using silent_ret, silent_raise. Qed.

Lemma silent_int_truediv (a b : Z) : silent (@int_truediv L a b).
Proof.
  unfold int_truediv. apply silent_if; [apply silent_raise|].
  destruct a; [apply silent_ret| |];
    match goal with |- silent (match ?x with _ => _ end) => destruct x end;
    auto using silent_ret, silent_raise.
Qed.

Lemma silent_float_div (x y : float) : silent (@float_div L x y).
Proof. unfold float_div. destruct y; auto using silent_ret, silent_raise. Qed.

Lemma silent_int_div_float (a : Z) (y : float) : silent (@int_div_float L a y).
Proof.
  unfold int_div_float. apply silent_bind; [apply silent_float_of_int|].
  intros x. apply silent_float_div.
Qed.

Lemma silent_int_mul_float (a : Z) (y : float) : silent (@int_mul_float L a y).
Proof.
  unfold int_mul_float. apply silent_bind; [apply silent_float_of_int|].
  intros x. apply silent_ret.
Qed.

Lemma silent_int_of_float (x : float) : silent (@int_of_float L x).
Proof. unfold int_of_float. destruct x; auto using silent_ret, silent_raise. Qed.

End Silent.

Lemma silent_fitted_size aw ah img : silent (fitted_size aw ah img).
Proof.
  unfold fitted_size. destruct (size img) as [w h].
  apply silent_bind; [apply silent_int_truediv|]. intros a.
  apply silent_if.
  - apply silent_bind; [apply silent_int_div_float|]. intros q.
    apply silent_bind; [apply silent_int_of_float|]. intros nh.
    apply silent_if; [|apply silent_ret].
    apply silent_bind; [apply silent_int_mul_float|]. intros p.
    apply silent_bind; [apply silent_int_of_float|]. intros nw. apply silent_ret.
  - apply silent_bind; [apply silent_int_mul_float|]. intros p.
    apply silent_bind; [apply silent_int_of_float|]. intros nw.
    apply silent_if; [|apply silent_ret].
    apply silent_bind; [apply silent_int_div_float|]. intros q.
    apply silent_bind; [apply silent_int_of_float|]. intros nh. apply silent_ret.
Qed.

Lemma fitted_size_eq aw ah img log :
  fitted_size aw ah img log = (fitted aw ah img, log).
Proof.
  destruct (silent_fitted_size aw ah img) as [r Hr].
  unfold fitted, run. now rewrite !Hr.
Qed.

Lemma as_c_int_none (z : Z) : as_c_int z = None <-> - 2 ^ 31 <= z < 2 ^ 31.
Proof.
  unfold as_c_int.
  destruct (Z.ltb_spec z (- 2 ^ 63)); destruct (Z.leb_spec (2 ^ 63) z); simpl;
    try (split; [discriminate | lia]).
  destruct (Z.leb_spec (2 ^ 31) z); [split; [discriminate | lia]|].
  destruct (Z.ltb_spec z (- 2 ^ 31)); [split; [discriminate | lia]|].
  split; [lia | reflexivity].
Qed.

Lemma size_overflow_none (sz : Z * Z) :
  size_overflow sz = None <->
  - 2 ^ 31 <= sz.1 < 2 ^ 31 /\ - 2 ^ 31 <= sz.2 < 2 ^ 31.
Proof.
  unfold size_overflow. rewrite <- !as_c_int_none.
  destruct (as_c_int sz.1); [split; [discriminate | intros [[=] _]]|].
  split; [now split | now intros [_ H]].
Qed.

Lemma resize_eq img sz log :
  resize img sz log = (resize_outcome img sz, log ++ [CallResize img sz]).
Proof.
  unfold resize, resize_outcome, bind, emit, ret, raise.
  destruct (bool_decide (size img = sz)); [reflexivity|].
  destruct (size_overflow sz); [reflexivity|].
  destruct ((sz.1 <? 1) || (sz.2 <? 1)); reflexivity.
Qed.

Lemma resize_outcome_size img sz r :
  resize_outcome img sz = Ok r -> size r = sz /\ mode r = mode img.
Proof.
  unfold resize_outcome.
  destruct (bool_decide_reflect (size img = sz)) as [E|_].
  - intros [= <-]. now split.
  - destruct (size_overflow sz); [discriminate|].
    destruct ((sz.1 <? 1) || (sz.2 <? 1)); [discriminate|].
    intros [= <-]. destruct sz; now split.
Qed.

(** An image that [resize] returns is a copy, or has sides from 1 to
    [2^31 - 1]. *)
Lemma resize_outcome_range img sz r :
  resize_outcome img sz = Ok r ->
  sz = size img \/ (1 <= sz.1 < 2 ^ 31 /\ 1 <= sz.2 < 2 ^ 31).
Proof.
  unfold resize_outcome.
  destruct (bool_decide_reflect (size img = sz)) as [E|_]; [now left|].
  destruct (size_overflow sz) eqn:Eo; [discriminate|].
  apply size_overflow_none in Eo.
  destruct (Z.ltb_spec sz.1 1); destruct (Z.ltb_spec sz.2 1); simpl; try discriminate.
  intros _. right. lia.
Qed.

(** What [resize] raises for a size with a side below 1 that is not the
    size of the image. *)
Lemma resize_outcome_error img sz :
  size img <> sz -> sz.1 < 1 \/ sz.2 < 1 ->
  resize_outcome img sz = Raise (resize_error sz).
Proof.
  intros Hne Hlow. unfold resize_outcome, resize_error.
  destruct (bool_decide_reflect (size img = sz)); [contradiction|].
  destruct (size_overflow sz); [reflexivity|].
  destruct (Z.ltb_spec sz.1 1); destruct (Z.ltb_spec sz.2 1); simpl; try reflexivity. lia.
Qed.

Lemma resize_loop_ok aw ah images :
  forall acc log out log',
    for_each (resize_step aw ah) images acc log = (Ok out, log') ->
    exists rs rcalls,
      out = acc ++ rs /\ Forall2 (resized_as aw ah) images rs /\
      log' = log ++ rcalls /\ Forall is_resize_call rcalls.
Proof.
  induction images as [|img r IH]; intros acc log out log' H; simpl in H.
  - injection H as <- <-. exists [], []. rewrite !app_nil_r. auto.
  - apply bind_ok in H as (acc1 & l1 & Hstep & Hrest).
    unfold resize_step in Hstep.
    apply bind_ok in Hstep as (sz & l2 & Hfit & Hstep).
    rewrite fitted_size_eq in Hfit. injection Hfit as Hfit <-.
    apply bind_ok in Hstep as (ri & l3 & Hres & Hstep).
    rewrite resize_eq in Hres. injection Hres as Hres <-.
    injection Hstep as <- <-.
    apply IH in Hrest as (rs & rcalls & -> & HF & -> & Hc).
    exists (ri :: rs), (CallResize img sz :: rcalls).
    rewrite <- !app_assoc. simpl. repeat split; auto.
    + constructor; [now exists sz | assumption].
    + constructor; [exact I | assumption].
Qed.

Lemma new_eq m sz c log :
  new m sz c log
  = (if (sz.1 <? 0) || (sz.2 <? 0)
     then Raise (ValueError "Width and height must be >= 0")
     else
       match size_overflow sz with
       | Some msg => Raise (OverflowError msg)
       | None => Ok (Blank m sz.1 sz.2 (ink c))
       end,
     log ++ [CallNew m sz c]).
Proof.
  unfold new, bind, emit, ret, raise.
  destruct ((sz.1 <? 0) || (sz.2 <? 0)); [reflexivity|].
  destruct (size_overflow sz); reflexivity.
Qed.

Lemma new_ok m sz c log img log' :
  new m sz c log = (Ok img, log') ->
  img = Blank m sz.1 sz.2 (ink c) /\ log' = log ++ [CallNew m sz c] /\
  0 <= sz.1 < 2 ^ 31 /\ 0 <= sz.2 < 2 ^ 31.
Proof.
  rewrite new_eq.
  destruct (Z.ltb_spec sz.1 0); destruct (Z.ltb_spec sz.2 0); simpl; try discriminate.
  destruct (size_overflow sz) eqn:Eo; [discriminate|].
  apply size_overflow_none in Eo.
  intros [= <- <-]. repeat split; lia.
Qed.

(** [Image.new] for a size Pillow takes. *)
Lemma new_returns m w h c log :
  0 <= w < 2 ^ 31 -> 0 <= h < 2 ^ 31 ->
  new m (w, h) c log = (Ok (Blank m w h (ink c)), log ++ [CallNew m (w, h) c]).
Proof.
  intros Hw Hh. rewrite new_eq. cbn [fst snd].
  destruct (Z.ltb_spec w 0); [lia|]. destruct (Z.ltb_spec h 0); [lia|]. simpl.
  assert (E : size_overflow (w, h) = None) by (apply size_overflow_none; simpl; lia).
  now rewrite E.
Qed.

(** What a successful run of [create_storyboard_grid] consists of. *)
Lemma create_ok db images bg columns padding tw th final calls :
  run (create_storyboard_grid db images bg columns padding (tw, th)) = (Ok final, calls) ->
  let c := valid_columns columns in
  let n := Z.of_nat (length images) in
  let rws := rows n c in
  let aw := available tw c padding in
  let ah := available th rws padding in
  let bgc := bg_color_of db bg in
  exists first rest rcalls,
    images <> [] /\
    Forall2 (resized_as aw ah) images (first :: rest) /\
    Forall is_resize_call rcalls /\
    let cw := width first in
    let ch := height first in
    let gw := grid_extent c cw padding in
    let gh := grid_extent rws ch padding in
    let items := enumerate_from 0 (first :: rest) in
    let last := last_row_count n c in
    let grid := placed c padding rws last cw ch items (Blank "RGB" gw gh (ink bgc)) in
    final = Pasted (Blank "RGB" tw th (ink bgc)) grid (centered tw gw) (centered th gh) /\
    calls = rcalls
            ++ [CallNew "RGB" (tw, th) bgc; CallNew "RGB" (gw, gh) bgc]
            ++ placed_calls c padding rws last cw ch items (Blank "RGB" gw gh (ink bgc))
            ++ [CallPaste (Blank "RGB" tw th (ink bgc)) grid (centered tw gw, centered th gh)] /\
    0 <= tw < 2 ^ 31 /\ 0 <= th < 2 ^ 31 /\ 0 <= gw < 2 ^ 31 /\ 0 <= gh < 2 ^ 31.
Proof.
  intros H c n rws aw ah bgc. unfold run, create_storyboard_grid in H.
  destruct (bool_decide_reflect (images = [])) as [->|Hne]; [discriminate|].
  assert (Hc : 1 <= c) by apply valid_columns_pos.
  assert (Hn : 1 <= n).
  { subst n. destruct images; [contradiction | simpl; lia]. }
  assert (Hr : 1 <= rws) by (apply rows_pos; assumption).
  rewrite (bind_eq_ok _ _ _ _ _ (parse_bg_color_eq db bg [])) in H.
  fold c n in H.
  rewrite (bind_eq_ok _ _ _ _ _ (floordiv_eq (n + c - 1) c [] ltac:(lia))) in H.
  fold (rows n c) in H. fold rws in H.
  rewrite (bind_eq_ok _ _ _ _ _ (floordiv_eq _ c [] ltac:(lia))) in H.
  fold (available tw c padding) in H. fold aw in H.
  rewrite (bind_eq_ok _ _ _ _ _ (floordiv_eq (n + c - 1) c [] ltac:(lia))) in H.
  fold (rows n c) in H. fold rws in H.
  rewrite (bind_eq_ok _ _ _ _ _ (floordiv_eq _ rws [] ltac:(lia))) in H.
  fold (available th rws padding) in H. fold ah in H.
  apply bind_ok in H as (resized & l1 & Hres & H).
  apply resize_loop_ok in Hres as (rs & rcalls & -> & HF & -> & Hcalls).
  change ([] ++ rs) with rs in *.
  destruct rs as [|first rest].
  { inversion HF; subst. contradiction. }
  exists first, rest, rcalls.
  change ((first :: rest) !! 0%nat) with (Some first) in H. cbv beta iota in H.
  apply bind_ok in H as (canvas & l2 & Hnew1 & H).
  apply new_ok in Hnew1 as (-> & -> & Htw & Hth). cbn [fst snd] in Htw, Hth, H.
  apply bind_ok in H as (grid0 & l3 & Hnew2 & H).
  apply new_ok in Hnew2 as (-> & -> & Hgw & Hgh). cbn [fst snd] in Hgw, Hgh, H.
  rewrite (bind_eq_ok _ _ _ _ _ (modulo_eq n c _ ltac:(lia))) in H.
  fold (last_row_count n c) in H.
  rewrite (bind_eq_ok _ _ _ _ _
             (placement_loop c padding rws (last_row_count n c) (width first)
                (height first) _ ltac:(lia) _ _)) in H.
  unfold paste, bind, emit, ret in H. cbn [fst snd] in H.
  injection H as <- <-.
  split; [assumption|]. split; [assumption|]. split; [assumption|].
  split; [reflexivity|]. split; [rewrite <- !app_assoc; reflexivity|].
  unfold grid_extent. repeat split; lia.
Qed.

(** ** What the placement loop leaves in the grid *)

Lemma placed_width c p r l cw ch items grid :
  width (placed c p r l cw ch items grid) = width grid.
Proof. revert grid. induction items as [|it rest IH]; intros grid; simpl; [|rewrite IH]; reflexivity. Qed.

Lemma placed_height c p r l cw ch items grid :
  height (placed c p r l cw ch items grid) = height grid.
Proof. revert grid. induction items as [|it rest IH]; intros grid; simpl; [|rewrite IH]; reflexivity. Qed.

Lemma placed_mode c p r l cw ch items grid :
  mode (placed c p r l cw ch items grid) = mode grid.
Proof. revert grid. induction items as [|it rest IH]; intros grid; simpl; [|rewrite IH]; reflexivity. Qed.

Lemma placed_background c p r l cw ch items grid :
  background (placed c p r l cw ch items grid) = background grid.
Proof. revert grid. induction items as [|it rest IH]; intros grid; simpl; [|rewrite IH]; reflexivity. Qed.

Lemma placed_pastes c p r l cw ch items grid :
  pastes (placed c p r l cw ch items grid)
  = pastes grid ++ map (fun it : Z * Image => (it.2, (cell_x c p r l cw it.1, cell_y c p ch it.1))) items.
Proof.
  revert grid. induction items as [|it rest IH]; intros grid; simpl.
  - now rewrite app_nil_r.
  - rewrite IH. simpl. now rewrite <- app_assoc.
Qed.

Lemma placed_calls_are_pastes c p r l cw ch items grid :
  Forall (fun k => match k with CallPaste _ _ _ => True | _ => False end)
    (placed_calls c p r l cw ch items grid).
Proof.
  revert grid. induction items as [|it rest IH]; intros grid; simpl; constructor; auto.
Qed.

Lemma enumerate_from_lookup {A} (l : list A) :
  forall (k : Z) (i : nat),
    enumerate_from k l !! i = (fun x => (k + Z.of_nat i, x)) <$> (l !! i).
Proof.
  induction l as [|x r IH]; intros k i; [reflexivity|].
  destruct i as [|i]; simpl.
  - now rewrite Z.add_0_r.
  - rewrite IH. destruct (r !! i); simpl; [|reflexivity].
    do 2 f_equal. lia.
Qed.

(** [cell_x] is the default position plus the centring offset in a partial
    final row, and the default position anywhere else. *)
Lemma cell_x_spec n c padding cw i :
  1 <= c ->
  (n mod c <> 0 /\ in_last_row n c i ->
   cell_x c padding (rows n c) (last_row_count n c) cw i
   = default_x c padding cw i + centering_offset n c padding cw) /\
  (~ (n mod c <> 0 /\ in_last_row n c i) ->
   cell_x c padding (rows n c) (last_row_count n c) cw i = default_x c padding cw i).
Proof.
  intros Hc. unfold cell_x, default_x, centering_offset, in_last_row.
  assert (Hlast : (last_row_count n c <? c) = true <-> n mod c <> 0).
  { unfold last_row_count. pose proof (Z.mod_pos_bound n c ltac:(lia)).
    destruct (Z.eqb_spec (n mod c) 0); rewrite Z.ltb_lt; lia. }
  split.
  - intros [Hm Hrow]. apply Hlast in Hm. rewrite Hm.
    apply Z.eqb_eq in Hrow. now rewrite Hrow.
  - intros Hnot.
    destruct (Z.eqb_spec (i / c) (rows n c - 1)) as [E|E]; [|reflexivity].
    destruct (last_row_count n c <? c) eqn:El; [|reflexivity].
    exfalso. apply Hnot. split; [now apply Hlast | assumption].
Qed.

(** The calls to [Image.new] of a successful run. *)
Lemma create_new_calls db images bg columns padding tw th final calls m sz col :
  run (create_storyboard_grid db images bg columns padding (tw, th)) = (Ok final, calls) ->
  In (CallNew m sz col) calls ->
  m = "RGB"%string /\ col = bg_color_of db bg.
Proof.
  intros H Hin.
  apply create_ok in H as (first & rest & rcalls & _ & _ & Hres & H).
  cbv zeta in H. destruct H as (_ & -> & _).
  rewrite !in_app_iff in Hin. destruct Hin as [Hin|[Hin|[Hin|Hin]]].
  - rewrite Forall_forall in Hres. apply list_elem_of_In, Hres in Hin. contradiction.
  - simpl in Hin. destruct Hin as [[= <- <- <-]|[[= <- <- <-]|[]]]; now split.
  - pose proof (placed_calls_are_pastes (valid_columns columns) padding
                  (rows (Z.of_nat (length images)) (valid_columns columns))
                  (last_row_count (Z.of_nat (length images)) (valid_columns columns))
                  (width first) (height first) (enumerate_from 0 (first :: rest))
                  (Blank "RGB"
                     (grid_extent (valid_columns columns) (width first) padding)
                     (grid_extent (rows (Z.of_nat (length images)) (valid_columns columns))
                        (height first) padding) (ink (bg_color_of db bg)))) as HP.
    rewrite Forall_forall in HP. apply list_elem_of_In, HP in Hin. contradiction.
  - simpl in Hin. destruct Hin as [[=]|[]].
Qed.

Lemma filter_none {A} (f : A -> bool) (l : list A) :
  Forall (fun x => f x = false) l -> List.filter f l = [].
Proof.
  induction 1 as [|x r Hx _ IH]; simpl; [reflexivity|]. now rewrite Hx.
Qed.

(** The grid buffer of a successful run and what was pasted on it. *)
Lemma create_grid db images bg columns padding tw th final calls :
  run (create_storyboard_grid db images bg columns padding (tw, th)) = (Ok final, calls) ->
  let c := valid_columns columns in
  let n := Z.of_nat (length images) in
  let rws := rows n c in
  exists grid first rest,
    Forall2 (resized_as (available tw c padding) (available th rws padding))
      images (first :: rest) /\
    pastes final = [(grid, (centered tw (width grid), centered th (height grid)))] /\
    width grid = grid_extent c (width first) padding /\
    height grid = grid_extent rws (height first) padding /\
    background grid = Some (ink (bg_color_of db bg)) /\
    In (CallNew "RGB" (width grid, height grid) (bg_color_of db bg)) calls /\
    forall i : nat,
      pastes grid !! i
      = (fun img => (img, (cell_x c padding rws (last_row_count n c) (width first) (Z.of_nat i),
                           cell_y c padding (height first) (Z.of_nat i))))
          <$> ((first :: rest) !! i).
Proof.
  intros H c n rws.
  apply create_ok in H as (first & rest & rcalls & _ & HF & _ & H).
  cbv zeta in H. destruct H as (-> & -> & _).
  fold c n rws.
  exists (placed c padding rws (last_row_count n c) (width first) (height first)
            (enumerate_from 0 (first :: rest))
            (Blank "RGB" (grid_extent c (width first) padding)
               (grid_extent rws (height first) padding) (ink (bg_color_of db bg)))), first, rest.
  split; [exact HF|].
  rewrite placed_width, placed_height, placed_background, placed_pastes.
  split; [reflexivity|]. do 3 (split; [reflexivity|]). split.
  - rewrite !in_app_iff. right. left. right. left. reflexivity.
  - intros i. cbn [pastes app]. rewrite list_lookup_fmap, enumerate_from_lookup.
    destruct ((first :: rest) !! i); reflexivity.
Qed.

(** ** Which strings are read as a colour *)

Lemma in_all_ascii (c : ascii) : In c all_ascii.
Proof.
  unfold all_ascii. rewrite <- (ascii_nat_embedding c).
  apply in_map, in_seq. pose proof (nat_ascii_bounded c). lia.
Qed.

Lemma forallb_all_ascii (f : ascii -> bool) :
  forallb f all_ascii = true -> forall c, f c = true.
Proof. intros H c. rewrite forallb_forall in H. apply H, in_all_ascii. Qed.

Lemma check_1_all : forallb check_1 all_ascii = true.
Proof. vm_compute. reflexivity. Qed.

Lemma check_2_all : forallb (fun a => forallb (check_2 a) all_ascii) all_ascii = true.
Proof. vm_compute. reflexivity. Qed.

Lemma long_rejects_1 (a : ascii) :
  literal_char a = false -> long_from_string (String a EmptyString) = None.
Proof.
  intros Ha. pose proof (forallb_all_ascii _ check_1_all a) as H.
  unfold check_1 in H.
  destruct (long_from_string (String a EmptyString)); [congruence | reflexivity].
Qed.

Lemma long_rejects_2 (a b : ascii) :
  literal_char a = false \/ literal_char b = false ->
  long_from_string (String a (String b EmptyString)) = None.
Proof.
  intros Hab. pose proof (forallb_all_ascii _ check_2_all a) as H.
  cbv beta in H. pose proof (forallb_all_ascii _ H b) as H2.
  unfold check_2 in H2.
  destruct (long_from_string (String a (String b EmptyString))); [|reflexivity].
  apply andb_prop in H2 as [H1 H2]. destruct Hab; congruence.
Qed.

(** The first byte of the buffer made of a string that is not ASCII. *)
Lemma to_ascii_cons (db : unicode_db) (c : N) (r : str) :
  exists x t,
    to_ascii db (c :: r) = String x t /\
    ((x = "?"%char /\ t = EmptyString) \/ t = to_ascii db r) /\
    (literal db c = false -> literal_char x = false).
Proof.
  simpl. unfold literal.
  destruct (N.ltb_spec c 127) as [L|L].
  - eexists _, _. split; [reflexivity|]. split; [now right|].
    destruct (N.ltb_spec c 128); [auto | lia].
  - destruct (N.leb_spec 128 c) as [G|G]; simpl.
    + destruct (N.ltb_spec c 128); [lia|].
      destruct (isspace db c).
      * eexists _, _. split; [reflexivity|]. split; [now right | discriminate].
      * destruct (todecimal db c) as [d|]; simpl.
        -- eexists _, _. split; [reflexivity|]. split; [now right | discriminate].
        -- eexists _, _. split; [reflexivity|]. split; [left; now split | reflexivity].
    + eexists _, _. split; [reflexivity|]. split; [left; now split | reflexivity].
Qed.

(** A string of at most two characters with a character that is no
    [literal] is no base-16 literal. *)
Lemma int16_rejects (db : unicode_db) (s : str) (c : N) :
  (length s <= 2)%nat -> In c s -> literal db c = false -> int16 db s = None.
Proof.
  intros Hlen Hin Hc. unfold int16, transform.
  destruct (is_ascii s) eqn:Ea.
  - (* an ASCII string is its own buffer *)
    assert (Hlit : forall x, In x s -> literal db x = literal_char (ascii_of_N x)).
    { intros x Hx. unfold is_ascii in Ea. rewrite forallb_forall in Ea.
      unfold literal. now rewrite (Ea x Hx). }
    rewrite (Hlit c Hin) in Hc.
    destruct s as [|a [|b [|? ?]]]; simpl in Hlen, Hin; try lia; try contradiction.
    + destruct Hin as [->|[]]. now apply long_rejects_1.
    + unfold as_string. simpl. apply long_rejects_2.
      destruct Hin as [->|[->|[]]]; [now left | now right].
  - (* the buffer made by the transformation *)
    destruct s as [|a [|b [|? ?]]]; simpl in Hlen, Hin; try lia; try contradiction.
    + destruct Hin as [->|[]].
      destruct (to_ascii_cons db c []) as (x & t & -> & Ht & Hx).
      destruct Ht as [[_ ->]| ->]; apply long_rejects_1; auto.
    + destruct (to_ascii_cons db a [b]) as (x & t & -> & Ht & Hx).
      destruct Ht as [[-> ->]| ->]; [reflexivity|].
      destruct (to_ascii_cons db b []) as (y & t' & -> & Ht' & Hy).
      assert (Et : t' = EmptyString) by (destruct Ht' as [[_ ->]| ->]; reflexivity).
      subst t'. apply long_rejects_2.
      destruct Hin as [->|[->|[]]]; [left | right]; auto.
Qed.

(** A slice whose end does not pass the end of a prefix is a slice of the
    prefix. *)
Lemma slice_take (bg : str) (i j k : nat) :
  (j <= k)%nat -> slice (take k bg) i j = slice bg i j.
Proof.
  intros Hjk. unfold slice. destruct (Nat.le_gt_cases i j) as [Hij|Hij].
  - rewrite !take_drop_commute, take_take. do 2 f_equal. lia.
  - replace (j - i)%nat with 0%nat by lia. reflexivity.
Qed.

(** A character at one of the positions 1 to 6 that is no [literal]
    makes the string unreadable. *)
Lemma junk_unparsable (db : unicode_db) (bg : str) (i : nat) (c : N) :
  (1 <= i <= 6)%nat -> bg !! i = Some c -> literal db c = false ->
  unparsable db bg.
Proof.
  intros Hi Hget Hc.
  assert (Hs : forall k, (k <= i < k + 2)%nat -> int16 db (slice bg k (k + 2)) = None).
  { intros k Hk. apply (int16_rejects db _ c); [| |exact Hc].
    - unfold slice. rewrite length_take. lia.
    - apply list_elem_of_In, (list_elem_of_lookup_2 _ (i - k)).
      unfold slice. rewrite lookup_take_lt by lia. rewrite lookup_drop.
      replace (k + (i - k))%nat with i by lia. exact Hget. }
  unfold unparsable. right.
  destruct (Nat.le_gt_cases i 2); [left; apply (Hs 1%nat); lia|].
  destruct (Nat.le_gt_cases i 4); [right; left; apply (Hs 3%nat); lia|].
  right. right. apply (Hs 5%nat). lia.
Qed.

(** A string of fewer than six characters has an empty slice [5:7]. *)
Lemma short_unparsable (db : unicode_db) (bg : str) :
  (length bg < 6)%nat -> unparsable db bg.
Proof.
  intros H. right. right. right. unfold slice.
  rewrite drop_ge by lia. reflexivity.
Qed.

Lemma bg_color_of_unparsable db bg : unparsable db bg -> bg_color_of db bg = black.
Proof.
  unfold unparsable, bg_color_of, run, parse_bg_color, try_except, int16_or_raise.
  intros H. destruct (startswith_hash bg); [|reflexivity].
  unfold bind, ret, raise.
  destruct (int16 db (slice bg 1 3)); [|reflexivity].
  destruct (int16 db (slice bg 3 5)); [|reflexivity].
  destruct (int16 db (slice bg 5 7)); [|reflexivity].
  destruct H as [H|[H|[H|H]]]; discriminate.
Qed.

(** A string whose three slices are base-16 literals is read as them. *)
Lemma bg_color_of_parsed db bg r g b :
  startswith_hash bg = true ->
  int16 db (slice bg 1 3) = Some r -> int16 db (slice bg 3 5) = Some g ->
  int16 db (slice bg 5 7) = Some b ->
  bg_color_of db bg = (r, g, b).
Proof.
  intros Hs Hr Hg Hb.
  unfold bg_color_of, run, parse_bg_color, try_except, int16_or_raise.
  rewrite Hs. unfold bind, ret. now rewrite Hr, Hg, Hb.
Qed.

(** Only the first seven characters are read. *)
Lemma bg_color_of_take db bg : bg_color_of db (take 7 bg) = bg_color_of db bg.
Proof.
  unfold bg_color_of, run, parse_bg_color, try_except, int16_or_raise.
  rewrite !slice_take by lia.
  replace (startswith_hash (take 7 bg)) with (startswith_hash bg); [reflexivity|].
  now destruct bg.
Qed.

(** ** Binary64 rounding, in integers *)

Lemma digits2_pos_bounds (p : positive) :
  2 ^ (Z.pos (digits2_pos p) - 1) <= Z.pos p < 2 ^ Z.pos (digits2_pos p).
Proof.
  induction p as [p IH|p IH|]; simpl digits2_pos.
  - rewrite Pos2Z.inj_succ. replace (Z.succ (Z.pos (digits2_pos p)) - 1) with (Z.pos (digits2_pos p)) by lia.
    rewrite Z.pow_succ_r by lia.
    replace (2 ^ Z.pos (digits2_pos p)) with (2 * 2 ^ (Z.pos (digits2_pos p) - 1)) in *.
    + lia.
    + rewrite <- Z.pow_succ_r by lia. f_equal. lia.
  - rewrite Pos2Z.inj_succ. replace (Z.succ (Z.pos (digits2_pos p)) - 1) with (Z.pos (digits2_pos p)) by lia.
    rewrite Z.pow_succ_r by lia.
    replace (2 ^ Z.pos (digits2_pos p)) with (2 * 2 ^ (Z.pos (digits2_pos p) - 1)) in *.
    + lia.
    + rewrite <- Z.pow_succ_r by lia. f_equal. lia.
  - simpl. lia.
Qed.

Lemma digits2_pos_unique (p : positive) (d : Z) :
  2 ^ (d - 1) <= Z.pos p < 2 ^ d -> Z.pos (digits2_pos p) = d.
Proof.
  intros [Hlo Hhi]. pose proof (digits2_pos_bounds p) as [Blo Bhi].
  assert (0 < d).
  { destruct (Z.lt_trichotomy d 0) as [Hd|[->|Hd]]; [|simpl in Hhi; lia|lia].
    rewrite Z.pow_neg_r in Hhi by lia. lia. }
  destruct (Z.lt_trichotomy (Z.pos (digits2_pos p)) d) as [Hlt|[E|Hgt]]; [|exact E|].
  - assert (2 ^ Z.pos (digits2_pos p) <= 2 ^ (d - 1)) by (apply Z.pow_le_mono_r; lia). lia.
  - assert (2 ^ d <= 2 ^ (Z.pos (digits2_pos p) - 1)) by (apply Z.pow_le_mono_r; lia). lia.
Qed.

(** Case analysis on every integer comparison of the goal. *)
Ltac zbool_step :=
  match goal with
  | |- context [Z.compare ?x ?y] => destruct (Z.compare_spec x y)
  | |- context [Z.eqb ?x ?y] => destruct (Z.eqb_spec x y)
  | |- context [?x <=? ?y] => destruct (Z.leb_spec x y)
  | |- context [?x <? ?y] => destruct (Z.ltb_spec x y)
  end.

Ltac zbool := repeat zbool_step; simpl; try reflexivity; try lia.

Lemma twice_mod (N D : Z) : 0 < D -> (2 * N) mod D = (2 * (N mod D)) mod D.
Proof.
  intros HD. rewrite (Z.div_mod N D) at 1 by lia.
  replace (2 * (D * (N / D) + N mod D)) with (2 * (N mod D) + (2 * (N / D)) * D) by lia.
  now rewrite Z.mod_add by lia.
Qed.

Lemma sticky_mod (r D : Z) :
  0 <= r < D -> ((2 * r) mod D =? 0) = (r =? 0) || (2 * r =? D).
Proof.
  intros Hr. destruct (Z.lt_ge_cases (2 * r) D) as [L|L].
  - rewrite Z.mod_small by lia. zbool.
  - replace (2 * r) with ((2 * r - D) + 1 * D) at 1 by lia.
    rewrite Z.mod_add by lia. rewrite Z.mod_small by lia. zbool.
Qed.

Lemma holds_of_loc (N D : Z) :
  0 < D -> 0 <= N -> holds (shr_record_of_loc (N / D) (loc_of N D)) N D.
Proof.
  intros HD HN. unfold holds, loc_of.
  pose proof (Z.mod_pos_bound N D HD) as Hr.
  rewrite twice_mod, sticky_mod by lia.
  repeat split; try lia; zbool.
Qed.

Lemma shr_1_fields (m : Z) (r s : bool) :
  0 <= m ->
  shr_1 {| shr_m := m; shr_r := r; shr_s := s |}
  = {| shr_m := m / 2; shr_r := (m mod 2 =? 1); shr_s := r || s |}.
Proof.
  intros Hm. destruct m as [|p|p]; [reflexivity| |lia].
  destruct p as [p|p|]; simpl shr_1.
  - rewrite Pos2Z.inj_xI.
    rewrite <- (Z.div_unique (2 * Z.pos p + 1) 2 (Z.pos p) 1) by lia.
    rewrite <- (Z.mod_unique (2 * Z.pos p + 1) 2 (Z.pos p) 1) by lia. reflexivity.
  - rewrite Pos2Z.inj_xO.
    rewrite <- (Z.div_unique (2 * Z.pos p) 2 (Z.pos p) 0) by lia.
    rewrite <- (Z.mod_unique (2 * Z.pos p) 2 (Z.pos p) 0) by lia. reflexivity.
  - reflexivity.
Qed.

Lemma holds_shr_1 mrs N D : holds mrs N D -> holds (shr_1 mrs) N (2 * D).
Proof.
  intros (HD & HN & Hm & Hr & Hs).
  pose proof (Z.mod_pos_bound N D HD) as Bd.
  pose proof (Z.div_pos N D HN HD) as Hq.
  rewrite twice_mod, sticky_mod in Hs by lia.
  pose proof (Z.div_mod (N / D) 2 ltac:(lia)) as Hq2.
  pose proof (Z.mod_pos_bound (N / D) 2 ltac:(lia)) as Bq2.
  assert (Hdiv : N / (2 * D) = N / D / 2).
  { rewrite (Z.mul_comm 2 D). now rewrite Z.div_div by lia. }
  assert (Hmod : N mod (2 * D) = N mod D + D * ((N / D) mod 2)).
  { pose proof (Z.div_mod N (2 * D) ltac:(lia)) as H2.
    pose proof (Z.div_mod N D ltac:(lia)) as H1. rewrite Hdiv in H2.
    revert H1 H2 Hq2. generalize (N mod (2 * D)) (N mod D) (N / D).
    intros X r q. generalize (q / 2) (q mod 2). intros q2 r2 H1 H2 Hq2. subst q. lia. }
  assert (Hsticky : orb (shr_r mrs) (shr_s mrs) = negb ((2 * N) mod (2 * D) =? 0)).
  { rewrite Z.mul_mod_distr_l by lia. rewrite Hr, Hs. zbool. }
  assert (Hround : (shr_m mrs mod 2 =? 1) = (2 * D <=? 2 * (N mod (2 * D)))).
  { rewrite Hmod, Hm. zbool; nia. }
  destruct mrs as [m r s]. simpl in Hm, Hr, Hs, Hsticky, Hround.
  rewrite shr_1_fields by lia.
  unfold holds. simpl. rewrite Hdiv, <- Hm, Hround, Hsticky.
  repeat split; lia.
Qed.

Lemma holds_iter_shr_1 (p : positive) :
  forall mrs N D, holds mrs N D -> holds (SpecFloat.iter_pos shr_1 p mrs) N (D * 2 ^ Z.pos p).
Proof.
  induction p as [p IH|p IH|]; intros mrs N D H; simpl SpecFloat.iter_pos.
  - apply holds_shr_1 in H. apply IH in H. apply IH in H.
    replace (D * 2 ^ Z.pos p~1) with (2 * D * 2 ^ Z.pos p * 2 ^ Z.pos p); [exact H|].
    replace (Z.pos p~1) with (Z.pos p + Z.pos p + 1) by lia.
    rewrite !Z.pow_add_r by lia. rewrite Z.pow_1_r. ring.
  - apply IH in H. apply IH in H.
    replace (D * 2 ^ Z.pos p~0) with (D * 2 ^ Z.pos p * 2 ^ Z.pos p); [exact H|].
    replace (Z.pos p~0) with (Z.pos p + Z.pos p) by lia.
    rewrite !Z.pow_add_r by lia. ring.
  - apply holds_shr_1 in H. replace (D * 2 ^ 1) with (2 * D) by (rewrite Z.pow_1_r; ring). exact H.
Qed.

(** Shifting right by [k >= 0] bits. *)
Lemma holds_shr mrs e k N D :
  0 <= k -> holds mrs N D ->
  holds (fst (shr mrs e k)) N (D * 2 ^ k) /\ snd (shr mrs e k) = e + k.
Proof.
  intros Hk H. destruct k as [|p|p]; [| |lia]; simpl.
  - rewrite Z.mul_1_r, Z.add_0_r. now split.
  - split; [|reflexivity]. now apply holds_iter_shr_1.
Qed.

(** Rounding to nearest, ties to even, moves by at most half a unit. *)
Lemma round_nearest_even_holds mrs N D :
  holds mrs N D ->
  let m := round_nearest_even (shr_m mrs) (loc_of_shr_record mrs) in
  N / D <= m <= N / D + 1 /\ Z.abs (2 * m * D - 2 * N) <= D.
Proof.
  intros (HD & HN & Hm & Hr & Hs).
  pose proof (Z.mod_pos_bound N D HD) as Bd.
  pose proof (Z.div_mod N D ltac:(lia)) as Hdm.
  rewrite twice_mod, sticky_mod in Hs by lia.
  destruct mrs as [m r s]. simpl in *. subst m.
  destruct r, s; simpl; symmetry in Hr; symmetry in Hs.
  - apply Z.leb_le in Hr. split; [lia|]. nia.
  - apply Z.leb_le in Hr. apply negb_false_iff, orb_true_iff in Hs.
    assert (2 * (N mod D) = D) by (destruct Hs as [Hs|Hs]; apply Z.eqb_eq in Hs; lia).
    destruct (Z.even (N / D)); split; try lia; nia.
  - apply Z.leb_gt in Hr. split; [lia|]. nia.
  - apply Z.leb_gt in Hr. split; [lia|]. nia.
Qed.

Lemma Zdigits2_unique (m d : Z) :
  0 < m -> 2 ^ (d - 1) <= m < 2 ^ d -> Zdigits2 m = d.
Proof.
  intros Hm H. destruct m as [|p|p]; try lia. simpl. now apply digits2_pos_unique.
Qed.

Lemma Zdigits2_bounds (m : Z) :
  0 < m -> 2 ^ (Zdigits2 m - 1) <= m < 2 ^ Zdigits2 m.
Proof.
  intros Hm. destruct m as [|p|p]; try lia. simpl. apply digits2_pos_bounds.
Qed.

Lemma fexp_normal (e : Z) : -1021 <= e -> fexp prec emax e = e - 53.
Proof. intros H. unfold fexp, SpecFloat.emin, prec, emax. lia. Qed.

(** Rounding [N/D * 2^ex] when the quotient has at least 53 bits and the
    result is a normal number: the result is finite, has a 53-bit
    mantissa, and is within half a unit in the last place of [N/D * 2^ex]. *)
Lemma binary_round_aux_normal (s : bool) (N D ex : Z) :
  0 < D -> 0 <= N ->
  53 <= Zdigits2 (N / D) ->
  -1021 <= Zdigits2 (N / D) + ex ->
  Zdigits2 (N / D) + ex <= 1023 ->
  exists m e,
    binary_round_aux prec emax s (N / D) ex (loc_of N D) = S754_finite s m e /\
    2 ^ 52 <= Z.pos m < 2 ^ 53 /\
    Zdigits2 (N / D) + ex - 53 <= e <= Zdigits2 (N / D) + ex - 52 /\
    Z.abs (2 * Z.pos m * (2 ^ (e - ex) * D) - 2 * N) <= 2 ^ (e - ex) * D.
Proof.
  intros HD HN Hd Hlo Hhi.
  set (mx := N / D) in *. set (d := Zdigits2 mx) in *.
  assert (Hmx : 0 < mx).
  { destruct mx as [|p|p] eqn:E; [simpl in d; lia|lia|].
    pose proof (Z.div_pos N D HN HD). fold mx in H. lia. }
  pose proof (Zdigits2_bounds mx Hmx) as Bmx. fold d in Bmx.
  unfold binary_round_aux, shr_fexp. fold d.
  rewrite fexp_normal by lia.
  replace (d + ex - 53 - ex) with (d - 53) by lia.
  pose proof (holds_shr (shr_record_of_loc mx (loc_of N D)) ex (d - 53) N D
                ltac:(lia) (holds_of_loc N D HD HN)) as [Hh He].
  destruct (shr (shr_record_of_loc mx (loc_of N D)) ex (d - 53)) as [mrs' e'].
  simpl in Hh, He. subst e'.
  set (k := d - 53) in *.
  set (D' := D * 2 ^ k) in *.
  assert (Hpk : 0 < 2 ^ k) by (apply Z.pow_pos_nonneg; lia).
  assert (HD' : 0 < D') by (unfold D'; nia).
  pose proof (round_nearest_even_holds mrs' N D' Hh) as [Brne Hrne].
  cbv zeta in Brne, Hrne.
  set (mr := round_nearest_even (shr_m mrs') (loc_of_shr_record mrs')) in *.
  assert (Hm' : N / D' = mx / 2 ^ k).
  { unfold D', mx. now rewrite Z.div_div by lia. }
  assert (Bm' : 2 ^ 52 <= N / D' < 2 ^ 53).
  { rewrite Hm'. split.
    - apply Z.div_le_lower_bound; [lia|].
      rewrite <- Z.pow_add_r by lia. replace (k + 52) with (d - 1) by lia. lia.
    - apply Z.div_lt_upper_bound; [lia|].
      rewrite <- Z.pow_add_r by lia. replace (k + 53) with d by lia. lia. }
  assert (Hmr : 2 ^ 52 <= mr <= 2 ^ 53) by lia.
  destruct (Z.eq_dec mr (2 ^ 53)) as [E|NE].
  - (* the rounding carried into a 54th bit *)
    rewrite E.
    replace (Zdigits2 (2 ^ 53)) with 54 by reflexivity.
    rewrite fexp_normal by lia.
    replace (54 + (ex + k) - 53 - (ex + k)) with 1 by lia.
    exists (Z.to_pos (2 ^ 52)), (ex + k + 1).
    split; [|split; [|split]].
    + change (shr (shr_record_of_loc (2 ^ 53) loc_Exact) (ex + k) 1)
        with ({| shr_m := 2 ^ 52; shr_r := false; shr_s := false |}, ex + k + 1).
      cbn [shr_m]. change (2 ^ 52) with (Z.pos (Z.to_pos (2 ^ 52))) at 1.
      cbv iota. destruct (Z.leb_spec (ex + k + 1) (emax - prec)); [reflexivity|].
      unfold emax, prec in *. lia.
    + rewrite Z2Pos.id by lia. lia.
    + lia.
    + rewrite Z2Pos.id by lia.
      replace (ex + k + 1 - ex) with (k + 1) by lia.
      rewrite Z.pow_add_r, Z.pow_1_r by lia.
      rewrite E in Hrne. unfold D' in Hrne.
      replace (2 * 2 ^ 52 * (2 ^ k * 2 * D)) with (2 * 2 ^ 53 * (D * 2 ^ k)).
      * lia.
      * change (2 ^ 53) with (2 * 2 ^ 52). ring.
  - (* the rounded mantissa still has 53 bits *)
    assert (Hd53 : Zdigits2 mr = 53) by (apply Zdigits2_unique; simpl; lia).
    rewrite Hd53. rewrite fexp_normal by lia.
    replace (53 + (ex + k) - 53 - (ex + k)) with 0 by lia.
    exists (Z.to_pos mr), (ex + k).
    split; [|split; [|split]].
    + cbn [shr fst snd shr_record_of_loc shr_m].
      destruct mr as [|p|p] eqn:Emr; try lia.
      destruct (Z.leb_spec (ex + k) (emax - prec)); [reflexivity|].
      unfold emax, prec in *. lia.
    + rewrite Z2Pos.id by lia. lia.
    + lia.
    + rewrite Z2Pos.id by lia.
      replace (ex + k - ex) with k by lia.
      unfold D' in Hrne. rewrite (Z.mul_comm (2 ^ k) D). exact Hrne.
Qed.

(** ** Binary64 rounding, in real numbers *)

Lemma bpow_pos (e : Z) : (0 < bpow e)%R.
Proof. unfold bpow. apply powerRZ_lt. lra. Qed.

Lemma bpow_add (a b : Z) : bpow (a + b) = (bpow a * bpow b)%R.
Proof. unfold bpow. apply powerRZ_add. lra. Qed.

Lemma bpow_IZR (k : Z) : 0 <= k -> IZR (2 ^ k) = bpow k.
Proof.
  intros Hk. unfold bpow. destruct k as [|p|p]; [reflexivity| |lia].
  change (2 ^ Z.pos p) with (Z.pow_pos 2 p). apply Zpower_pos_powerRZ.
Qed.

Lemma bpow_sub (a b : Z) : bpow (a - b) = (bpow a / bpow b)%R.
Proof.
  replace a with ((a - b) + b) at 2 by lia. rewrite bpow_add.
  pose proof (bpow_pos b). field. lra.
Qed.

(** The real-number reading of [binary_round_aux_normal]: the result is
    within half a unit in the last place, hence within a relative error
    [u], of the exact value. *)
Lemma round_real (s : bool) (N D ex : Z) :
  0 < D -> 0 <= N ->
  53 <= Zdigits2 (N / D) ->
  -1021 <= Zdigits2 (N / D) + ex ->
  Zdigits2 (N / D) + ex <= 1023 ->
  exists m e,
    binary_round_aux prec emax s (N / D) ex (loc_of N D) = S754_finite s m e /\
    2 ^ 52 <= Z.pos m < 2 ^ 53 /\
    Zdigits2 (N / D) + ex - 53 <= e <= Zdigits2 (N / D) + ex - 52 /\
    let x := (IZR N / IZR D * bpow ex)%R in
    let v := (IZR (Z.pos m) * bpow e)%R in
    ((1 - u) * v <= x <= (1 + u) * v)%R.
Proof.
  intros HD HN Hd Hlo Hhi.
  destruct (binary_round_aux_normal s N D ex HD HN Hd Hlo Hhi)
    as (m & e & Heq & Bm & Be & Habs).
  exists m, e. do 3 (split; [assumption|]). cbv zeta.
  assert (Hk : 0 <= e - ex) by lia.
  set (P := 2 ^ (e - ex)) in *.
  assert (HP : 0 < P) by (apply Z.pow_pos_nonneg; lia).
  assert (HPr : IZR P = (bpow e / bpow ex)%R).
  { unfold P. rewrite bpow_IZR by lia. apply bpow_sub. }
  pose proof (bpow_pos e) as He. pose proof (bpow_pos ex) as Hex.
  assert (HDr : (0 < IZR D)%R) by (apply IZR_lt; lia).
  assert (HNr : (0 <= IZR N)%R) by (apply IZR_le; lia).
  assert (Hmr : (IZR (2 ^ 52) <= IZR (Z.pos m))%R) by (apply IZR_le; lia).
  apply Z.abs_le in Habs. destruct Habs as [Hl Hr].
  apply IZR_le in Hl, Hr.
  rewrite opp_IZR in Hl.
  rewrite minus_IZR, !mult_IZR in Hl. rewrite minus_IZR, !mult_IZR in Hr.
  rewrite HPr in Hl, Hr.
  set (M := IZR (Z.pos m)) in *. set (n := IZR N) in *. set (dd := IZR D) in *.
  set (be := bpow e) in *. set (bx := bpow ex) in *.
  (* |2 M (be/bx) dd - 2 n| <= (be/bx) dd *)
  assert (E1 : (n / dd * bx = (2 * n) * (bx / (2 * dd)))%R) by (field; lra).
  assert (Hq : (0 < bx / (2 * dd))%R) by (apply Rdiv_lt_0_compat; lra).
  assert (H1 : ((2 * M * (be / bx * dd) - 2 * n) * (bx / (2 * dd)) <= be / bx * dd * (bx / (2 * dd)))%R)
    by (apply Rmult_le_compat_r; [apply Rlt_le, Hq | exact Hr]).
  assert (H2 : (- (be / bx * dd) * (bx / (2 * dd)) <= (2 * M * (be / bx * dd) - 2 * n) * (bx / (2 * dd)))%R)
    by (apply Rmult_le_compat_r; [apply Rlt_le, Hq | exact Hl]).
  replace ((2 * M * (be / bx * dd) - 2 * n) * (bx / (2 * dd)))%R
    with (M * be - n / dd * bx)%R in H1, H2 by (field; lra).
  replace (be / bx * dd * (bx / (2 * dd)))%R with (be / 2)%R in H1 by (field; lra).
  replace (- (be / bx * dd) * (bx / (2 * dd)))%R with (- (be / 2))%R in H2 by (field; lra).
  assert (Hu : (be / 2 <= u * (M * be))%R).
  { unfold u. change (2 ^ 53) with (2 * 2 ^ 52). rewrite mult_IZR.
    assert (0 < IZR (2 ^ 52))%R by (apply IZR_lt; reflexivity).
    replace (/ (2 * IZR (2 ^ 52)) * (M * be))%R with (be / 2 * (M / IZR (2 ^ 52)))%R by (field; lra).
    rewrite <- (Rmult_1_r (be / 2)) at 1.
    apply Rmult_le_compat_l; [lra|].
    apply Rmult_le_reg_r with (IZR (2 ^ 52)); [lra|].
    replace (M / IZR (2 ^ 52) * IZR (2 ^ 52))%R with M by (field; lra). lra. }
  lra.
Qed.

Lemma new_location_loc_of (N D : Z) :
  0 < D -> new_location D (N mod D) = loc_of N D.
Proof.
  intros HD. pose proof (Z.mod_pos_bound N D HD) as Hr.
  unfold new_location, new_location_even, new_location_odd, loc_of.
  destruct (Z.even D) eqn:Ev.
  - reflexivity.
  - destruct (Z.eqb_spec (N mod D) 0); [reflexivity|]. f_equal.
    assert (Hodd : Z.odd D = true) by (rewrite <- Z.negb_even, Ev; reflexivity).
    apply Z.odd_spec in Hodd. destruct Hodd as [k Hk].
    destruct (Z.compare_spec (2 * (N mod D) + 1) D);
      destruct (Z.compare_spec (2 * (N mod D)) D); try reflexivity; lia.
Qed.

Lemma div_eucl_eq (a b : Z) : Z.div_eucl a b = (a / b, a mod b).
Proof. unfold Z.div, Z.modulo. now destruct (Z.div_eucl a b). Qed.

Lemma iter_xO (p k : positive) : Z.pos (Pos.iter xO p k) = Z.pos p * 2 ^ Z.pos k.
Proof.
  induction k as [|k IH] using Pos.peano_ind.
  - simpl. lia.
  - rewrite Pos.iter_succ. rewrite Pos2Z.inj_xO, IH, Pos2Z.inj_succ, Z.pow_succ_r by lia. ring.
Qed.

Lemma shl_align_spec (p : positive) (ex ex' : Z) :
  ex' <= ex ->
  exists m, shl_align p ex ex' = (m, ex') /\ Z.pos m = Z.pos p * 2 ^ (ex - ex').
Proof.
  intros H. unfold shl_align.
  destruct (ex' - ex) as [|k|k] eqn:E; try lia.
  - assert (ex' = ex) by lia. subst ex'. exists p. rewrite Z.sub_diag. split; [reflexivity|lia].
  - exists (Pos.iter xO p k). split; [reflexivity|].
    rewrite iter_xO. do 2 f_equal. lia.
Qed.

Lemma binary_round_aux_exact (s : bool) (m : positive) (e : Z) :
  Z.pos (digits2_pos m) = 53 -> -1074 <= e <= 971 ->
  binary_round_aux prec emax s (Z.pos m) e loc_Exact = S754_finite s m e.
Proof.
  intros Hd He. unfold binary_round_aux, shr_fexp. simpl Zdigits2. rewrite Hd.
  rewrite fexp_normal by lia.
  replace (53 + e - 53 - e) with 0 by lia. cbn.
  rewrite Hd. rewrite fexp_normal by lia.
  replace (53 + e - 53 - e) with 0 by lia. cbn.
  destruct (Z.leb_spec e (emax - prec)); [reflexivity|]. unfold emax, prec in *. lia.
Qed.

(** A mantissa below [2^53] is normalised without rounding. *)
Lemma binary_round_exact (s : bool) (p : positive) :
  Z.pos p < 2 ^ 53 ->
  exists m e,
    binary_round prec emax s p 0 = S754_finite s m e /\
    2 ^ 52 <= Z.pos m < 2 ^ 53 /\ -52 <= e <= 0 /\
    Z.pos m = Z.pos p * 2 ^ (- e).
Proof.
  intros Hz. unfold binary_round.
  pose proof (digits2_pos_bounds p) as Bp.
  set (d := Z.pos (digits2_pos p)) in *.
  assert (Hd : 1 <= d <= 53).
  { split; [unfold d; lia|].
    destruct (Z.lt_ge_cases 53 d) as [L|L]; [|lia].
    assert (2 ^ 53 <= 2 ^ (d - 1)) by (apply Z.pow_le_mono_r; lia). lia. }
  rewrite Z.add_0_r. rewrite fexp_normal by lia.
  destruct (shl_align_spec p 0 (d - 53) ltac:(lia)) as (m & -> & Hm).
  replace (0 - (d - 53)) with (53 - d) in Hm by lia.
  assert (Bm : 2 ^ 52 <= Z.pos m < 2 ^ 53).
  { rewrite Hm.
    assert (E52 : 2 ^ 52 = 2 ^ (d - 1) * 2 ^ (53 - d))
      by (rewrite <- Z.pow_add_r by lia; f_equal; lia).
    assert (E53 : 2 ^ 53 = 2 ^ d * 2 ^ (53 - d))
      by (rewrite <- Z.pow_add_r by lia; f_equal; lia).
    assert (0 < 2 ^ (53 - d)) by (apply Z.pow_pos_nonneg; lia).
    rewrite E52, E53.
    split; [apply Z.mul_le_mono_nonneg_r | apply Z.mul_lt_mono_pos_r]; lia. }
  rewrite binary_round_aux_exact; [| apply digits2_pos_unique; simpl; lia | lia].
  exists m, (d - 53). split; [reflexivity|]. split; [exact Bm|]. split; [lia|].
  rewrite Hm. do 2 f_equal. lia.
Qed.

(** An integer below [2^53] converts to a float without rounding. *)
Lemma of_int_exact (z : Z) :
  0 < z < 2 ^ 53 ->
  exists m e,
    of_int z = S754_finite false m e /\
    2 ^ 52 <= Z.pos m < 2 ^ 53 /\ -52 <= e <= 0 /\
    Z.pos m = z * 2 ^ (- e).
Proof.
  intros Hz. destruct z as [|p|p]; try lia.
  apply (binary_round_exact false p). lia.
Qed.

(** The same for a negative integer above [-2^53]. *)
Lemma of_int_exact_neg (z : Z) :
  - 2 ^ 53 < z < 0 ->
  exists m e,
    of_int z = S754_finite true m e /\
    2 ^ 52 <= Z.pos m < 2 ^ 53 /\ -52 <= e <= 0.
Proof.
  intros Hz. destruct z as [|p|p]; try lia.
  destruct (binary_round_exact true p ltac:(lia)) as (m & e & H & Bm & Be & _).
  exists m, e. auto.
Qed.

Lemma of_int_B2R (z : Z) (m : positive) (e : Z) :
  of_int z = S754_finite false m e -> e <= 0 -> Z.pos m = z * 2 ^ (- e) ->
  B2R (of_int z) = IZR z.
Proof.
  intros -> He Hm. simpl. rewrite Hm, mult_IZR, bpow_IZR by lia.
  rewrite Rmult_1_l, Rmult_assoc, <- bpow_add.
  replace (- e + e) with 0 by lia. unfold bpow. simpl. lra.
Qed.

(** Division of two finite floats whose quotient is a normal number. *)
Lemma SFdiv_finite (s1 s2 : bool) (m1 m2 : positive) (e1 e2 : Z) :
  let d1 := Z.pos (digits2_pos m1) in
  let d2 := Z.pos (digits2_pos m2) in
  d1 - d2 <= 53 ->
  -1021 <= d1 + e1 - (d2 + e2) ->
  d1 + e1 - (d2 + e2) <= 1022 ->
  exists m e,
    SFdiv prec emax (S754_finite s1 m1 e1) (S754_finite s2 m2 e2)
    = S754_finite (xorb s1 s2) m e /\
    2 ^ 52 <= Z.pos m < 2 ^ 53 /\
    d1 + e1 - (d2 + e2) - 53 <= e <= d1 + e1 - (d2 + e2) - 51 /\
    let x := ((IZR (Z.pos m1) * bpow e1) / (IZR (Z.pos m2) * bpow e2))%R in
    let v := (IZR (Z.pos m) * bpow e)%R in
    ((1 - u) * v <= x <= (1 + u) * v)%R.
Proof.
  intros d1 d2 Hd Hlo Hhi.
  pose proof (digits2_pos_bounds m1) as B1. fold d1 in B1.
  pose proof (digits2_pos_bounds m2) as B2. fold d2 in B2.
  assert (Hd1 : 1 <= d1) by (unfold d1; lia).
  assert (Hd2 : 1 <= d2) by (unfold d2; lia).
  unfold SFdiv, SFdiv_core_binary. simpl Zdigits2. fold d1 d2.
  rewrite fexp_normal by lia.
  set (e' := d1 + e1 - (d2 + e2) - 53).
  replace (Z.min e' (e1 - e2)) with e' by lia.
  set (sh := e1 - e2 - e').
  assert (Hsh : 0 <= sh) by (unfold sh, e'; lia).
  set (m' := match sh with Z.pos _ => Z.shiftl (Z.pos m1) sh | 0 => Z.pos m1 | Z.neg _ => 0 end).
  assert (Hm' : m' = Z.pos m1 * 2 ^ sh).
  { unfold m'. destruct sh as [|k|k] eqn:E; try lia.
    now rewrite Z.shiftl_mul_pow2 by lia. }
  clearbody m'. rewrite div_eucl_eq. rewrite new_location_loc_of by lia.
  assert (Hpsh : 0 < 2 ^ sh) by (apply Z.pow_pos_nonneg; lia).
  assert (Bq : 2 ^ 52 <= m' / Z.pos m2 < 2 ^ 54).
  { assert (E1 : 2 ^ (d1 - 1) * 2 ^ sh = 2 ^ 52 * 2 ^ d2).
    { rewrite <- !Z.pow_add_r by lia. f_equal. unfold sh, e'. lia. }
    assert (E2 : 2 ^ d1 * 2 ^ sh = 2 ^ 54 * 2 ^ (d2 - 1)).
    { rewrite <- !Z.pow_add_r by lia. f_equal. unfold sh, e'. lia. }
    split.
    - apply Z.div_le_lower_bound; [lia|]. rewrite Hm'. nia.
    - apply Z.div_lt_upper_bound; [lia|]. rewrite Hm'. nia. }
  assert (Hq : 0 < m' / Z.pos m2).
  { assert (0 < 2 ^ 52) by reflexivity. lia. }
  pose proof (Zdigits2_bounds _ Hq) as Bd.
  assert (Hdq : 53 <= Zdigits2 (m' / Z.pos m2) <= 54).
  { split.
    - destruct (Z.lt_ge_cases (Zdigits2 (m' / Z.pos m2)) 53) as [L|L]; [|lia].
      assert (2 ^ Zdigits2 (m' / Z.pos m2) <= 2 ^ 52) by (apply Z.pow_le_mono_r; lia). lia.
    - destruct (Z.lt_ge_cases 54 (Zdigits2 (m' / Z.pos m2))) as [L|L]; [|lia].
      assert (2 ^ 54 <= 2 ^ (Zdigits2 (m' / Z.pos m2) - 1)) by (apply Z.pow_le_mono_r; lia). lia. }
  destruct (round_real (xorb s1 s2) m' (Z.pos m2) e' ltac:(lia) ltac:(lia) ltac:(lia)
              ltac:(unfold e'; lia) ltac:(unfold e'; lia))
    as (m & e & Heq & Bm & Be & Hx).
  exists m, e. split; [exact Heq|]. split; [exact Bm|]. split; [unfold e' in Be; lia|].
  cbv zeta in Hx |- *.
  replace (IZR (Z.pos m1) * bpow e1 / (IZR (Z.pos m2) * bpow e2))%R
    with (IZR m' / IZR (Z.pos m2) * bpow e')%R; [exact Hx|].
  rewrite Hm', mult_IZR, bpow_IZR by lia.
  replace e1 with (sh + e' + e2) at 1 by (unfold sh; lia).
  rewrite !bpow_add.
  pose proof (bpow_pos e2). pose proof (bpow_pos e'). pose proof (bpow_pos sh).
  assert (0 < IZR (Z.pos m2))%R by (apply IZR_lt; lia).
  field. split; lra.
Qed.

(** Multiplication of two finite floats whose product is a normal number. *)
Lemma SFmul_finite (s1 s2 : bool) (m1 m2 : positive) (e1 e2 : Z) :
  2 ^ 52 <= Z.pos m1 < 2 ^ 53 ->
  2 ^ 52 <= Z.pos m2 < 2 ^ 53 ->
  -1126 <= e1 + e2 -> e1 + e2 <= 917 ->
  exists m e,
    SFmul prec emax (S754_finite s1 m1 e1) (S754_finite s2 m2 e2)
    = S754_finite (xorb s1 s2) m e /\
    2 ^ 52 <= Z.pos m < 2 ^ 53 /\
    e1 + e2 + 52 <= e <= e1 + e2 + 54 /\
    let x := ((IZR (Z.pos m1) * bpow e1) * (IZR (Z.pos m2) * bpow e2))%R in
    let v := (IZR (Z.pos m) * bpow e)%R in
    ((1 - u) * v <= x <= (1 + u) * v)%R.
Proof.
  intros B1 B2 Hlo Hhi. unfold SFmul.
  set (N := Z.pos (m1 * m2)).
  assert (HN : N = Z.pos m1 * Z.pos m2) by reflexivity.
  assert (BN : 2 ^ 104 <= N < 2 ^ 106).
  { change (2 ^ 104) with (2 ^ 52 * 2 ^ 52). change (2 ^ 106) with (2 ^ 53 * 2 ^ 53). nia. }
  assert (Hdiv : N / 1 = N) by apply Z.div_1_r.
  assert (Hloc : loc_of N 1 = loc_Exact).
  { unfold loc_of. now rewrite Z.mod_1_r. }
  pose proof (Zdigits2_bounds N ltac:(lia)) as Bd.
  assert (Hd : 105 <= Zdigits2 N <= 106).
  { split.
    - destruct (Z.lt_ge_cases (Zdigits2 N) 105) as [L|L]; [|lia].
      assert (2 ^ Zdigits2 N <= 2 ^ 104) by (apply Z.pow_le_mono_r; lia). lia.
    - destruct (Z.lt_ge_cases 106 (Zdigits2 N)) as [L|L]; [|lia].
      assert (2 ^ 106 <= 2 ^ (Zdigits2 N - 1)) by (apply Z.pow_le_mono_r; lia). lia. }
  destruct (round_real (xorb s1 s2) N 1 (e1 + e2) ltac:(lia) ltac:(lia)
              ltac:(rewrite Hdiv; lia) ltac:(rewrite Hdiv; lia) ltac:(rewrite Hdiv; lia))
    as (m & e & Heq & Bm & Be & Hx).
  rewrite Hdiv, Hloc in Heq. rewrite Hdiv in Be.
  exists m, e. split; [exact Heq|]. split; [exact Bm|]. split; [lia|].
  cbv zeta in Hx |- *.
  replace (IZR (Z.pos m1) * bpow e1 * (IZR (Z.pos m2) * bpow e2))%R
    with (IZR N / IZR 1 * bpow (e1 + e2))%R; [exact Hx|].
  rewrite HN, mult_IZR, bpow_add. field.
Qed.

(** [int()] of a positive finite float is the floor of its value. *)
Lemma int_of_float_floor {L} (m : positive) (e : Z) (log : list L) :
  exists n,
    int_of_float (S754_finite false m e) log = (Ok n, log) /\
    (IZR n <= IZR (Z.pos m) * bpow e < IZR n + 1)%R.
Proof.
  unfold int_of_float, ret. destruct e as [|k|k].
  - exists (Z.pos m * 2 ^ 0). split; [reflexivity|].
    rewrite Z.pow_0_r, Z.mul_1_r. unfold bpow. simpl. lra.
  - exists (Z.pos m * 2 ^ Z.pos k). split; [reflexivity|].
    rewrite mult_IZR, bpow_IZR by lia. lra.
  - exists (Z.pos m / 2 ^ Z.pos k). split; [reflexivity|].
    assert (Hp : 0 < 2 ^ Z.pos k) by (apply Z.pow_pos_nonneg; lia).
    pose proof (Z.div_mod (Z.pos m) (2 ^ Z.pos k) ltac:(lia)) as Hdm.
    pose proof (Z.mod_pos_bound (Z.pos m) (2 ^ Z.pos k) Hp) as Hr.
    set (n := Z.pos m / 2 ^ Z.pos k) in *.
    assert (H1 : n * 2 ^ Z.pos k <= Z.pos m) by lia.
    assert (H2 : Z.pos m < (n + 1) * 2 ^ Z.pos k) by lia.
    apply IZR_le in H1. apply IZR_lt in H2.
    rewrite mult_IZR, bpow_IZR in H1, H2 by lia. rewrite plus_IZR in H2.
    assert (E : (bpow (Z.neg k) = / bpow (Z.pos k))%R).
    { replace (Z.neg k) with (0 - Z.pos k) by lia. rewrite bpow_sub.
      unfold bpow at 1. simpl. lra. }
    rewrite E. pose proof (bpow_pos (Z.pos k)) as Hb.
    set (b := bpow (Z.pos k)) in *. set (M := IZR (Z.pos m)) in *.
    split.
    + apply Rmult_le_reg_r with b; [exact Hb|].
      replace (M * / b * b)%R with M by (field; lra). exact H1.
    + apply Rmult_lt_reg_r with b; [exact Hb|].
      replace (M * / b * b)%R with M by (field; lra). exact H2.
Qed.

(** [w / h] for integers below [2^53]: no error, a positive normal
    float within relative error [u] of the quotient. *)
Lemma int_truediv_spec {L} (w h : Z) :
  0 < w < 2 ^ 53 -> 0 < h < 2 ^ 53 ->
  exists A a,
    (forall log : list L, int_truediv w h log = (Ok (S754_finite false A a), log)) /\
    2 ^ 52 <= Z.pos A < 2 ^ 53 /\ -106 <= a <= 1 /\
    let v := (IZR (Z.pos A) * bpow a)%R in
    ((1 - u) * v * IZR h <= IZR w <= (1 + u) * v * IZR h)%R.
Proof.
  intros Hw Hh. unfold int_truediv.
  destruct (Z.eqb_spec h 0) as [E|_]; [lia|].
  destruct w as [|pw|pw]; try lia. destruct h as [|ph|ph]; try lia.
  change (Z.pos pw <? 0) with false. change (Z.pos ph <? 0) with false.
  change (Z.to_pos (Z.abs (Z.pos pw))) with pw. change (Z.to_pos (Z.abs (Z.pos ph))) with ph.
  pose proof (digits2_pos_bounds pw) as B1. pose proof (digits2_pos_bounds ph) as B2.
  set (d1 := Z.pos (digits2_pos pw)) in *. set (d2 := Z.pos (digits2_pos ph)) in *.
  assert (Hd1 : 1 <= d1 <= 53).
  { split; [unfold d1; lia|]. destruct (Z.lt_ge_cases 53 d1) as [Lt|Ge]; [|lia].
    assert (2 ^ 53 <= 2 ^ (d1 - 1)) by (apply Z.pow_le_mono_r; lia). lia. }
  assert (Hd2 : 1 <= d2 <= 53).
  { split; [unfold d2; lia|]. destruct (Z.lt_ge_cases 53 d2) as [Lt|Ge]; [|lia].
    assert (2 ^ 53 <= 2 ^ (d2 - 1)) by (apply Z.pow_le_mono_r; lia). lia. }
  destruct (SFdiv_finite false false pw ph 0 0) as (A & a & Heq & BA & Ba & Hx);
    fold d1 d2; try lia.
  fold d1 d2 in Ba. simpl xorb in Heq.
  exists A, a. split; [|split; [exact BA|split; [lia|]]].
  - intros log. rewrite Heq. reflexivity.
  - cbv zeta in Hx |- *. unfold bpow at 3 4 in Hx. simpl powerRZ in Hx.
    rewrite !Rmult_1_r in Hx.
    assert (0 < IZR (Z.pos ph))%R by (apply IZR_lt; lia).
    set (v := (IZR (Z.pos A) * bpow a)%R) in *.
    destruct Hx as [Hl Hr]. split.
    + apply Rmult_le_compat_r with (r := IZR (Z.pos ph)) in Hl; [|lra].
      replace (IZR (Z.pos pw) / IZR (Z.pos ph) * IZR (Z.pos ph))%R with (IZR (Z.pos pw)) in Hl
        by (field; lra). exact Hl.
    + apply Rmult_le_compat_r with (r := IZR (Z.pos ph)) in Hr; [|lra].
      replace (IZR (Z.pos pw) / IZR (Z.pos ph) * IZR (Z.pos ph))%R with (IZR (Z.pos pw)) in Hr
        by (field; lra). exact Hr.
Qed.

(** [int(z / asp)] for an integer below [2^53] and a normal [asp]. *)
Lemma int_div_float_spec {L} (z : Z) (A : positive) (a : Z) :
  0 < z < 2 ^ 53 -> 2 ^ 52 <= Z.pos A < 2 ^ 53 -> -500 <= a <= 500 ->
  exists n b,
    (forall log : list L,
        bind (int_div_float z (S754_finite false A a)) int_of_float log = (Ok n, log)) /\
    (IZR n <= b < IZR n + 1)%R /\
    let v := (IZR (Z.pos A) * bpow a)%R in
    ((1 - u) * b * v <= IZR z <= (1 + u) * b * v)%R.
Proof.
  intros Hz BA Ha.
  destruct (of_int_exact z Hz) as (M & mu & HM & BM & Bmu & EM).
  pose proof (of_int_B2R z M mu HM ltac:(lia) EM) as HR. rewrite HM in HR. simpl in HR.
  rewrite Rmult_1_l in HR.
  destruct (SFdiv_finite false false M A mu a) as (Q & eQ & Heq & BQ & Beq & Hx).
  { rewrite (digits2_pos_unique M 53), (digits2_pos_unique A 53) by (simpl; lia). lia. }
  { rewrite (digits2_pos_unique M 53), (digits2_pos_unique A 53) by (simpl; lia). lia. }
  { rewrite (digits2_pos_unique M 53), (digits2_pos_unique A 53) by (simpl; lia). lia. }
  simpl xorb in Heq. cbv zeta in Hx. rewrite HR in Hx.
  destruct (int_of_float_floor (L := L) Q eQ nil) as (n & _ & Hn).
  exists n, (IZR (Z.pos Q) * bpow eQ)%R. split; [|split; [exact Hn|]].
  - intros log. unfold int_div_float, float_of_int, float_div, bind, ret.
    rewrite HM, Heq.
    destruct (int_of_float_floor (L := L) Q eQ log) as (n' & Hn' & Hb').
    rewrite Hn'. f_equal. f_equal.
    apply Z.le_antisymm; apply Z.lt_succ_r; apply lt_IZR; rewrite succ_IZR; lra.
  - cbv zeta. pose proof (bpow_pos a) as Hba.
    assert (0 < IZR (Z.pos A))%R by (apply IZR_lt; lia).
    set (v := (IZR (Z.pos A) * bpow a)%R) in *.
    assert (Hv : (0 < v)%R) by (unfold v; apply Rmult_lt_0_compat; lra).
    set (b := (IZR (Z.pos Q) * bpow eQ)%R) in *.
    destruct Hx as [Hl Hr]. split.
    + apply Rmult_le_compat_r with (r := v) in Hl; [|lra].
      replace (IZR z / v * v)%R with (IZR z) in Hl by (field; lra). exact Hl.
    + apply Rmult_le_compat_r with (r := v) in Hr; [|lra].
      replace (IZR z / v * v)%R with (IZR z) in Hr by (field; lra). exact Hr.
Qed.

(** [int(z * asp)] for an integer below [2^53] and a normal [asp]. *)
Lemma int_mul_float_spec {L} (z : Z) (A : positive) (a : Z) :
  0 < z < 2 ^ 53 -> 2 ^ 52 <= Z.pos A < 2 ^ 53 -> -500 <= a <= 500 ->
  exists n c,
    (forall log : list L,
        bind (int_mul_float z (S754_finite false A a)) int_of_float log = (Ok n, log)) /\
    (IZR n <= c < IZR n + 1)%R /\
    let v := (IZR (Z.pos A) * bpow a)%R in
    ((1 - u) * c <= IZR z * v <= (1 + u) * c)%R.
Proof.
  intros Hz BA Ha.
  destruct (of_int_exact z Hz) as (M & mu & HM & BM & Bmu & EM).
  pose proof (of_int_B2R z M mu HM ltac:(lia) EM) as HR. rewrite HM in HR. simpl in HR.
  rewrite Rmult_1_l in HR.
  destruct (SFmul_finite false false M A mu a BM BA ltac:(lia) ltac:(lia))
    as (P & ep & Heq & BP & Bep & Hx).
  simpl xorb in Heq. cbv zeta in Hx. rewrite HR in Hx.
  destruct (int_of_float_floor (L := L) P ep nil) as (n & _ & Hn).
  exists n, (IZR (Z.pos P) * bpow ep)%R. split; [|split; [exact Hn|exact Hx]].
  intros log. unfold int_mul_float, float_of_int, bind, ret.
  rewrite HM, Heq.
  destruct (int_of_float_floor (L := L) P ep log) as (n' & Hn' & Hb').
  rewrite Hn'. f_equal. f_equal.
  apply Z.le_antisymm; apply Z.lt_succ_r; apply lt_IZR; rewrite succ_IZR; lra.
Qed.

Lemma u_value : u = (/ 9007199254740992)%R.
Proof. reflexivity. Qed.

(** Linear arithmetic with the unit roundoff written out. *)
Ltac lra_u := rewrite ?u_value in *; lra.

(** The quotient branch: [n = int(aw / asp)] is the exact quotient
    [aw * h / w] rounded down, or one less when the quotient is an integer. *)
Lemma quotient_fit (w h aw n : Z) (b v : R) :
  0 < w -> 0 < h -> 0 < aw -> aw * h <= 2 ^ 50 ->
  (0 < v)%R ->
  ((1 - u) * v * IZR h <= IZR w <= (1 + u) * v * IZR h)%R ->
  ((1 - u) * b * v <= IZR aw <= (1 + u) * b * v)%R ->
  (IZR n <= b < IZR n + 1)%R ->
  aw * h - w <= n * w <= aw * h.
Proof.
  intros Hw Hh Haw Hprod Hv [Hv1 Hv2] [Hb1 Hb2] [Hn1 Hn2].
  assert (HW : (1 <= IZR w)%R) by (apply IZR_le; lia).
  assert (HH : (1 <= IZR h)%R) by (apply IZR_le; lia).
  assert (HA : (1 <= IZR aw)%R) by (apply IZR_le; lia).
  assert (HT : (IZR aw * IZR h <= 1125899906842624)%R).
  { rewrite <- mult_IZR. apply IZR_le. exact Hprod. }
  set (W := IZR w) in *. set (H := IZR h) in *. set (A := IZR aw) in *.
  assert (Hu : (0 < u < 1 / 4503599627370496)%R) by lra_u.
  assert (Hb : (0 < b)%R).
  { destruct (Rlt_or_le 0 b) as [Hp|Hn]; [exact Hp|].
    assert ((1 + u) * b * v <= 0)%R.
    { replace ((1 + u) * b * v)%R with (b * ((1 + u) * v))%R by ring.
      assert (0 <= (1 + u) * v)%R by (apply Rmult_le_pos; lra_u).
      assert (b * ((1 + u) * v) <= 0 * ((1 + u) * v))%R
        by (apply Rmult_le_compat_r; assumption).
      lra_u. }
    lra_u. }
  (* b * W * (1 - u) <= A * H * (1 + u) *)
  assert (U : (b * W * (1 - u) <= A * H * (1 + u))%R).
  { assert (S1 : (b * (1 - u) * W <= b * (1 - u) * ((1 + u) * v * H))%R).
    { apply Rmult_le_compat_l; [|exact Hv2]. apply Rmult_le_pos; lra_u. }
    assert (S2 : ((1 + u) * H * ((1 - u) * b * v) <= (1 + u) * H * A)%R).
    { apply Rmult_le_compat_l; [|exact Hb1]. apply Rmult_le_pos; lra_u. }
    lra_u. }
  assert (Lo : (A * H * (1 - u) <= b * W * (1 + u))%R).
  { assert (S1 : (b * (1 + u) * ((1 - u) * v * H) <= b * (1 + u) * W)%R).
    { apply Rmult_le_compat_l; [|exact Hv1]. apply Rmult_le_pos; lra_u. }
    assert (S2 : ((1 - u) * H * A <= (1 - u) * H * ((1 + u) * b * v))%R).
    { apply Rmult_le_compat_l; [|exact Hb2]. apply Rmult_le_pos; lra_u. }
    lra_u. }
  assert (X1 : (IZR n * W <= b * W)%R) by (apply Rmult_le_compat_r; lra_u).
  assert (X2 : (b * W < (IZR n + 1) * W)%R) by (apply Rmult_lt_compat_r; lra_u).
  set (T := (A * H)%R) in *.
  assert (HTpos : (0 < T)%R) by (unfold T; apply Rmult_lt_0_compat; lra_u).
  assert (K1 : (T * u <= 1 / 8)%R).
  { lra_u. }
  assert (K2 : (b * W * u <= 1 / 4)%R).
  { assert (b * W * (1 - u) <= T + 1 / 8)%R by lra_u.
    assert (b * W <= 2 * (T + 1 / 8))%R by lra_u.
    lra_u. }
  split.
  - assert (E : (IZR ((n + 1) * w) > IZR (aw * h) - 1)%R).
    { rewrite !mult_IZR, plus_IZR. fold W H A T. lra_u. }
    assert ((n + 1) * w > aw * h - 1); [|lia].
    apply Z.lt_gt. apply lt_IZR. rewrite minus_IZR. lra_u.
  - assert (E : (IZR (n * w) < IZR (aw * h) + 1)%R).
    { rewrite !mult_IZR. fold W H A T. lra_u. }
    assert (n * w < aw * h + 1); [|lia].
    apply lt_IZR. rewrite plus_IZR. lra_u.
Qed.

(** The product branch: [n = int(ah * asp)] is the exact product
    [ah * w / h] rounded down, or one less when the product is an integer. *)
Lemma product_fit (w h ah n : Z) (c v : R) :
  0 < w -> 0 < h -> 0 < ah -> ah * w <= 2 ^ 50 ->
  (0 < v)%R ->
  ((1 - u) * v * IZR h <= IZR w <= (1 + u) * v * IZR h)%R ->
  ((1 - u) * c <= IZR ah * v <= (1 + u) * c)%R ->
  (IZR n <= c < IZR n + 1)%R ->
  ah * w - h <= n * h <= ah * w.
Proof.
  intros Hw Hh Hah Hprod Hv [Hv1 Hv2] [Hc1 Hc2] [Hn1 Hn2].
  assert (HW : (1 <= IZR w)%R) by (apply IZR_le; lia).
  assert (HH : (1 <= IZR h)%R) by (apply IZR_le; lia).
  assert (HA : (1 <= IZR ah)%R) by (apply IZR_le; lia).
  assert (HT : (IZR ah * IZR w <= 1125899906842624)%R).
  { rewrite <- mult_IZR. apply IZR_le. exact Hprod. }
  set (W := IZR w) in *. set (H := IZR h) in *. set (A := IZR ah) in *.
  assert (Hu : (0 < u < 1 / 4503599627370496)%R) by lra_u.
  assert (Hc : (0 < c)%R).
  { assert (0 < A * v)%R by (apply Rmult_lt_0_compat; lra_u).
    destruct (Rlt_or_le 0 c) as [Hp|Hn]; [exact Hp|].
    assert ((1 + u) * c <= (1 + u) * 0)%R by (apply Rmult_le_compat_l; lra_u). lra_u. }
  (* c * H * (1 - u)^2 <= A * W <= c * H * (1 + u)^2 *)
  assert (U : (c * H * ((1 - u) * (1 - u)) <= A * W)%R).
  { assert (S1 : ((1 - u) * H * ((1 - u) * c) <= (1 - u) * H * (A * v))%R).
    { apply Rmult_le_compat_l; [|exact Hc1]. apply Rmult_le_pos; lra_u. }
    assert (S2 : (A * ((1 - u) * v * H) <= A * W)%R).
    { apply Rmult_le_compat_l; [lra_u|exact Hv1]. }
    lra_u. }
  assert (Lo : (A * W <= c * H * ((1 + u) * (1 + u)))%R).
  { assert (S1 : ((1 + u) * H * (A * v) <= (1 + u) * H * ((1 + u) * c))%R).
    { apply Rmult_le_compat_l; [|exact Hc2]. apply Rmult_le_pos; lra_u. }
    assert (S2 : (A * W <= A * ((1 + u) * v * H))%R).
    { apply Rmult_le_compat_l; [lra_u|exact Hv2]. }
    lra_u. }
  assert (X1 : (IZR n * H <= c * H)%R) by (apply Rmult_le_compat_r; lra_u).
  assert (X2 : (c * H < (IZR n + 1) * H)%R) by (apply Rmult_lt_compat_r; lra_u).
  set (T := (A * W)%R) in *.
  assert (HTpos : (0 < T)%R) by (unfold T; apply Rmult_lt_0_compat; lra_u).
  assert (Hsq1 : ((1 - u) * (1 - u) >= 1 - 2 * u)%R).
  { assert (0 <= u * u)%R by (apply Rmult_le_pos; lra_u). lra_u. }
  assert (Hsq2 : ((1 + u) * (1 + u) <= 1 + 3 * u)%R).
  { assert (u * u <= u * 1)%R by (apply Rmult_le_compat_l; lra_u). lra_u. }
  assert (HcH : (0 < c * H)%R) by (apply Rmult_lt_0_compat; lra_u).
  assert (U' : (c * H * (1 - 2 * u) <= T)%R).
  { assert (c * H * (1 - 2 * u) <= c * H * ((1 - u) * (1 - u)))%R
      by (apply Rmult_le_compat_l; lra_u). lra_u. }
  assert (Lo' : (T <= c * H * (1 + 3 * u))%R).
  { assert (c * H * ((1 + u) * (1 + u)) <= c * H * (1 + 3 * u))%R
      by (apply Rmult_le_compat_l; lra_u). lra_u. }
  assert (K1 : (T * u <= 1 / 8)%R) by lra_u.
  assert (K2 : (c * H * u <= 1 / 4)%R).
  { assert (c * H <= 2 * T)%R by lra_u. lra_u. }
  split.
  - assert ((n + 1) * h > ah * w - 1); [|lia].
    apply Z.lt_gt. apply lt_IZR. rewrite minus_IZR, !mult_IZR, plus_IZR.
    fold W H A T. lra_u.
  - assert (n * h < ah * w + 1); [|lia].
    apply lt_IZR. rewrite plus_IZR, !mult_IZR. fold W H A T. lra_u.
Qed.

Lemma bind_assoc {L A B C} (m : M L A) (f : A -> M L B) (g : B -> M L C) log :
  bind m (fun x => bind (f x) g) log = bind (bind m f) g log.
Proof. unfold bind. destruct (m log) as [[a|e] l]; reflexivity. Qed.

Lemma normal_value_pos (A : positive) (a : Z) : (0 < IZR (Z.pos A) * bpow a)%R.
Proof.
  apply Rmult_lt_0_compat; [apply IZR_lt; lia | apply bpow_pos].
Qed.


(** ** Signs of the float operations *)

Lemma binary_round_aux_sign (s : bool) (mx ex : Z) (lx : location) :
  match binary_round_aux prec emax s mx ex lx with
  | S754_zero s' | S754_finite s' _ _ | S754_infinity s' => s' = s
  | S754_nan => True
  end.
Proof.
  unfold binary_round_aux.
  destruct (shr_fexp prec emax mx ex lx) as [mrs' e'].
  destruct (shr_fexp prec emax _ e' loc_Exact) as [mrs'' e''].
  destruct (shr_m mrs''); [reflexivity| |exact I].
  destruct (e'' <=? emax - prec); reflexivity.
Qed.

Lemma of_int_nonpos (z : Z) : z <= 0 -> nonpos_float (of_int z).
Proof.
  intros Hz. destruct z as [|p|p]; [exact I|lia|].
  unfold of_int, binary_normalize, binary_round.
  destruct (shl_align p 0 _) as [mz ez].
  pose proof (binary_round_aux_sign true (Z.pos mz) ez loc_Exact) as H.
  destruct (binary_round_aux prec emax true (Z.pos mz) ez loc_Exact); simpl; auto.
Qed.

Lemma SFdiv_nonpos (x : spec_float) (A : positive) (a : Z) :
  nonpos_float x -> nonpos_float (SFdiv prec emax x (S754_finite false A a)).
Proof.
  intros Hx. destruct x as [s|s| |s m e]; simpl in *; auto.
  - subst s. reflexivity.
  - subst s. destruct (SFdiv_core_binary prec emax (Z.pos m) e (Z.pos A) a) as [[mz ez] lz].
    pose proof (binary_round_aux_sign (xorb true false) mz ez lz) as H.
    destruct (binary_round_aux prec emax (xorb true false) mz ez lz); simpl; auto.
Qed.

Lemma SFmul_nonpos (x : spec_float) (A : positive) (a : Z) :
  nonpos_float x -> nonpos_float (SFmul prec emax x (S754_finite false A a)).
Proof.
  intros Hx. destruct x as [s|s| |s m e]; simpl in *; auto.
  - subst s. reflexivity.
  - subst s.
    pose proof (binary_round_aux_sign (xorb true false) (Z.pos (m * A)) (e + a) loc_Exact) as H.
    destruct (binary_round_aux prec emax (xorb true false) (Z.pos (m * A)) (e + a) loc_Exact);
      simpl; auto.
Qed.

Lemma int_of_float_nonpos {L} (f : spec_float) (log : list L) :
  nonpos_float f ->
  exists r, int_of_float f log = (r, log) /\ no_zero_division (fun n => n <= 0) r.
Proof.
  intros Hf. destruct f as [s|s| |s m e]; simpl in *; try (eexists; split; [reflexivity|]; simpl; auto; lia).
  subst s. eexists. split; [reflexivity|]. simpl.
  destruct e as [|k|k].
  - lia.
  - assert (0 < 2 ^ Z.pos k) by (apply Z.pow_pos_nonneg; lia). nia.
  - assert (0 < 2 ^ Z.pos k) by (apply Z.pow_pos_nonneg; lia).
    pose proof (Z.div_pos (Z.pos m) (2 ^ Z.pos k) ltac:(lia) ltac:(lia)). lia.
Qed.

Lemma int_of_float_any {L} (f : spec_float) (log : list L) :
  exists r, int_of_float f log = (r, log) /\ no_zero_division (fun _ => True) r.
Proof. destruct f; eexists; (split; [reflexivity|]); exact I. Qed.

Lemma float_of_int_cases {L} (z : Z) (log : list L) :
  (exists msg, float_of_int z log = (Raise (OverflowError msg), log)) \/
  float_of_int z log = (Ok (of_int z), log).
Proof.
  unfold float_of_int. destruct (of_int z); eauto.
Qed.

(** [int(z / asp)] and [int(z * asp)] for a finite [asp]: never a division
    by zero, and a result that is not positive when [z] is not. *)
Lemma int_div_float_sign {L} (z : Z) (A : positive) (a : Z) (log : list L) :
  exists r,
    bind (int_div_float z (S754_finite false A a)) int_of_float log = (r, log) /\
    no_zero_division (fun n => z <= 0 -> n <= 0) r.
Proof.
  unfold int_div_float, float_div.
  destruct (float_of_int_cases z log) as [[msg H]|H].
  - exists (Raise (OverflowError msg)). split; [|exact I].
    unfold bind at 1. unfold bind at 1. rewrite H. reflexivity.
  - unfold bind at 1. unfold bind at 1. rewrite H. unfold ret.
    destruct (Z_le_gt_dec z 0) as [Hz|Hz].
    + destruct (int_of_float_nonpos (SFdiv prec emax (of_int z) (S754_finite false A a)) log)
        as (r & Hr & Hn); [apply SFdiv_nonpos, of_int_nonpos, Hz|].
      exists r. split; [exact Hr|]. destruct r as [n|[]]; simpl in *; auto.
    + destruct (int_of_float_any (SFdiv prec emax (of_int z) (S754_finite false A a)) log)
        as (r & Hr & Hn).
      exists r. split; [exact Hr|]. destruct r as [n|[]]; simpl in *; auto. lia.
Qed.

Lemma int_mul_float_sign {L} (z : Z) (A : positive) (a : Z) (log : list L) :
  exists r,
    bind (int_mul_float z (S754_finite false A a)) int_of_float log = (r, log) /\
    no_zero_division (fun n => z <= 0 -> n <= 0) r.
Proof.
  unfold int_mul_float.
  destruct (float_of_int_cases z log) as [[msg H]|H].
  - exists (Raise (OverflowError msg)). split; [|exact I].
    unfold bind at 1. unfold bind at 1. rewrite H. reflexivity.
  - unfold bind at 1. unfold bind at 1. rewrite H. unfold ret.
    destruct (Z_le_gt_dec z 0) as [Hz|Hz].
    + destruct (int_of_float_nonpos (SFmul prec emax (of_int z) (S754_finite false A a)) log)
        as (r & Hr & Hn); [apply SFmul_nonpos, of_int_nonpos, Hz|].
      exists r. split; [exact Hr|]. destruct r as [n|[]]; simpl in *; auto.
    + destruct (int_of_float_any (SFmul prec emax (of_int z) (S754_finite false A a)) log)
        as (r & Hr & Hn).
      exists r. split; [exact Hr|]. destruct r as [n|[]]; simpl in *; auto. lia.
Qed.

(** For magnitudes below [2^53] the two conversions raise nothing. *)
Lemma int_div_float_total {L} (z : Z) (A : positive) (a : Z) :
  - 2 ^ 53 < z < 2 ^ 53 -> 2 ^ 52 <= Z.pos A < 2 ^ 53 -> -500 <= a <= 500 ->
  exists n, forall log : list L,
    bind (int_div_float z (S754_finite false A a)) int_of_float log = (Ok n, log).
Proof.
  intros Hz BA Ha.
  destruct (Z.lt_trichotomy z 0) as [Hn|[->|Hp]].
  - destruct (of_int_exact_neg z ltac:(lia)) as (M & mu & HM & BM & Bmu).
    destruct (SFdiv_finite true false M A mu a) as (Q & eQ & Heq & _).
    { rewrite (digits2_pos_unique M 53), (digits2_pos_unique A 53) by (simpl; lia). lia. }
    { rewrite (digits2_pos_unique M 53), (digits2_pos_unique A 53) by (simpl; lia). lia. }
    { rewrite (digits2_pos_unique M 53), (digits2_pos_unique A 53) by (simpl; lia). lia. }
    eexists. intros log.
    unfold int_div_float, float_of_int, float_div, bind, ret. rewrite HM, Heq. reflexivity.
  - exists 0. intros log. reflexivity.
  - destruct (int_div_float_spec (L := L) z A a ltac:(lia) BA Ha) as (n & _ & H & _).
    now exists n.
Qed.

Lemma int_mul_float_total {L} (z : Z) (A : positive) (a : Z) :
  - 2 ^ 53 < z < 2 ^ 53 -> 2 ^ 52 <= Z.pos A < 2 ^ 53 -> -500 <= a <= 500 ->
  exists n, forall log : list L,
    bind (int_mul_float z (S754_finite false A a)) int_of_float log = (Ok n, log).
Proof.
  intros Hz BA Ha.
  destruct (Z.lt_trichotomy z 0) as [Hn|[->|Hp]].
  - destruct (of_int_exact_neg z ltac:(lia)) as (M & mu & HM & BM & Bmu).
    destruct (SFmul_finite true false M A mu a BM BA ltac:(lia) ltac:(lia))
      as (P & eP & Heq & _).
    eexists. intros log.
    unfold int_mul_float, float_of_int, bind, ret. rewrite HM, Heq. reflexivity.
  - exists 0. intros log. reflexivity.
  - destruct (int_mul_float_spec (L := L) z A a ltac:(lia) BA Ha) as (n & _ & H & _).
    now exists n.
Qed.

(** For an image of positive size and cell sizes below [2^53] in
    magnitude, [fitted_size] returns. *)
Lemma fitted_size_total (aw ah : Z) (img : Image) :
  0 < width img < 2 ^ 53 -> 0 < height img < 2 ^ 53 ->
  - 2 ^ 53 < aw < 2 ^ 53 -> - 2 ^ 53 < ah < 2 ^ 53 ->
  exists sz, forall log, fitted_size aw ah img log = (Ok sz, log).
Proof.
  intros Bw Bh Baw Bah. unfold fitted_size, size.
  destruct (int_truediv_spec (L := call) _ _ Bw Bh) as (A & a & Hasp & BA & Ba & _).
  destruct (int_div_float_total (L := call) aw A a Baw BA ltac:(lia)) as (nh & Hq).
  destruct (int_mul_float_total (L := call) ah A a Bah BA ltac:(lia)) as (nw & Hm).
  destruct (gt_one (S754_finite false A a)) eqn:G.
  - destruct (Z.gtb_spec nh ah) as [C|C].
    + exists (nw, ah). intros log.
      rewrite (bind_eq_ok _ _ _ _ _ (Hasp log)), G.
      rewrite bind_assoc, (bind_eq_ok _ _ _ _ _ (Hq log)).
      destruct (Z.gtb_spec nh ah); [|lia].
      rewrite bind_assoc, (bind_eq_ok _ _ _ _ _ (Hm log)). reflexivity.
    + exists (aw, nh). intros log.
      rewrite (bind_eq_ok _ _ _ _ _ (Hasp log)), G.
      rewrite bind_assoc, (bind_eq_ok _ _ _ _ _ (Hq log)).
      destruct (Z.gtb_spec nh ah); [lia|]. reflexivity.
  - destruct (Z.gtb_spec nw aw) as [C|C].
    + exists (aw, nh). intros log.
      rewrite (bind_eq_ok _ _ _ _ _ (Hasp log)), G.
      rewrite bind_assoc, (bind_eq_ok _ _ _ _ _ (Hm log)).
      destruct (Z.gtb_spec nw aw); [|lia].
      rewrite bind_assoc, (bind_eq_ok _ _ _ _ _ (Hq log)). reflexivity.
    + exists (nw, ah). intros log.
      rewrite (bind_eq_ok _ _ _ _ _ (Hasp log)), G.
      rewrite bind_assoc, (bind_eq_ok _ _ _ _ _ (Hm log)).
      destruct (Z.gtb_spec nw aw); [lia|]. reflexivity.
Qed.

(** With a cell that has no room, the fitted size has a dimension that is
    not positive, unless a float conversion failed first. *)
Lemma fitted_size_degenerate (aw ah : Z) (img : Image) (log : list call) :
  0 < width img < 2 ^ 53 -> 0 < height img < 2 ^ 53 ->
  aw <= 0 \/ ah <= 0 ->
  exists r,
    fitted_size aw ah img log = (r, log) /\
    no_zero_division (fun sz : Z * Z => fst sz <= 0 \/ snd sz <= 0) r.
Proof.
  intros Bw Bh Hdeg. unfold fitted_size, size.
  destruct (int_truediv_spec (L := call) _ _ Bw Bh) as (A & a & Hasp & _).
  rewrite (bind_eq_ok _ _ _ _ _ (Hasp log)).
  destruct (int_div_float_sign (L := call) aw A a log) as (rq & Hq & Sq).
  destruct (int_mul_float_sign (L := call) ah A a log) as (rm & Hm & Sm).
  destruct (gt_one (S754_finite false A a)).
  - rewrite bind_assoc. unfold bind at 1. rewrite Hq.
    destruct rq as [nh|e]; [|exists (Raise e); split; [reflexivity|exact Sq]].
    simpl in Sq. destruct (Z.gtb_spec nh ah) as [G|G].
    + rewrite bind_assoc. unfold bind at 1. rewrite Hm.
      destruct rm as [nw|e]; [|exists (Raise e); split; [reflexivity|exact Sm]].
      exists (Ok (nw, ah)). split; [reflexivity|]. simpl. lia.
    + exists (Ok (aw, nh)). split; [reflexivity|]. simpl. lia.
  - rewrite bind_assoc. unfold bind at 1. rewrite Hm.
    destruct rm as [nw|e]; [|exists (Raise e); split; [reflexivity|exact Sm]].
    simpl in Sm. destruct (Z.gtb_spec nw aw) as [G|G].
    + rewrite bind_assoc. unfold bind at 1. rewrite Hq.
      destruct rq as [nh|e]; [|exists (Raise e); split; [reflexivity|exact Sq]].
      exists (Ok (aw, nh)). split; [reflexivity|]. simpl. lia.
    + exists (Ok (nw, ah)). split; [reflexivity|]. simpl. lia.
Qed.

(** ** Degenerate geometry and the fitted size *)

Lemma for_each_first_raises {L A B} (body : B -> A -> M L B) x xs acc log e log' :
  body acc x log = (Raise e, log') ->
  for_each body (x :: xs) acc log = (Raise e, log').
Proof. intros H. simpl. unfold bind. now rewrite H. Qed.

(** Up to the resize loop, [create_storyboard_grid] only computes. *)
Lemma create_until_resize db (first : Image) (rest : list Image) bg columns padding tw th e calls :
  let images := first :: rest in
  let c := valid_columns columns in
  let rws := rows (Z.of_nat (length images)) c in
  resize_step (available tw c padding) (available th rws padding) [] first []
  = (Raise e, calls) ->
  run (create_storyboard_grid db images bg columns padding (tw, th)) = (Raise e, calls).
Proof.
  intros images c rws H. unfold run, create_storyboard_grid.
  change (bool_decide (images = [])) with false. cbv iota.
  assert (Hc : 1 <= c) by apply valid_columns_pos.
  assert (Hn : 1 <= Z.of_nat (length images)) by (unfold images; simpl; lia).
  assert (Hr : 1 <= rws) by (apply rows_pos; assumption).
  rewrite (bind_eq_ok _ _ _ _ _ (parse_bg_color_eq db bg [])).
  fold c.
  rewrite (bind_eq_ok _ _ _ _ _ (floordiv_eq _ c [] ltac:(lia))).
  fold (rows (Z.of_nat (length images)) c). fold rws.
  rewrite (bind_eq_ok _ _ _ _ _ (floordiv_eq _ c [] ltac:(lia))).
  fold (available tw c padding).
  rewrite (bind_eq_ok _ _ _ _ _ (floordiv_eq _ c [] ltac:(lia))).
  fold (rows (Z.of_nat (length images)) c). fold rws.
  rewrite (bind_eq_ok _ _ _ _ _ (floordiv_eq _ rws [] ltac:(lia))).
  fold (available th rws padding).
  apply bind_eq_raise. apply for_each_first_raises. exact H.
Qed.

(** ** The fitted size for cells of up to [2^50] pixels a side *)

(** [int(aw / asp)] against the exact quotient [aw * h / w]: the relative
    error of the float is at most [3u]. *)
Lemma quotient_rel (W H A b v : R) :
  (1 <= W)%R -> (1 <= H)%R -> (1 <= A)%R -> (0 < v)%R ->
  ((1 - u) * v * H <= W <= (1 + u) * v * H)%R ->
  ((1 - u) * b * v <= A <= (1 + u) * b * v)%R ->
  (0 < b)%R /\ (b * W * (1 - 3 * u) <= A * H <= b * W * (1 + 3 * u))%R.
Proof.
  intros HW HH HA Hv [Hv1 Hv2] [Hb1 Hb2].
  assert (Hu : (0 < u < 1 / 4503599627370496)%R) by lra_u.
  assert (Hb : (0 < b)%R).
  { destruct (Rlt_or_le 0 b) as [Hp|Hn]; [exact Hp|].
    assert ((1 + u) * b * v <= 0)%R.
    { replace ((1 + u) * b * v)%R with (b * ((1 + u) * v))%R by ring.
      assert (0 <= (1 + u) * v)%R by (apply Rmult_le_pos; lra_u).
      assert (b * ((1 + u) * v) <= 0 * ((1 + u) * v))%R
        by (apply Rmult_le_compat_r; assumption).
      lra_u. }
    lra_u. }
  split; [exact Hb|].
  assert (Up : (b * W * (1 - u) <= A * H * (1 + u))%R).
  { assert (S1 : (b * (1 - u) * W <= b * (1 - u) * ((1 + u) * v * H))%R).
    { apply Rmult_le_compat_l; [|exact Hv2]. apply Rmult_le_pos; lra_u. }
    assert (S2 : ((1 + u) * H * ((1 - u) * b * v) <= (1 + u) * H * A)%R).
    { apply Rmult_le_compat_l; [|exact Hb1]. apply Rmult_le_pos; lra_u. }
    lra_u. }
  assert (Lo : (A * H * (1 - u) <= b * W * (1 + u))%R).
  { assert (S1 : (b * (1 + u) * ((1 - u) * v * H) <= b * (1 + u) * W)%R).
    { apply Rmult_le_compat_l; [|exact Hv1]. apply Rmult_le_pos; lra_u. }
    assert (S2 : ((1 - u) * H * A <= (1 - u) * H * ((1 + u) * b * v))%R).
    { apply Rmult_le_compat_l; [|exact Hb2]. apply Rmult_le_pos; lra_u. }
    lra_u. }
  assert (HbW : (0 < b * W)%R) by (apply Rmult_lt_0_compat; lra).
  assert (HAH : (0 < A * H)%R) by (apply Rmult_lt_0_compat; lra).
  set (X := (b * W)%R) in *. set (T := (A * H)%R) in *.
  rewrite u_value in *. split; lra.
Qed.

(** [int(ah * asp)] against the exact product [ah * w / h]. *)
Lemma product_rel (W H B c v : R) :
  (1 <= W)%R -> (1 <= H)%R -> (1 <= B)%R -> (0 < v)%R ->
  ((1 - u) * v * H <= W <= (1 + u) * v * H)%R ->
  ((1 - u) * c <= B * v <= (1 + u) * c)%R ->
  (0 < c)%R /\ (c * H * (1 - 3 * u) <= B * W <= c * H * (1 + 3 * u))%R.
Proof.
  intros HW HH HB Hv [Hv1 Hv2] [Hc1 Hc2].
  assert (Hu : (0 < u < 1 / 4503599627370496)%R) by lra_u.
  assert (Hc : (0 < c)%R).
  { assert (0 < B * v)%R by (apply Rmult_lt_0_compat; lra_u).
    destruct (Rlt_or_le 0 c) as [Hp|Hn]; [exact Hp|].
    assert ((1 + u) * c <= (1 + u) * 0)%R by (apply Rmult_le_compat_l; lra_u). lra_u. }
  split; [exact Hc|].
  assert (Up : (c * H * ((1 - u) * (1 - u)) <= B * W)%R).
  { assert (S1 : ((1 - u) * H * ((1 - u) * c) <= (1 - u) * H * (B * v))%R).
    { apply Rmult_le_compat_l; [|exact Hc1]. apply Rmult_le_pos; lra_u. }
    assert (S2 : (B * ((1 - u) * v * H) <= B * W)%R).
    { apply Rmult_le_compat_l; [lra_u|exact Hv1]. }
    lra_u. }
  assert (Lo : (B * W <= c * H * ((1 + u) * (1 + u)))%R).
  { assert (S1 : ((1 + u) * H * (B * v) <= (1 + u) * H * ((1 + u) * c))%R).
    { apply Rmult_le_compat_l; [|exact Hc2]. apply Rmult_le_pos; lra_u. }
    assert (S2 : (B * W <= B * ((1 + u) * v * H))%R).
    { apply Rmult_le_compat_l; [lra_u|exact Hv2]. }
    lra_u. }
  assert (HcH : (0 < c * H)%R) by (apply Rmult_lt_0_compat; lra).
  set (X := (c * H)%R) in *. set (T := (B * W)%R) in *.
  rewrite u_value in *. split; lra.
Qed.

(** An integer [n] read off a float [t] that is within [3u] of the exact
    ratio [T / d] is the ratio rounded down, give or take one. *)
Lemma near_floor (n d T : Z) (t : R) :
  0 < d -> n <= 2 ^ 50 ->
  (IZR n <= t < IZR n + 1)%R -> (0 < t)%R ->
  (t * IZR d * (1 - 3 * u) <= IZR T <= t * IZR d * (1 + 3 * u))%R ->
  Z.abs (n - T / d) <= 1.
Proof.
  intros Hd Hn [Hn1 Hn2] Ht [HT1 HT2].
  assert (HD : (1 <= IZR d)%R) by (apply IZR_le; lia).
  assert (HN : (IZR n <= 1125899906842624)%R) by (apply IZR_le; exact Hn).
  assert (Ht3 : (t * (3 * u) <= 1 / 2)%R) by lra_u.
  assert (E : (t * IZR d * (3 * u) <= IZR d * (1 / 2))%R).
  { replace (t * IZR d * (3 * u))%R with (IZR d * (t * (3 * u)))%R by ring.
    apply Rmult_le_compat_l; lra. }
  assert (X1 : (IZR n * IZR d <= t * IZR d)%R) by (apply Rmult_le_compat_r; lra).
  assert (X2 : (t * IZR d < (IZR n + 1) * IZR d)%R) by (apply Rmult_lt_compat_r; lra).
  set (D := IZR d) in *. set (X := (t * D)%R) in *.
  assert (Lo : (n - 1) * d < T).
  { apply lt_IZR. rewrite mult_IZR, minus_IZR. fold D. lra. }
  assert (Up : T < (n + 2) * d).
  { apply lt_IZR. rewrite mult_IZR, plus_IZR. fold D. lra. }
  assert (Q1 : n - 1 <= T / d) by (apply Z.div_le_lower_bound; lia).
  assert (Q2 : T / d < n + 2) by (apply Z.div_lt_upper_bound; lia).
  lia.
Qed.

(** The two tests of [fitted_size] cannot both fail: when the height
    computed from the width exceeds the cell, the width computed from the
    height does not, and the other way round. *)
Lemma one_side_fits (A B b c v : R) :
  (1 <= A <= 1125899906842624)%R -> (1 <= B <= 1125899906842624)%R -> (0 < v)%R ->
  ((1 - u) * b * v <= A)%R -> ((1 - u) * c <= B * v)%R ->
  (B + 1 <= b)%R -> (A + 1 <= c)%R -> False.
Proof.
  intros HA HB Hv Hb Hc Hb1 Hc1.
  assert (Hu : (0 < u < 1 / 4503599627370496)%R) by lra_u.
  (* (1 - u) (B + 1) v <= A *)
  assert (S1 : ((1 - u) * (B + 1) * v <= A)%R).
  { assert ((1 - u) * (B + 1) * v <= (1 - u) * b * v)%R.
    { apply Rmult_le_compat_r; [lra|]. apply Rmult_le_compat_l; lra. }
    lra. }
  (* (1 - u) (A + 1) <= B v *)
  assert (S2 : ((1 - u) * (A + 1) <= B * v)%R).
  { assert ((1 - u) * (A + 1) <= (1 - u) * c)%R by (apply Rmult_le_compat_l; lra). lra. }
  (* multiply the first by B and bound B v from below *)
  assert (S3 : (B * ((1 - u) * (B + 1) * v) <= B * A)%R)
    by (apply Rmult_le_compat_l; lra).
  assert (S4 : ((1 - u) * (B + 1) * ((1 - u) * (A + 1)) <= (1 - u) * (B + 1) * (B * v))%R).
  { apply Rmult_le_compat_l; [|exact S2]. apply Rmult_le_pos; lra. }
  assert (S5 : (A * B <= A * 1125899906842624)%R) by (apply Rmult_le_compat_l; lra).
  set (P := (A * B)%R) in *.
  assert (S6 : ((1 - u) * (1 - u) * (P + A + B + 1) <= P)%R).
  { unfold P.
    replace ((1 - u) * (1 - u) * (A * B + A + B + 1))%R
      with ((1 - u) * (B + 1) * ((1 - u) * (A + 1)))%R by ring.
    replace ((1 - u) * (B + 1) * (B * v))%R with (B * ((1 - u) * (B + 1) * v))%R in S4 by ring.
    replace (B * A)%R with (A * B)%R in S3 by ring. lra. }
  assert (K : ((1 - u) * (1 - u) = 1 - 2 * u + u * u)%R) by ring.
  rewrite K in S6. rewrite u_value in *. lra.
Qed.

(** The fitted size of an image with sides below [2^53] in a cell with
    sides of at most [2^50]: no error, it fits the cell, one side fills
    the cell and the other keeps the aspect ratio to within a pixel of
    the value rounded down. *)
Lemma fitted_size_fits (aw ah : Z) (img : Image) :
  0 < width img < 2 ^ 53 -> 0 < height img < 2 ^ 53 ->
  0 < aw <= 2 ^ 50 -> 0 < ah <= 2 ^ 50 ->
  exists nw nh,
    (forall log, fitted_size aw ah img log = (Ok (nw, nh), log)) /\
    fits_cell aw ah img nw nh.
Proof.
  intros Bw Bh Baw Bah.
  set (w := width img) in *. set (h := height img) in *.
  destruct (int_truediv_spec (L := call) w h Bw Bh) as (A & a & Hasp & BA & Ba & Hv).
  cbv zeta in Hv.
  pose proof (normal_value_pos A a) as Hvpos.
  destruct (int_div_float_spec (L := call) aw A a ltac:(lia) BA ltac:(lia))
    as (nh & b & Hq & Hnh & Hb).
  destruct (int_mul_float_spec (L := call) ah A a ltac:(lia) BA ltac:(lia))
    as (nw & k & Hm & Hnw & Hk).
  cbv zeta in Hb, Hk.
  set (v := (IZR (Z.pos A) * bpow a)%R) in *.
  assert (HW : (1 <= IZR w)%R) by (apply IZR_le; lia).
  assert (HH : (1 <= IZR h)%R) by (apply IZR_le; lia).
  assert (HA : (1 <= IZR aw <= 1125899906842624)%R) by (split; apply IZR_le; lia).
  assert (HB : (1 <= IZR ah <= 1125899906842624)%R) by (split; apply IZR_le; lia).
  destruct (quotient_rel _ _ _ b v HW HH (proj1 HA) Hvpos Hv Hb) as (Hbpos & Hbrel).
  destruct (product_rel _ _ _ k v HW HH (proj1 HB) Hvpos Hv Hk) as (Hkpos & Hkrel).
  (* the height computed from the width, when it is kept *)
  assert (Fq : nh <= ah -> Z.abs (nh - aw * h / w) <= 1).
  { intros Hle. apply (near_floor nh w (aw * h) b); try lia; try assumption.
    rewrite mult_IZR. exact Hbrel. }
  (* the width computed from the height, when it is kept *)
  assert (Fp : nw <= aw -> Z.abs (nw - ah * w / h) <= 1).
  { intros Hle. apply (near_floor nw h (ah * w) k); try lia; try assumption.
    rewrite mult_IZR. exact Hkrel. }
  (* the two tests do not both fail *)
  assert (One : ah < nh -> aw < nw -> False).
  { intros H1 H2.
    apply (one_side_fits (IZR aw) (IZR ah) b k v HA HB Hvpos (proj1 Hb) (proj1 Hk)).
    - assert (IZR (ah + 1) <= IZR nh)%R by (apply IZR_le; lia).
      rewrite plus_IZR in *. lra.
    - assert (IZR (aw + 1) <= IZR nw)%R by (apply IZR_le; lia).
      rewrite plus_IZR in *. lra. }
  unfold fitted_size, size, fits_cell. fold w h.
  destruct (gt_one (S754_finite false A a)) eqn:G.
  - destruct (Z.gtb_spec nh ah) as [C|C].
    + exists nw, ah. split.
      * intros log. rewrite (bind_eq_ok _ _ _ _ _ (Hasp log)), G.
        rewrite bind_assoc, (bind_eq_ok _ _ _ _ _ (Hq log)).
        destruct (Z.gtb_spec nh ah); [|lia].
        rewrite bind_assoc, (bind_eq_ok _ _ _ _ _ (Hm log)). reflexivity.
      * assert (nw <= aw) by (destruct (Z_le_gt_dec nw aw); [assumption | exfalso; apply One; lia]).
        split; [lia|]. split; [lia|]. right. split; [reflexivity | auto].
    + exists aw, nh. split.
      * intros log. rewrite (bind_eq_ok _ _ _ _ _ (Hasp log)), G.
        rewrite bind_assoc, (bind_eq_ok _ _ _ _ _ (Hq log)).
        destruct (Z.gtb_spec nh ah); [lia|]. reflexivity.
      * split; [lia|]. split; [lia|]. left. split; [reflexivity | auto].
  - destruct (Z.gtb_spec nw aw) as [C|C].
    + exists aw, nh. split.
      * intros log. rewrite (bind_eq_ok _ _ _ _ _ (Hasp log)), G.
        rewrite bind_assoc, (bind_eq_ok _ _ _ _ _ (Hm log)).
        destruct (Z.gtb_spec nw aw); [|lia].
        rewrite bind_assoc, (bind_eq_ok _ _ _ _ _ (Hq log)). reflexivity.
      * assert (nh <= ah) by (destruct (Z_le_gt_dec nh ah); [assumption | exfalso; apply One; lia]).
        split; [lia|]. split; [lia|]. left. split; [reflexivity | auto].
    + exists nw, ah. split.
      * intros log. rewrite (bind_eq_ok _ _ _ _ _ (Hasp log)), G.
        rewrite bind_assoc, (bind_eq_ok _ _ _ _ _ (Hm log)).
        destruct (Z.gtb_spec nw aw); [lia|]. reflexivity.
      * split; [lia|]. split; [lia|]. right. split; [reflexivity | auto].
Qed.


(** The resized version of an image Pillow can hold has sides from 1 to
    [2^31 - 1]. *)
Lemma resized_as_range (aw ah : Z) (img r : Image) :
  pillow_size img -> resized_as aw ah img r ->
  1 <= width r < 2 ^ 31 /\ 1 <= height r < 2 ^ 31.
Proof.
  intros [Hw Hh] (sz & _ & Hres).
  pose proof (resize_outcome_range _ _ _ Hres) as Hrange.
  apply resize_outcome_size in Hres as [Hsz _].
  unfold size in Hsz. destruct sz as [x y]. injection Hsz as -> ->.
  destruct Hrange as [E|E].
  - unfold size in E. injection E as -> ->. lia.
  - exact E.
Qed.

(** In a run that returns, with a first image Pillow can hold, neither
    side of the cell reaches [2^32]. *)
Lemma cell_of_a_run db (img0 : Image) (others : list Image) bg columns padding tw th final calls :
  let images := img0 :: others in
  let c := valid_columns columns in
  let rws := rows (Z.of_nat (length images)) c in
  run (create_storyboard_grid db images bg columns padding (tw, th)) = (Ok final, calls) ->
  pillow_size img0 ->
  available tw c padding < 2 ^ 32 /\ available th rws padding < 2 ^ 32.
Proof.
  intros images c rws H Hp.
  apply create_ok in H as (first & rest & rcalls & _ & HF & _ & H).
  cbv zeta in H. destruct H as (_ & _ & Htw & Hth & Hgw & Hgh).
  fold c rws in HF, Hgw, Hgh.
  inversion HF as [|? ? ? ? Hhead _]; subst.
  apply (resized_as_range _ _ _ _ Hp) in Hhead as [Hcw Hch].
  assert (Hc : 1 <= c) by apply valid_columns_pos.
  assert (Hr : 1 <= rws).
  { apply rows_pos; [unfold images; simpl; lia | exact Hc]. }
  unfold grid_extent in Hgw, Hgh. unfold available.
  split; apply Z.div_lt_upper_bound; try lia; nia.
Qed.


(** ** The claims *)

(** C1: whenever [create_storyboard_grid] returns, the returned image has
    exactly the width and height of [target_size], whatever the images,
    the columns value and the padding. *)
Theorem canvas_size_is_target db images bg columns padding target_size final calls :
  run (create_storyboard_grid db images bg columns padding target_size) = (Ok final, calls) ->
  size final = target_size.
Proof.
  destruct target_size as [tw th]. intros H.
  apply create_ok in H as (first & rest & rcalls & _ & _ & _ & H).
  cbv zeta in H. destruct H as (-> & _). reflexivity.
Qed.

Lemma canvas_size_is_target_witness :
  exists final calls,
    run (create_storyboard_grid sample_db mixed_modes (of_string "#102030") (PyInt 2) 10
           (1280, 720))
    = (Ok final, calls) /\ size final = (1280, 720).
Proof.
  eexists _, _. split; [vm_compute; reflexivity|].
  eapply (canvas_size_is_target sample_db mixed_modes (of_string "#102030") (PyInt 2) 10
            (1280, 720)).
  vm_compute. reflexivity.
Defined.

(** C2: with an empty image list the call raises [ValueError] at once: no
    image is returned, and the call log is untouched, so no canvas (indeed
    nothing at all) was requested from Pillow. *)
Theorem empty_input_raises db bg columns padding target_size :
  (forall log,
      create_storyboard_grid db [] bg columns padding target_size log
      = (Raise (ValueError "No images provided"), log)) /\
  (forall final calls,
      run (create_storyboard_grid db [] bg columns padding target_size) <> (Ok final, calls)) /\
  (run (create_storyboard_grid db [] bg columns padding target_size)).2 = [].
Proof.
  assert (H : forall log,
             create_storyboard_grid db [] bg columns padding target_size log
             = (Raise (ValueError "No images provided"), log)).
  { intros log. unfold create_storyboard_grid.
    destruct (bool_decide_reflect (@nil Image = [])) as [_|N]; [reflexivity|].
    now contradiction N. }
  split; [exact H|]. split.
  - intros final calls. unfold run. rewrite H. discriminate.
  - unfold run. now rewrite H.
Qed.

(** C3, as the code has it: reading the colour never raises.  A string
    the code cannot read gives black for the canvas, for the grid buffer
    and for every canvas requested from Pillow; the code cannot read a
    string with no leading [#], or with a slice [1:3], [3:5], [5:7] that is
    no base-16 literal, which covers every string shorter than six
    characters and every string with, at one of the positions 1 to 6, a
    character that is no [literal] (below 128: neither a hex digit, nor
    whitespace, nor a sign; from 128 on: neither a whitespace nor a
    decimal digit of the Unicode database).  Every other string is read as
    the three integers of its slices, which are passed to Pillow and
    rendered clipped to 0..255 each.  Only the first seven characters are
    read. *)
Theorem background_fallback db bg :
  (forall log, exists col, parse_bg_color db bg log = (Ok col, log)) /\
  (startswith_hash bg = false -> unparsable db bg) /\
  ((length bg < 6)%nat -> unparsable db bg) /\
  (forall i c, (1 <= i <= 6)%nat -> bg !! i = Some c ->
               literal db c = false -> unparsable db bg) /\
  (unparsable db bg ->
   (forall log, parse_bg_color db bg log = (Ok black, log)) /\
   forall images columns padding target_size final calls,
     run (create_storyboard_grid db images bg columns padding target_size) = (Ok final, calls) ->
     background final = Some black /\
     (forall grid xy, In (grid, xy) (pastes final) -> background grid = Some black) /\
     (forall m sz col, In (CallNew m sz col) calls -> col = black)) /\
  (unparsable db bg \/
   exists r g b,
     startswith_hash bg = true /\ int16 db (slice bg 1 3) = Some r /\
     int16 db (slice bg 3 5) = Some g /\ int16 db (slice bg 5 7) = Some b) /\
  (forall r g b,
     startswith_hash bg = true -> int16 db (slice bg 1 3) = Some r ->
     int16 db (slice bg 3 5) = Some g -> int16 db (slice bg 5 7) = Some b ->
     (forall log, parse_bg_color db bg log = (Ok (r, g, b), log)) /\
     forall images columns padding target_size final calls,
       run (create_storyboard_grid db images bg columns padding target_size)
       = (Ok final, calls) ->
       background final = Some (clip8 r, clip8 g, clip8 b) /\
       (forall grid xy, In (grid, xy) (pastes final) ->
                        background grid = Some (clip8 r, clip8 g, clip8 b)) /\
       (forall m sz col, In (CallNew m sz col) calls -> col = (r, g, b))) /\
  (forall log, parse_bg_color db (take 7 bg) log = parse_bg_color db bg log).
Proof.
  assert (Hrun : forall images columns padding target_size final calls,
             run (create_storyboard_grid db images bg columns padding target_size)
             = (Ok final, calls) ->
             background final = Some (ink (bg_color_of db bg)) /\
             (forall grid xy, In (grid, xy) (pastes final) ->
                              background grid = Some (ink (bg_color_of db bg))) /\
             (forall m sz col, In (CallNew m sz col) calls -> col = bg_color_of db bg)).
  { intros images columns padding [tw th] final calls H. split; [|split].
    - apply create_ok in H as (first & rest & rcalls & _ & _ & _ & H).
      cbv zeta in H. destruct H as (-> & _). reflexivity.
    - intros grid xy Hin.
      apply create_grid in H as (g & first & rest & _ & Hp & _ & _ & Hbg & _).
      rewrite Hp in Hin. destruct Hin as [[= <- <-]|[]]. exact Hbg.
    - intros m sz col Hin.
      now destruct (create_new_calls _ _ _ _ _ _ _ _ _ _ _ _ H Hin) as [_ ->]. }
  split; [|split; [|split; [|split; [|split; [|split; [|split]]]]]].
  - intros log. exists (bg_color_of db bg). apply parse_bg_color_eq.
  - intros H. now left.
  - apply short_unparsable.
  - intros i c. apply junk_unparsable.
  - intros Hu. pose proof (bg_color_of_unparsable db bg Hu) as Hb. split.
    + intros log. rewrite parse_bg_color_eq. now rewrite Hb.
    + intros images columns padding target_size final calls H.
      apply Hrun in H. rewrite Hb in H. exact H.
  - unfold unparsable. destruct (startswith_hash bg); [|now left; left].
    destruct (int16 db (slice bg 1 3)) as [r|]; [|left; right; now left].
    destruct (int16 db (slice bg 3 5)) as [g|]; [|left; right; right; now left].
    destruct (int16 db (slice bg 5 7)) as [b|]; [|left; right; right; now right].
    right. exists r, g, b. auto.
  - intros r g b Hs Hr Hg Hb.
    pose proof (bg_color_of_parsed db bg r g b Hs Hr Hg Hb) as E. split.
    + intros log. rewrite parse_bg_color_eq. now rewrite E.
    + intros images columns padding target_size final calls H.
      apply Hrun in H. rewrite E in H. exact H.
  - intros log. rewrite !parse_bg_color_eq. now rewrite bg_color_of_take.
Qed.

Lemma background_fallback_witness :
  unparsable sample_db (of_string "bad") /\
  exists final calls,
    run (create_storyboard_grid sample_db four_squares (of_string "bad") (PyInt 3) 10
           (340, 230))
    = (Ok final, calls) /\ background final = Some black.
Proof.
  assert (Hu : unparsable sample_db (of_string "bad")) by (left; reflexivity).
  split; [exact Hu|].
  eexists _, _. split; [vm_compute; reflexivity|].
  refine (proj1 (proj2 (proj1 (proj2 (proj2 (proj2 (proj2
            (background_fallback sample_db (of_string "bad")))))) Hu)
                   four_squares (PyInt 3) 10 (340, 230) _ _ _)).
  vm_compute. reflexivity.
Defined.

(** C3 as stated fails: a string that is not a 7-character [#RRGGBB]
    string can still be read as a colour.  ["#FFFFFFFF"] has nine
    characters; the code reads its first seven and paints white. *)
Lemma background_fallback_counterexample :
  ~ (forall db bg images columns padding target_size final calls,
        valid_rrggbb bg = false ->
        run (create_storyboard_grid db images bg columns padding target_size)
        = (Ok final, calls) ->
        background final = Some black).
Proof.
  intros H.
  specialize (H sample_db (of_string "#FFFFFFFF") four_squares (PyInt 3) 10 (340, 230)).
  specialize (H _ _ eq_refl ltac:(vm_compute; reflexivity)).
  vm_compute in H. discriminate H.
Qed.

(** Other strings outside the [#RRGGBB] syntax that are read as a colour,
    one of them with fullwidth digits; a negative channel is rendered
    as 0. *)
Example six_characters : bg_color_of sample_db (of_string "#FFFFF") = (255, 255, 15).
Proof. reflexivity. Qed.

Example signed_slices : bg_color_of sample_db (of_string "#+1+2+3") = (1, 2, 3).
Proof. reflexivity. Qed.

Example fullwidth_slices :
  bg_color_of sample_db ([35; 65297; 65298] ++ of_string "3456")%N = (18, 52, 86).
Proof. reflexivity. Qed.

Example negative_slices :
  bg_color_of sample_db (of_string "#-1-2-3") = (-1, -2, -3) /\
  ink (-1, -2, -3) = black.
Proof. split; reflexivity. Qed.

Example valid_colour : bg_color_of sample_db (of_string "#102030") = (16, 32, 48).
Proof. reflexivity. Qed.

Example not_hex_is_black : bg_color_of sample_db (of_string "#GG0000") = black.
Proof. reflexivity. Qed.

(** C4, as the code has it: [rows] is never below 1 and no divisor is
    zero; when the cell has no room ([available_width <= 0] or
    [available_height <= 0]) and the first image has a positive size, the
    call raises before any canvas is requested: the error is the one of
    Pillow's [resize] for a size with a side that is not positive, or an
    error of a float conversion, never a division by zero; there is no
    [LayoutError] and nothing is clamped.  When the two available sizes
    are below [2^53] in magnitude the error is always the one of the
    resize of the first image.  That error is the [ValueError] of the test
    for a side below 1 when both sides are in the range of a C [int], and
    the [OverflowError] of the reading of the size when one is not. *)
Theorem degenerate_geometry_raises db (first : Image) (rest : list Image) bg columns padding
  tw th :
  let images := first :: rest in
  let c := valid_columns columns in
  let rws := rows (Z.of_nat (length images)) c in
  let aw := available tw c padding in
  let ah := available th rws padding in
  0 < width first < 2 ^ 53 -> 0 < height first < 2 ^ 53 ->
  aw <= 0 \/ ah <= 0 ->
  1 <= c /\ 1 <= rws /\
  (exists e calls,
    run (create_storyboard_grid db images bg columns padding (tw, th)) = (Raise e, calls) /\
    exn_class e <> "ZeroDivisionError"%string /\
    exn_class e <> "LayoutError"%string /\
    List.filter is_new_call calls = [] /\
    (calls = [] \/
     exists sz, calls = [CallResize first sz] /\ (sz.1 <= 0 \/ sz.2 <= 0) /\
                e = resize_error sz) /\
    (- 2 ^ 53 < aw < 2 ^ 53 -> - 2 ^ 53 < ah < 2 ^ 53 ->
     exists sz, calls = [CallResize first sz] /\ (sz.1 <= 0 \/ sz.2 <= 0) /\
                e = resize_error sz)) /\
  (forall sz : Z * Z,
     (- 2 ^ 31 <= sz.1 < 2 ^ 31 /\ - 2 ^ 31 <= sz.2 < 2 ^ 31 ->
      resize_error sz = ValueError "height and width must be > 0") /\
     (~ (- 2 ^ 31 <= sz.1 < 2 ^ 31 /\ - 2 ^ 31 <= sz.2 < 2 ^ 31) ->
      exn_class (resize_error sz) = "OverflowError"%string)).
Proof.
  intros images c rws aw ah Bw Bh Hdeg.
  assert (Hc : 1 <= c) by apply valid_columns_pos.
  assert (Hr : 1 <= rws).
  { apply rows_pos; [unfold images; simpl; lia | exact Hc]. }
  split; [exact Hc|]. split; [exact Hr|]. split.
  - destruct (fitted_size_degenerate aw ah first [] Bw Bh Hdeg) as (r & Hfit & Hr').
    destruct r as [sz|e].
    + (* a size with a side that is not positive: the resize fails *)
      simpl in Hr'.
      assert (Hres : resize_outcome first sz = Raise (resize_error sz)).
      { apply resize_outcome_error; [|lia].
        intros E. subst sz. simpl in Hr'. lia. }
      exists (resize_error sz), [CallResize first sz].
      split; [|split; [|split; [|split; [reflexivity|split]]]].
      * apply create_until_resize. unfold resize_step.
        rewrite (bind_eq_ok _ _ _ _ _ Hfit). apply bind_eq_raise.
        rewrite resize_eq, Hres. reflexivity.
      * unfold resize_error. destruct (size_overflow sz); discriminate.
      * unfold resize_error. destruct (size_overflow sz); discriminate.
      * right. exists sz. auto.
      * intros _ _. exists sz. auto.
    + (* a float conversion failed before any call to Pillow *)
      exists e, []. split; [|split; [|split; [|split; [reflexivity|split; [now left|]]]]].
      * apply create_until_resize. unfold resize_step. now apply bind_eq_raise.
      * destruct e; simpl in *; [discriminate|contradiction|discriminate].
      * destruct e; discriminate.
      * intros Baw Bah.
        destruct (fitted_size_total aw ah first Bw Bh Baw Bah) as (sz & Htot).
        rewrite Htot in Hfit. discriminate Hfit.
  - intros sz. unfold resize_error. split.
    + intros Hin. apply size_overflow_none in Hin. now rewrite Hin.
    + intros Hout. destruct (size_overflow sz) eqn:E; [reflexivity|].
      apply size_overflow_none in E. contradiction.
Qed.

Lemma degenerate_geometry_raises_witness :
  exists e calls,
    run (create_storyboard_grid sample_db [sq100 0] (of_string "#000000") (PyInt 3) 1000
           (1920, 1080))
    = (Raise e, calls) /\ exn_class e <> "ZeroDivisionError"%string.
Proof.
  destruct (degenerate_geometry_raises sample_db (sq100 0) [] (of_string "#000000")
              (PyInt 3) 1000 1920 1080)
    as (_ & _ & (e & calls & H & Hz & _) & _).
  - simpl. lia.
  - simpl. lia.
  - left. vm_compute. discriminate.
  - exists e, calls. split; [exact H | exact Hz].
Defined.

(** C4 as stated fails: the code has no [LayoutError]; with three columns
    and a padding of 1000 on a 1920x1080 target the call ends in the
    [ValueError] of [Image.resize]. *)
Lemma degenerate_geometry_counterexample :
  ~ (forall db images bg columns padding tw th,
        images <> [] ->
        let c := valid_columns columns in
        let rws := rows (Z.of_nat (length images)) c in
        available tw c padding <= 0 \/ available th rws padding <= 0 \/ rws <= 0 ->
        exists e calls,
          run (create_storyboard_grid db images bg columns padding (tw, th))
          = (Raise e, calls) /\
          exn_class e = "LayoutError"%string).
Proof.
  intros H.
  destruct (H sample_db [sq100 0] (of_string "#000000") (PyInt 3) 1000 1920 1080
              ltac:(discriminate) ltac:(left; vm_compute; discriminate))
    as (e & calls & Hrun & Hcls).
  vm_compute in Hrun. injection Hrun as <- _. discriminate Hcls.
Qed.

(** The error of the resize in that run, and in a run whose padding is
    [2^32]: there the fitted size is outside the range of a C [int]. *)
Example degenerate_value_error :
  run (create_storyboard_grid sample_db [sq100 0] (of_string "#000000") (PyInt 3) 1000
         (1920, 1080))
  = (Raise (ValueError "height and width must be > 0"),
     [CallResize (sq100 0) (-920, -920)]).
Proof. vm_compute. reflexivity. Qed.

Example degenerate_overflow_error :
  run (create_storyboard_grid sample_db [sq100 0] (of_string "#000000") (PyInt 1)
         (2 ^ 32) (1920, 1080))
  = (Raise (OverflowError "signed integer is less than minimum"),
     [CallResize (sq100 0) (-8589933512, -8589933512)]).
Proof. vm_compute. reflexivity. Qed.

(** The positive size of the first image matters: an image of width 0 in
    a cell without room makes [int(available_width / aspect_ratio)] divide
    by the float zero. *)
Example degenerate_zero_width :
  run (create_storyboard_grid sample_db [Decoded "L" 0 5 0] (of_string "#000000") (PyInt 3)
         1000 (1920, 1080))
  = (Raise (ZeroDivisionError "float division by zero"), []).
Proof. vm_compute. reflexivity. Qed.



(** Past the sizes of the theorem the binary64 arithmetic is no longer
    exact enough: in a cell of [2^53+3] squared (which no canvas of Pillow
    can hold, so that no run with such a cell returns) a 1x1 image gets
    the fitted height [2^53+4], and the resize is refused. *)
Example fitted_size_past_binary64 :
  fitted_size (2 ^ 53 + 3) (2 ^ 53 + 3) (Decoded "L" 1 1 0) []
  = (Ok (2 ^ 53 + 3, 2 ^ 53 + 4), []) /\
  exists msg,
    run (create_storyboard_grid sample_db [Decoded "L" 1 1 0] (of_string "#000000") (PyInt 1)
           0 (2 ^ 53 + 3, 2 ^ 53 + 3))
    = (Raise (OverflowError msg), [CallResize (Decoded "L" 1 1 0) (2 ^ 53 + 3, 2 ^ 53 + 4)]).
Proof. split; [|eexists]; vm_compute; reflexivity. Qed.

(** C6: in a successful run the grid buffer has [columns] cells of the
    first resized image's width plus [columns+1] gaps across, [rows] cells
    of its height plus [rows+1] gaps down, and is filled with the
    background colour; the resized image of index [i] is pasted at row
    [i div columns], column [i mod columns]: its y is the default y of
    that row, and its x is the default x of that column, both computed
    from the first resized image's size, except in a partial final row,
    where x is the default x plus the centring offset. *)
Theorem row_major_placement db images bg columns padding tw th final calls :
  run (create_storyboard_grid db images bg columns padding (tw, th)) = (Ok final, calls) ->
  let c := valid_columns columns in
  let n := Z.of_nat (length images) in
  let rws := rows n c in
  exists grid resized first,
    pastes final = [(grid, (centered tw (width grid), centered th (height grid)))] /\
    Forall2 (resized_as (available tw c padding) (available th rws padding)) images resized /\
    resized !! 0%nat = Some first /\
    width grid = grid_extent c (width first) padding /\
    height grid = grid_extent rws (height first) padding /\
    background grid = Some (ink (bg_color_of db bg)) /\
    In (CallNew "RGB" (width grid, height grid) (bg_color_of db bg)) calls /\
    length (pastes grid) = length images /\
    forall (i : nat) (img : Image),
      resized !! i = Some img ->
      exists x,
        pastes grid !! i
        = Some (img, (x, default_y c padding (height first) (Z.of_nat i))) /\
        (~ (n mod c <> 0 /\ in_last_row n c (Z.of_nat i)) ->
         x = default_x c padding (width first) (Z.of_nat i)) /\
        (n mod c <> 0 /\ in_last_row n c (Z.of_nat i) ->
         x = default_x c padding (width first) (Z.of_nat i)
             + centering_offset n c padding (width first)).
Proof.
  intros H c n rws.
  apply create_grid in H as (grid & first & rest & HF & Hp & Hw & Hh & Hbg & Hnew & Hl).
  fold c n rws in HF, Hw, Hh, Hl.
  exists grid, (first :: rest), first.
  do 7 (split; [first [assumption | reflexivity]|]). split.
  - apply Forall2_length in HF. rewrite HF.
    assert (Hlen : forall k, (k < length (pastes grid))%nat <-> (k < length (first :: rest))%nat).
    { intros k. rewrite <- !lookup_lt_is_Some, Hl, fmap_is_Some. reflexivity. }
    destruct (Nat.lt_trichotomy (length (pastes grid)) (length (first :: rest)))
      as [Hlt|[E|Hgt]]; [|exact E|].
    + apply Hlen in Hlt. lia.
    + apply Hlen in Hgt. lia.
  - intros i img Hi. rewrite Hl, Hi. cbn [fmap option_fmap option_map].
    pose proof (valid_columns_pos columns) as Hc. fold c in Hc.
    destruct (cell_x_spec n c padding (width first) (Z.of_nat i) Hc) as [Hin Hout].
    fold rws in Hin, Hout.
    eexists. split; [reflexivity|]. split; [exact Hout | exact Hin].
Qed.

Lemma row_major_placement_witness :
  exists final calls grid,
    run (create_storyboard_grid sample_db mixed_modes (of_string "#102030") (PyInt 2) 10
           (1280, 720))
    = (Ok final, calls) /\
    pastes final = [(grid, (centered 1280 (width grid), centered 720 (height grid)))].
Proof.
  assert (H : run (create_storyboard_grid sample_db mixed_modes (of_string "#102030")
                     (PyInt 2) 10 (1280, 720))
              = run (create_storyboard_grid sample_db mixed_modes (of_string "#102030")
                       (PyInt 2) 10 (1280, 720)))
    by reflexivity.
  destruct (run (create_storyboard_grid sample_db mixed_modes (of_string "#102030")
                   (PyInt 2) 10 (1280, 720)))
    as [[final|e] calls] eqn:E in H at 2.
  - destruct (row_major_placement sample_db mixed_modes (of_string "#102030") (PyInt 2) 10
                1280 720 final calls H)
      as (grid & resized & first & Hp & _).
    exists final, calls, grid. split; [exact H | exact Hp].
  - vm_compute in E. discriminate E.
Defined.

(** The reference cell is the first resized image even when a later image
    is resized to another size: here the images become 626x469 and
    626x1043, and both are placed with the cell size 626x469. *)
Example reference_cell_is_first :
  exists final calls grid xy,
    run (create_storyboard_grid sample_db [Decoded "RGBA" 640 480 0; Decoded "L" 300 500 1]
           (of_string "#000000") (PyInt 3) 10 (1920, 1080)) = (Ok final, calls) /\
    pastes final = [(grid, xy)] /\
    size grid = (grid_extent 3 626 10, grid_extent 1 469 10) /\
    pastes grid = [(Resized (Decoded "RGBA" 640 480 0) 626 469, (328, 10));
                   (Resized (Decoded "L" 300 500 1) 626 1043, (964, 10))].
Proof. do 4 eexists. vm_compute. repeat split; reflexivity. Qed.

(** Seven images in three columns: two full rows at the default
    positions, and the seventh image alone in the final row, centred. *)
Example seven_in_three_columns :
  exists final calls grid xy,
    run (create_storyboard_grid sample_db (map sq100 [0; 1; 2; 3; 4; 5; 6]%N)
           (of_string "#000000") (PyInt 3) 10 (340, 340)) = (Ok final, calls) /\
    pastes final = [(grid, xy)] /\
    (pastes grid).*2
    = [(10, 10); (120, 10); (230, 10); (10, 120); (120, 120); (230, 120); (120, 230)].
Proof. do 4 eexists. vm_compute. repeat split; reflexivity. Qed.



(** C8: a [columns] value that is not an [int] or is below 1 is replaced
    by 3, without raising: the call is the call with [columns = 3]. *)
Theorem columns_default_is_three columns :
  columns_defaulted columns ->
  valid_columns columns = 3 /\
  forall db images bg padding target_size log,
    create_storyboard_grid db images bg columns padding target_size log
    = create_storyboard_grid db images bg (PyInt 3) padding target_size log.
Proof.
  intros H.
  assert (E : valid_columns columns = 3).
  { destruct columns as [z|b| | |]; simpl in *; try reflexivity.
    - destruct (Z.ltb_spec z 1); [reflexivity | lia].
    - destruct b; simpl in *; [lia | reflexivity]. }
  split; [exact E|].
  intros. unfold create_storyboard_grid. rewrite E. reflexivity.
Qed.

Lemma columns_default_is_three_witness :
  columns_defaulted (PyInt (-4)) /\ columns_defaulted (PyFloat (of_int 2)) /\
  valid_columns (PyInt (-4)) = 3 /\
  run (create_storyboard_grid sample_db four_squares (of_string "#000000")
         (PyFloat (of_int 2)) 10 (340, 230))
  = run (create_storyboard_grid sample_db four_squares (of_string "#000000") (PyInt 3) 10
           (340, 230)).
Proof.
  assert (H1 : columns_defaulted (PyInt (-4))) by (simpl; lia).
  assert (H2 : columns_defaulted (PyFloat (of_int 2))) by exact I.
  split; [exact H1|]. split; [exact H2|]. split.
  - apply (columns_default_is_three (PyInt (-4)) H1).
  - apply (columns_default_is_three (PyFloat (of_int 2)) H2).
Defined.

(** C9: the size selector is resolved through the fixed table, and every
    selector the table does not hold, among them ["1080p (1920x1080)"],
    resolves to the default 1920x1080. *)
Theorem size_selector_resolution :
  target_size_of "4k (3840x2160)" = (3840, 2160) /\
  target_size_of "1440p (2560x1440)" = (2560, 1440) /\
  target_size_of "1080p (1920x1080)" = (1920, 1080) /\
  target_size_of "1920x1080" = (1920, 1080) /\
  target_size_of "720p (1280x720)" = (1280, 720) /\
  forall s : string,
    target_size_of s =
      if decide (s = "4k (3840x2160)"%string) then (3840, 2160)
      else if decide (s = "1440p (2560x1440)"%string) then (2560, 1440)
      else if decide (s = "720p (1280x720)"%string) then (1280, 720)
      else (1920, 1080).
Proof.
  repeat split; try reflexivity.
  intros s. unfold target_size_of, _parse_output_size, size_map.
  repeat case_decide; subst; try reflexivity.
  rewrite lookup_insert_ne by congruence.
  destruct (decide (s = "1920x1080"%string)) as [->|Hs]; [reflexivity|].
  rewrite !lookup_insert_ne by congruence.
  now rewrite lookup_empty.
Qed.

(** C10: the returned canvas is an RGB image, the grid buffer pasted on it
    is an RGB image, and every canvas requested from Pillow during the run
    was requested in mode RGB, whatever the modes of the input images. *)
Theorem output_is_rgb db images bg columns padding target_size final calls :
  run (create_storyboard_grid db images bg columns padding target_size) = (Ok final, calls) ->
  mode final = "RGB"%string /\
  (exists grid xy, pastes final = [(grid, xy)] /\ mode grid = "RGB"%string) /\
  (forall m sz col, In (CallNew m sz col) calls -> m = "RGB"%string) /\
  (exists sz1 sz2 col1 col2,
      List.filter is_new_call calls
      = [CallNew "RGB" sz1 col1; CallNew "RGB" sz2 col2]).
Proof.
  destruct target_size as [tw th]. intros H.
  assert (Hnew : forall m sz col, In (CallNew m sz col) calls -> m = "RGB"%string).
  { intros m sz col Hin. now destruct (create_new_calls _ _ _ _ _ _ _ _ _ _ _ _ H Hin). }
  apply create_ok in H as (first & rest & rcalls & _ & _ & Hres & H).
  cbv zeta in H. destruct H as (-> & -> & _).
  split; [reflexivity|]. split; [|split; [exact Hnew|]].
  - eexists _, _. split; [reflexivity|]. now rewrite placed_mode.
  - do 4 eexists. rewrite !List.filter_app.
    rewrite (filter_none is_new_call rcalls); cycle 1.
    { eapply Forall_impl; [exact Hres|]. now intros []. }
    rewrite (filter_none is_new_call (placed_calls _ _ _ _ _ _ _ _)); cycle 1.
    { eapply Forall_impl; [apply placed_calls_are_pastes|]. now intros []. }
    reflexivity.
Qed.

Lemma output_is_rgb_witness :
  exists final calls,
    run (create_storyboard_grid sample_db mixed_modes (of_string "#102030") (PyInt 2) 10
           (1280, 720))
    = (Ok final, calls) /\ mode final = "RGB"%string.
Proof.
  eexists _, _. split; [vm_compute; reflexivity|].
  refine (proj1 (output_is_rgb sample_db mixed_modes (of_string "#102030") (PyInt 2) 10
                   (1280, 720) _ _ _)).
  vm_compute. reflexivity.
Defined.

(** ** Further properties: how [create_storyboard_grid] fails *)
















(** One turn of the resize loop, by cases. *)
Lemma resize_step_eq (aw ah : Z) (acc : list Image) (img : Image) (log : list call) :
  resize_step aw ah acc img log
  = match fitted aw ah img with
    | Raise e => (Raise e, log)
    | Ok sz =>
        match resize_outcome img sz with
        | Ok r => (Ok (acc ++ [r]), log ++ [CallResize img sz])
        | Raise e => (Raise e, log ++ [CallResize img sz])
        end
    end.
Proof.
  unfold resize_step, bind. rewrite fitted_size_eq.
  destruct (fitted aw ah img) as [sz|e]; [|reflexivity].
  rewrite resize_eq. destruct (resize_outcome img sz); reflexivity.
Qed.








(** ** Further properties: when [create_storyboard_grid] returns *)

Lemma resize_loop_returns (aw ah : Z) (images rs : list Image) :
  Forall2 (resized_as aw ah) images rs ->
  forall acc log,
    exists rcalls,
      for_each (resize_step aw ah) images acc log = (Ok (acc ++ rs), log ++ rcalls).
Proof.
  induction 1 as [|img r images rs (sz & Hfit & Hres) _ IH]; intros acc log.
  - exists []. simpl. unfold ret. now rewrite !app_nil_r.
  - simpl. unfold bind. rewrite resize_step_eq, Hfit, Hres.
    destruct (IH (acc ++ [r]) (log ++ [CallResize img sz])) as (rcalls & ->).
    exists (CallResize img sz :: rcalls). now rewrite <- !app_assoc.
Qed.

Lemma create_returns db (first : Image) (rest images : list Image) bg columns padding tw th :
  let c := valid_columns columns in
  let rws := rows (Z.of_nat (length images)) c in
  Forall2 (resized_as (available tw c padding) (available th rws padding))
    images (first :: rest) ->
  0 <= tw < 2 ^ 31 -> 0 <= th < 2 ^ 31 ->
  0 <= grid_extent c (width first) padding < 2 ^ 31 ->
  0 <= grid_extent rws (height first) padding < 2 ^ 31 ->
  exists final calls,
    run (create_storyboard_grid db images bg columns padding (tw, th)) = (Ok final, calls).
Proof.
  intros c rws HF Htw Hth Hgw Hgh. unfold run, create_storyboard_grid.
  destruct (bool_decide_reflect (images = [])) as [->|Hne]; [inversion HF|].
  set (n := Z.of_nat (length images)) in *.
  assert (Hc : 1 <= c) by apply valid_columns_pos.
  assert (Hn : 1 <= n).
  { subst n. destruct images; [contradiction | simpl; lia]. }
  assert (Hr : 1 <= rws) by (apply rows_pos; assumption).
  rewrite (bind_eq_ok _ _ _ _ _ (parse_bg_color_eq db bg [])).
  fold c.
  rewrite (bind_eq_ok _ _ _ _ _ (floordiv_eq (n + c - 1) c [] ltac:(lia))).
  fold (rows n c). fold rws.
  rewrite (bind_eq_ok _ _ _ _ _ (floordiv_eq _ c [] ltac:(lia))).
  fold (available tw c padding).
  rewrite (bind_eq_ok _ _ _ _ _ (floordiv_eq (n + c - 1) c [] ltac:(lia))).
  fold (rows n c). fold rws.
  rewrite (bind_eq_ok _ _ _ _ _ (floordiv_eq _ rws [] ltac:(lia))).
  fold (available th rws padding).
  destruct (resize_loop_returns _ _ _ _ HF [] []) as (rcalls & Hloop).
  rewrite (bind_eq_ok _ _ _ _ _ Hloop).
  change ([] ++ first :: rest) with (first :: rest).
  change ((first :: rest) !! 0%nat) with (Some first). cbv beta iota.
  rewrite (bind_eq_ok _ _ _ _ _ (new_returns "RGB" tw th _ _ Htw Hth)).
  fold (grid_extent c (width first) padding). fold (grid_extent rws (height first) padding).
  rewrite (bind_eq_ok _ _ _ _ _ (new_returns "RGB" _ _ _ _ Hgw Hgh)).
  rewrite (bind_eq_ok _ _ _ _ _ (modulo_eq n c _ ltac:(lia))).
  match goal with
  | |- context [for_each (place_step ?a ?b ?r ?l ?w ?h) ?items ?g] =>
      rewrite (bind_eq_ok _ _ _ _ _ (placement_loop a b r l w h items ltac:(lia) g _))
  end.
  unfold paste, bind, emit, ret. eauto.
Qed.

(** ** Further properties: the cell and the grid *)

(** In a run that returns, with a first image of positive size, the cell
    is positive. *)
Lemma positive_cell_of_a_run db (img0 : Image) (others : list Image) bg columns padding tw th final calls :
  let images := img0 :: others in
  let c := valid_columns columns in
  let rws := rows (Z.of_nat (length images)) c in
  run (create_storyboard_grid db images bg columns padding (tw, th)) = (Ok final, calls) ->
  pillow_size img0 ->
  0 < available tw c padding /\ 0 < available th rws padding.
Proof.
  intros images c rws H [Hw Hh].
  apply create_ok in H as (first & rest & rcalls & _ & HF & _).
  fold c rws in HF.
  inversion HF as [|? ? ? ? (sz & Hfit & Hres) _]; subst.
  set (aw := available tw c padding) in *. set (ah := available th rws padding) in *.
  destruct (Z.le_gt_cases aw 0) as [Ha|Ha]; [|destruct (Z.le_gt_cases ah 0) as [Hb|Hb]; [|lia]].
  all: exfalso.
  all: destruct (fitted_size_degenerate aw ah img0 [] ltac:(lia) ltac:(lia) ltac:(lia))
         as (r & Hr & Hnz).
  all: unfold fitted, run in Hfit; rewrite Hr in Hfit; simpl in Hfit; subst r.
  all: simpl in Hnz.
  all: apply resize_outcome_range in Hres as [E|E]; [subst sz; simpl in Hnz; lia | lia].
Qed.

(** The first resized image of a run that returns fits the cell. *)
Lemma first_fits_of_a_run db (img0 : Image) (others : list Image) bg columns padding tw th final calls :
  let images := img0 :: others in
  let c := valid_columns columns in
  let rws := rows (Z.of_nat (length images)) c in
  run (create_storyboard_grid db images bg columns padding (tw, th)) = (Ok final, calls) ->
  pillow_size img0 ->
  exists first rest,
    Forall2 (resized_as (available tw c padding) (available th rws padding))
      images (first :: rest) /\
    1 <= width first <= available tw c padding /\
    1 <= height first <= available th rws padding.
Proof.
  intros images c rws H Hp.
  destruct (positive_cell_of_a_run db img0 others bg columns padding tw th final calls H Hp)
    as [Haw Hah].
  destruct (cell_of_a_run db img0 others bg columns padding tw th final calls H Hp)
    as [Caw Cah].
  apply create_ok in H as (first & rest & rcalls & _ & HF & _).
  fold images c rws in HF, Haw, Hah, Caw, Cah.
  exists first, rest. split; [exact HF|].
  inversion HF as [|? ? ? ? Hhead _]; subst.
  destruct (resized_as_range _ _ _ _ Hp Hhead) as [Rw Rh].
  destruct Hhead as (sz & Hfit & Hres).
  destruct Hp as [Hw Hh].
  destruct (fitted_size_fits (available tw c padding) (available th rws padding) img0
              ltac:(lia) ltac:(lia) ltac:(lia) ltac:(lia)) as (nw & nh & E & Hfits).
  unfold fitted, run in Hfit. rewrite E in Hfit. simpl in Hfit. injection Hfit as <-.
  apply resize_outcome_size in Hres as [Hsz _]. injection Hsz as Ew Eh.
  destruct Hfits as (Fw & Fh & _). lia.
Qed.

Lemma available_bound (target k padding : Z) :
  1 <= k -> grid_extent k (available target k padding) padding <= target.
Proof.
  intros Hk. unfold grid_extent, available.
  pose proof (Z.mul_div_le (target - (k + 1) * padding) k ltac:(lia)). lia.
Qed.

Lemma grid_extent_mono (k a b padding : Z) :
  1 <= k -> a <= b -> grid_extent k a padding <= grid_extent k b padding.
Proof. intros Hk Hab. unfold grid_extent. nia. Qed.

Lemma forall_exists_Forall2 {A B} (R : A -> B -> Prop) (l : list A) :
  Forall (fun x => exists y, R x y) l -> exists k, Forall2 R l k.
Proof.
  induction 1 as [|x l [y Hy] _ [k Hk]].
  - exists []. constructor.
  - exists (y :: k). now constructor.
Qed.

(** An image of an aspect ratio the cell can take is resized, to a size
    from 1 up to the cell's. *)
Lemma fits_aspect_resized (aw ah : Z) (img : Image) :
  pillow_size img -> fits_aspect aw ah img -> aw < 2 ^ 31 -> ah < 2 ^ 31 ->
  exists r, resized_as aw ah img r /\ 1 <= width r <= aw /\ 1 <= height r <= ah.
Proof.
  intros [Hw Hh] [Fa Fb] Baw Bah.
  assert (Haw : 0 < aw) by nia. assert (Hah : 0 < ah) by nia.
  destruct (fitted_size_fits aw ah img ltac:(lia) ltac:(lia) ltac:(lia) ltac:(lia))
    as (nw & nh & E & Lw & Lh & Hside).
  assert (Q1 : 2 <= aw * height img / width img) by (apply Z.div_le_lower_bound; lia).
  assert (Q2 : 2 <= ah * width img / height img) by (apply Z.div_le_lower_bound; lia).
  assert (Hpos : 1 <= nw /\ 1 <= nh) by lia.
  assert (Hres : exists r, resize_outcome img (nw, nh) = Ok r).
  { unfold resize_outcome. destruct (bool_decide (size img = (nw, nh))); [eauto|].
    assert (Eo : size_overflow (nw, nh) = None) by (apply size_overflow_none; simpl; lia).
    rewrite Eo. cbn [fst snd].
    destruct (Z.ltb_spec nw 1); [lia|]. destruct (Z.ltb_spec nh 1); [lia|]. simpl. eauto. }
  destruct Hres as (r & Hres). exists r. split.
  - exists (nw, nh). split; [|exact Hres]. unfold fitted, run. now rewrite E.
  - apply resize_outcome_size in Hres as [Hsz _]. injection Hsz as -> ->. lia.
Qed.

(** ** Further properties: the calls of a run *)

Lemma resize_loop_trace (aw ah : Z) (images : list Image) :
  forall acc log out log',
    for_each (resize_step aw ah) images acc log = (Ok out, log') ->
    exists rs rcalls,
      out = acc ++ rs /\ Forall2 (resized_as aw ah) images rs /\
      log' = log ++ rcalls /\ Forall2 (resize_call_of aw ah) images rcalls.
Proof.
  induction images as [|img rest IH]; intros acc log out log' H; simpl in H.
  - injection H as <- <-. exists [], []. rewrite !app_nil_r.
    repeat split; constructor.
  - unfold bind in H. rewrite resize_step_eq in H.
    destruct (fitted aw ah img) as [sz|e1] eqn:Ef; [|discriminate].
    destruct (resize_outcome img sz) as [r|e2] eqn:Er; [|discriminate].
    apply IH in H as (rs & rcalls & -> & HF & -> & Hc).
    exists (r :: rs), (CallResize img sz :: rcalls). rewrite <- !app_assoc.
    split; [reflexivity|]. split; [constructor; [now exists sz | exact HF]|].
    split; [reflexivity|]. constructor; [now exists sz | exact Hc].
Qed.

Lemma placed_calls_trace c p r l cw ch :
  forall (items : list (Z * Image)) (grid : Image),
    Forall2 paste_call_of items.*2 (placed_calls c p r l cw ch items grid).
Proof.
  induction items as [|it items IH]; intros grid; simpl.
  - constructor.
  - constructor; [|apply IH]. now eexists _, _.
Qed.

Lemma enumerate_from_snd {A} (l : list A) : forall i, (enumerate_from i l).*2 = l.
Proof. induction l as [|x l IH]; intros i; simpl; [reflexivity | now rewrite IH]. Qed.

(** The calls of a run that returns. *)
Lemma create_trace db images bg columns padding tw th final calls :
  run (create_storyboard_grid db images bg columns padding (tw, th)) = (Ok final, calls) ->
  let c := valid_columns columns in
  let rws := rows (Z.of_nat (length images)) c in
  let bgc := bg_color_of db bg in
  exists resized grid rcalls pcalls,
    Forall2 (resized_as (available tw c padding) (available th rws padding)) images resized /\
    Forall2 (resize_call_of (available tw c padding) (available th rws padding)) images rcalls /\
    Forall2 paste_call_of resized pcalls /\
    pastes final = [(grid, (centered tw (width grid), centered th (height grid)))] /\
    (pastes grid).*1 = resized /\
    calls = rcalls
            ++ [CallNew "RGB" (tw, th) bgc; CallNew "RGB" (width grid, height grid) bgc]
            ++ pcalls
            ++ [CallPaste (Blank "RGB" tw th (ink bgc)) grid
                  (centered tw (width grid), centered th (height grid))].
Proof.
  intros H c rws bgc. unfold run, create_storyboard_grid in H.
  destruct (bool_decide_reflect (images = [])) as [->|Hne]; [discriminate|].
  set (n := Z.of_nat (length images)) in *.
  assert (Hc : 1 <= c) by apply valid_columns_pos.
  assert (Hn : 1 <= n).
  { subst n. destruct images; [contradiction | simpl; lia]. }
  assert (Hr : 1 <= rws) by (apply rows_pos; assumption).
  rewrite (bind_eq_ok _ _ _ _ _ (parse_bg_color_eq db bg [])) in H.
  fold c bgc in H.
  rewrite (bind_eq_ok _ _ _ _ _ (floordiv_eq (n + c - 1) c [] ltac:(lia))) in H.
  fold (rows n c) in H. fold rws in H.
  rewrite (bind_eq_ok _ _ _ _ _ (floordiv_eq _ c [] ltac:(lia))) in H.
  fold (available tw c padding) in H.
  rewrite (bind_eq_ok _ _ _ _ _ (floordiv_eq (n + c - 1) c [] ltac:(lia))) in H.
  fold (rows n c) in H. fold rws in H.
  rewrite (bind_eq_ok _ _ _ _ _ (floordiv_eq _ rws [] ltac:(lia))) in H.
  fold (available th rws padding) in H.
  apply bind_ok in H as (resized & l1 & Hres & H).
  apply resize_loop_trace in Hres as (rs & rcalls & -> & HF & -> & Hcalls).
  change ([] ++ rs) with rs in *.
  destruct rs as [|first rest].
  { inversion HF; subst. contradiction. }
  change ((first :: rest) !! 0%nat) with (Some first) in H. cbv beta iota in H.
  apply bind_ok in H as (canvas & l2 & Hnew1 & H).
  apply new_ok in Hnew1 as (-> & -> & _). cbn [fst snd] in H.
  apply bind_ok in H as (grid0 & l3 & Hnew2 & H).
  apply new_ok in Hnew2 as (-> & -> & _). cbn [fst snd] in H.
  rewrite (bind_eq_ok _ _ _ _ _ (modulo_eq n c _ ltac:(lia))) in H.
  fold (last_row_count n c) in H.
  rewrite (bind_eq_ok _ _ _ _ _
             (placement_loop c padding rws (last_row_count n c) (width first)
                (height first) _ ltac:(lia) _ _)) in H.
  unfold paste, bind, emit, ret in H. cbn [fst snd] in H.
  injection H as <- <-.
  remember (enumerate_from 0 (first :: rest)) as items eqn:Ei.
  remember (Blank "RGB" (c * width first + (c + 1) * padding)
              (rws * height first + (rws + 1) * padding) (ink bgc)) as g0 eqn:Eg.
  exists (first :: rest),
    (placed c padding rws (last_row_count n c) (width first) (height first) items g0),
    rcalls,
    (placed_calls c padding rws (last_row_count n c) (width first) (height first) items g0).
  assert (Es : items.*2 = first :: rest) by (subst items; apply enumerate_from_snd).
  split; [exact HF|]. split; [exact Hcalls|]. split.
  { rewrite <- Es. apply placed_calls_trace. }
  rewrite placed_width, placed_height.
  assert (Ew : width g0 = c * width first + (c + 1) * padding) by now subst g0.
  assert (Eh : height g0 = rws * height first + (rws + 1) * padding) by now subst g0.
  rewrite Ew, Eh.
  split; [subst items g0; reflexivity|]. split.
  { rewrite placed_pastes. replace (pastes g0) with (@nil (Image * (Z * Z))) by now subst g0.
    rewrite app_nil_l, <- Es. clear. induction items as [|it items IH]; [reflexivity|].
    cbn [map fmap list_fmap]. f_equal. exact IH. }
  subst items g0. rewrite <- !app_assoc. reflexivity.
Qed.


(** The ceiling division of [rows], by cases. *)
Lemma rows_cases (n c : Z) :
  1 <= c -> rows n c = if n mod c =? 0 then n / c else n / c + 1.
Proof.
  intros Hc. unfold rows.
  pose proof (Z.div_mod n c ltac:(lia)) as Dn.
  pose proof (Z.mod_pos_bound n c ltac:(lia)) as Rn.
  destruct (Z.eqb_spec (n mod c) 0) as [E|E].
  - symmetry. apply (Z.div_unique _ _ _ (c - 1)); lia.
  - symmetry. apply (Z.div_unique _ _ _ (n mod c - 1)); lia.
Qed.

(** The row of an index below [n], and its column in the last row. *)
Lemma rows_facts (n c : Z) :
  1 <= n -> 1 <= c ->
  (forall i, 0 <= i < n -> 0 <= i / c < rows n c) /\
  (forall i, 0 <= i < n -> in_last_row n c i -> i mod c < last_row_count n c).
Proof.
  intros Hn Hc. unfold last_row_count, in_last_row. rewrite (rows_cases n c Hc).
  pose proof (Z.div_mod n c ltac:(lia)) as Dn.
  pose proof (Z.mod_pos_bound n c ltac:(lia)) as Rn.
  split.
  - intros i Hi. pose proof (Z.div_mod i c ltac:(lia)) as Di.
    pose proof (Z.mod_pos_bound i c ltac:(lia)) as Ri.
    assert (0 <= i / c) by (apply Z.div_pos; lia).
    destruct (Z.eqb_spec (n mod c) 0) as [E|E]; split; try lia; nia.
  - intros i Hi Hrow. pose proof (Z.div_mod i c ltac:(lia)) as Di.
    pose proof (Z.mod_pos_bound i c ltac:(lia)) as Ri.
    destruct (Z.eqb_spec (n mod c) 0) as [E|E]; [lia|].
    replace (i / c) with (n / c) in Di by lia. lia.
Qed.

(** ** Further properties of [create_storyboard_grid] *)




(** X3: a sufficient condition on the inputs alone: a non-negative
    padding, a target with sides below [2^31], and images Pillow can hold
    whose aspect ratio the cell can take (twice the width is at most the
    cell width times the height, and twice the height at most the cell
    height times the width).  Then [create_storyboard_grid] returns. *)
Theorem compose_succeeds db images bg columns padding tw th :
  let c := valid_columns columns in
  let rws := rows (Z.of_nat (length images)) c in
  let aw := available tw c padding in
  let ah := available th rws padding in
  images <> [] -> Forall pillow_size images -> Forall (fits_aspect aw ah) images ->
  0 <= padding -> tw < 2 ^ 31 -> th < 2 ^ 31 ->
  exists final calls,
    run (create_storyboard_grid db images bg columns padding (tw, th)) = (Ok final, calls).
Proof.
  intros c rws aw ah Hne Hsize Hasp Hpad Htw Hth.
  assert (Hc : 1 <= c) by apply valid_columns_pos.
  assert (Hn : 1 <= Z.of_nat (length images)).
  { destruct images; [contradiction | simpl; lia]. }
  assert (Hr : 1 <= rws) by (apply rows_pos; assumption).
  pose proof (available_bound tw c padding Hc) as Bw. fold aw in Bw.
  pose proof (available_bound th rws padding Hr) as Bh. fold ah in Bh.
  assert (Hcell : 0 < aw /\ 0 < ah).
  { destruct images as [|i0 r0]; [contradiction|].
    inversion Hsize as [|? ? [P1 P2] _]; inversion Hasp as [|? ? [Q1 Q2] _]; subst. nia. }
  destruct Hcell as [Haw Hah].
  assert (Law : aw < 2 ^ 31) by (unfold grid_extent in Bw; nia).
  assert (Lah : ah < 2 ^ 31) by (unfold grid_extent in Bh; nia).
  assert (Hall : Forall (fun img => exists r, resized_as aw ah img r /\
                           1 <= width r <= aw /\ 1 <= height r <= ah) images).
  { rewrite Forall_forall in *. intros img Hi.
    apply fits_aspect_resized; auto. }
  apply forall_exists_Forall2 in Hall as (rs & HF).
  destruct rs as [|first rest]; [inversion HF; subst; contradiction|].
  assert (Hfirst : 1 <= width first <= aw /\ 1 <= height first <= ah).
  { inversion HF as [|? ? ? ? (_ & Hb) _]; subst. exact Hb. }
  apply (create_returns db first rest).
  - eapply Forall2_impl; [exact HF|]. intros ? ? [Hres _]. exact Hres.
  - unfold grid_extent in Bw. nia.
  - unfold grid_extent in Bh. nia.
  - fold c. pose proof (grid_extent_mono c (width first) aw padding Hc ltac:(lia)).
    unfold grid_extent in *. nia.
  - fold c rws. pose proof (grid_extent_mono rws (height first) ah padding Hr ltac:(lia)).
    unfold grid_extent in *. nia.
Qed.

Lemma compose_succeeds_witness :
  exists final calls,
    run (create_storyboard_grid sample_db mixed_modes (of_string "#102030") (PyInt 2) 10
           (1280, 720))
    = (Ok final, calls).
Proof.
  apply (compose_succeeds sample_db mixed_modes (of_string "#102030") (PyInt 2) 10 1280 720).
  - discriminate.
  - repeat constructor; vm_compute; congruence.
  - repeat constructor; vm_compute; congruence.
  - lia.
  - lia.
  - lia.
Defined.

(** X4: in a run that returns, with a first image Pillow can hold, the
    grid buffer is never larger than the canvas, whatever the padding: the
    clamp [max(0, ...)] of the paste position never takes effect, the grid
    is pasted at half the free space, and the margins on both sides differ
    by at most one pixel. *)
Theorem grid_within_canvas db (img0 : Image) (others : list Image) bg columns padding tw th
    final calls :
  run (create_storyboard_grid db (img0 :: others) bg columns padding (tw, th))
  = (Ok final, calls) ->
  pillow_size img0 ->
  exists grid x y,
    pastes final = [(grid, (x, y))] /\
    width grid <= tw /\ height grid <= th /\
    x = (tw - width grid) / 2 /\ y = (th - height grid) / 2 /\
    0 <= x /\ 0 <= y /\
    0 <= (tw - (x + width grid)) - x <= 1 /\
    0 <= (th - (y + height grid)) - y <= 1.
Proof.
  intros H Hp.
  destruct (first_fits_of_a_run db img0 others bg columns padding tw th final calls H Hp)
    as (first & rest & HF & Hw & Hh).
  apply create_grid in H as (grid & first' & rest' & HF' & Hpastes & Gw & Gh & _).
  assert (E : first' = first).
  { clear - HF HF'.
    inversion HF as [|? ? ? ? (sz & Hf & Hr) _]; subst.
    inversion HF' as [|? ? ? ? (sz' & Hf' & Hr') _]; subst.
    rewrite Hf in Hf'. injection Hf' as <-. rewrite Hr in Hr'. now injection Hr'. }
  subst first'.
  set (c := valid_columns columns) in *.
  set (rws := rows (Z.of_nat (length (img0 :: others))) c) in *.
  assert (Hc : 1 <= c) by apply valid_columns_pos.
  assert (Hr : 1 <= rws) by (apply rows_pos; [simpl; lia | exact Hc]).
  pose proof (available_bound tw c padding Hc) as Bw.
  pose proof (available_bound th rws padding Hr) as Bh.
  pose proof (grid_extent_mono c (width first) _ padding Hc (proj2 Hw)) as Mw.
  pose proof (grid_extent_mono rws (height first) _ padding Hr (proj2 Hh)) as Mh.
  assert (Lw : width grid <= tw) by lia.
  assert (Lh : height grid <= th) by lia.
  exists grid, ((tw - width grid) / 2), ((th - height grid) / 2).
  pose proof (Z.div_pos (tw - width grid) 2 ltac:(lia) ltac:(lia)) as Px.
  pose proof (Z.div_pos (th - height grid) 2 ltac:(lia) ltac:(lia)) as Py.
  split.
  { rewrite Hpastes. unfold centered. now rewrite !Z.max_r by lia. }
  pose proof (Z.div_mod (tw - width grid) 2 ltac:(lia)) as Dx.
  pose proof (Z.mod_pos_bound (tw - width grid) 2 ltac:(lia)) as Rx.
  pose proof (Z.div_mod (th - height grid) 2 ltac:(lia)) as Dy.
  pose proof (Z.mod_pos_bound (th - height grid) 2 ltac:(lia)) as Ry.
  repeat split; lia.
Qed.

Lemma grid_within_canvas_witness :
  exists final calls grid x y,
    run (create_storyboard_grid sample_db mixed_modes (of_string "#102030") (PyInt 2) 10
           (1280, 720))
    = (Ok final, calls) /\
    pastes final = [(grid, (x, y))] /\ width grid <= 1280 /\ 0 <= x.
Proof.
  assert (Hrun : exists final calls,
             run (create_storyboard_grid sample_db mixed_modes (of_string "#102030") (PyInt 2) 10
                    (1280, 720)) = (Ok final, calls)).
  { eexists _, _. vm_compute. reflexivity. }
  destruct Hrun as (final & calls & H).
  destruct (grid_within_canvas sample_db _ _ _ _ _ _ _ final calls H)
    as (grid & x & y & Hp & Hw & _ & _ & _ & Hx & _).
  - repeat split; vm_compute; congruence.
  - exists final, calls, grid, x, y. repeat split; assumption.
Defined.

(** X5: the cell side is the largest for which the cells and the
    paddings around them fit in the target: [k] cells of side [w] and
    [k + 1] paddings take at most [target] pixels exactly when [w] is at
    most [available target k padding]. *)
Theorem cell_is_largest (target k padding w : Z) :
  1 <= k ->
  (grid_extent k w padding <= target <-> w <= available target k padding).
Proof.
  intros Hk. unfold grid_extent, available. split.
  - intros H. apply Z.div_le_lower_bound; lia.
  - intros H.
    pose proof (Z.mul_div_le (target - (k + 1) * padding) k ltac:(lia)). nia.
Qed.

Lemma cell_is_largest_witness :
  grid_extent 3 626 10 <= 1920 /\ 626 <= available 1920 3 10.
Proof.
  assert (H : grid_extent 3 626 10 <= 1920) by (vm_compute; discriminate).
  split; [exact H|].
  exact (proj1 (cell_is_largest 1920 3 10 626 ltac:(lia)) H).
Defined.

(** X6: [rows] is the number of rows the images take: the least [r]
    with [r * columns >= n].  All rows before the last are full and the
    last one holds [last_row_count] images, from 1 to [columns]; an index
    below [n] lies in one of the rows. *)
Theorem rows_is_ceiling (n c : Z) :
  1 <= n -> 1 <= c ->
  (forall r, n <= r * c <-> rows n c <= r) /\
  n = (rows n c - 1) * c + last_row_count n c /\
  1 <= last_row_count n c <= c /\
  (forall i, 0 <= i < n -> 0 <= i / c < rows n c) /\
  (forall i, 0 <= i < n -> in_last_row n c i -> i mod c < last_row_count n c).
Proof.
  intros Hn Hc.
  destruct (rows_facts n c Hn Hc) as [Hrow Hlast].
  pose proof (rows_cases n c Hc) as Hrows.
  pose proof (Z.div_mod n c ltac:(lia)) as Dn.
  pose proof (Z.mod_pos_bound n c ltac:(lia)) as Rn.
  assert (Hq : 0 <= n / c) by (apply Z.div_pos; lia).
  split; [|split; [|split; [|split]]]; [| | |exact Hrow|exact Hlast].
  - intros r. rewrite Hrows.
    destruct (Z.eqb_spec (n mod c) 0) as [E|E]; split; intros H; nia.
  - unfold last_row_count. rewrite Hrows.
    destruct (Z.eqb_spec (n mod c) 0) as [E|E]; lia.
  - unfold last_row_count. destruct (Z.eqb_spec (n mod c) 0) as [E|E]; lia.
Qed.

Lemma rows_is_ceiling_witness :
  rows 7 3 = 3 /\ last_row_count 7 3 = 1 /\ 7 = (rows 7 3 - 1) * 3 + last_row_count 7 3.
Proof.
  split; [reflexivity|]. split; [reflexivity|].
  exact (proj1 (proj2 (rows_is_ceiling 7 3 ltac:(lia) ltac:(lia)))).
Defined.

(** X7: the calls of a run that returns, in order: one resize for each
    input image, in the order of the list, with its fitted size; the
    canvas and then the grid buffer from [Image.new]; one paste for each
    resized image, in the same order; and the paste of the grid on the
    canvas: [2 * n + 3] calls of [Image.resize], [Image.new] and
    [Image.paste] for [n] images. *)
Theorem call_protocol db images bg columns padding tw th final calls :
  run (create_storyboard_grid db images bg columns padding (tw, th)) = (Ok final, calls) ->
  let c := valid_columns columns in
  let rws := rows (Z.of_nat (length images)) c in
  let bgc := bg_color_of db bg in
  exists resized grid rcalls pcalls,
    calls = rcalls
            ++ [CallNew "RGB" (tw, th) bgc; CallNew "RGB" (width grid, height grid) bgc]
            ++ pcalls
            ++ [CallPaste (Blank "RGB" tw th (ink bgc)) grid
                  (centered tw (width grid), centered th (height grid))] /\
    Forall2 (resize_call_of (available tw c padding) (available th rws padding)) images rcalls /\
    Forall2 (resized_as (available tw c padding) (available th rws padding)) images resized /\
    Forall2 paste_call_of resized pcalls /\
    (pastes grid).*1 = resized /\
    pastes final = [(grid, (centered tw (width grid), centered th (height grid)))] /\
    length calls = (2 * length images + 3)%nat.
Proof.
  intros H c rws bgc.
  apply create_trace in H as (resized & grid & rcalls & pcalls & HF & Hrc & Hpc & Hp & Hg & ->).
  fold c rws bgc in HF, Hrc |- *.
  exists resized, grid, rcalls, pcalls.
  apply Forall2_length in HF as L1. apply Forall2_length in Hrc as L2.
  apply Forall2_length in Hpc as L3.
  repeat split; try assumption.
  rewrite !length_app. simpl. lia.
Qed.

Lemma call_protocol_witness :
  exists final calls,
    run (create_storyboard_grid sample_db mixed_modes (of_string "#102030") (PyInt 2) 10
           (1280, 720))
    = (Ok final, calls) /\ length calls = 9%nat.
Proof.
  eexists _, _. split; [vm_compute; reflexivity|].
  destruct (call_protocol sample_db mixed_modes (of_string "#102030") (PyInt 2) 10 1280 720
              _ _ ltac:(vm_compute; reflexivity))
    as (resized & grid & rcalls & pcalls & _ & _ & _ & _ & _ & _ & Hlen).
  exact Hlen.
Defined.

Lemma check_hex_all : forallb (fun a => forallb (check_hex a) all_ascii) all_ascii = true.
Proof. vm_compute. reflexivity. Qed.

(** [int(s, 16)] of two ASCII hex digits. *)
Lemma int16_hex_pair (db : unicode_db) (a b : N) (x y : Z) :
  hex_value a = Some x -> hex_value b = Some y ->
  int16 db [a; b] = Some (16 * x + y) /\ 0 <= x < 16 /\ 0 <= y < 16.
Proof.
  unfold hex_value. intros Ha Hb.
  destruct (N.ltb_spec a 128) as [La|_]; [|discriminate].
  destruct (N.ltb_spec b 128) as [Lb|_]; [|discriminate].
  pose proof check_hex_all as Hall.
  rewrite forallb_forall in Hall.
  specialize (Hall (ascii_of_N a) (in_all_ascii _)).
  rewrite forallb_forall in Hall.
  specialize (Hall (ascii_of_N b) (in_all_ascii _)).
  unfold check_hex in Hall. rewrite Ha, Hb in Hall.
  apply andb_prop in Hall as [Hall Y2]. apply andb_prop in Hall as [Hall Y1].
  apply andb_prop in Hall as [Hall X2]. apply andb_prop in Hall as [Hall X1].
  apply bool_decide_eq_true in Hall.
  split; [|lia].
  unfold int16, transform, is_ascii. cbn [forallb].
  destruct (N.ltb_spec a 128); [|lia]. destruct (N.ltb_spec b 128); [|lia].
  cbn [andb]. exact Hall.
Qed.

(** X8: a string of the documented syntax, [#] and six hex digits of
    either case, is read as the colour it stands for, under every Unicode
    database; each channel is from 0 to 255, so that Pillow draws the
    colour unchanged, and it is the background of the returned image. *)
Theorem valid_colour_is_read db (s : str) :
  valid_rrggbb s = true ->
  exists r g b,
    rrggbb_value s = Some (r, g, b) /\
    (forall log, parse_bg_color db s log = (Ok (r, g, b), log)) /\
    0 <= r <= 255 /\ 0 <= g <= 255 /\ 0 <= b <= 255 /\
    forall images columns padding tw th final calls,
      run (create_storyboard_grid db images s columns padding (tw, th)) = (Ok final, calls) ->
      background final = Some (r, g, b).
Proof.
  intros Hv.
  destruct s as [|h [|a [|b [|c [|d [|e [|f [|]]]]]]]]; try discriminate Hv.
  cbn [valid_rrggbb forallb] in Hv.
  apply andb_prop in Hv as [Hh Hv]. apply N.eqb_eq in Hh. subst h.
  apply andb_prop in Hv as [Ha Hv]. apply andb_prop in Hv as [Hb Hv].
  apply andb_prop in Hv as [Hc Hv]. apply andb_prop in Hv as [Hd Hv].
  apply andb_prop in Hv as [He Hv]. apply andb_prop in Hv as [Hf _].
  apply bool_decide_eq_true in Ha as [xa Ha]. apply bool_decide_eq_true in Hb as [xb Hb].
  apply bool_decide_eq_true in Hc as [xc Hc]. apply bool_decide_eq_true in Hd as [xd Hd].
  apply bool_decide_eq_true in He as [xe He]. apply bool_decide_eq_true in Hf as [xf Hf].
  destruct (int16_hex_pair db a b xa xb Ha Hb) as (I1 & ? & ?).
  destruct (int16_hex_pair db c d xc xd Hc Hd) as (I2 & ? & ?).
  destruct (int16_hex_pair db e f xe xf He Hf) as (I3 & ? & ?).
  exists (16 * xa + xb), (16 * xc + xd), (16 * xe + xf).
  cbn [rrggbb_value]. rewrite Ha, Hb, Hc, Hd, He, Hf.
  split; [reflexivity|].
  assert (Hbg : bg_color_of db [35%N; a; b; c; d; e; f]
                = (16 * xa + xb, 16 * xc + xd, 16 * xe + xf)).
  { apply bg_color_of_parsed; [reflexivity | exact I1 | exact I2 | exact I3]. }
  split; [intros log; rewrite parse_bg_color_eq, Hbg; reflexivity|].
  split; [lia|]. split; [lia|]. split; [lia|].
  intros images columns padding tw th final calls Hrun.
  apply create_ok in Hrun as (first & rest & rcalls & _ & _ & _ & Hrun).
  cbv zeta in Hrun. destruct Hrun as (-> & _).
  cbn [background]. rewrite Hbg. unfold ink, clip8. cbn [fst snd].
  repeat match goal with
         | |- context [?v <=? 0] => destruct (Z.leb_spec v 0)
         | |- context [?v <? 256] => destruct (Z.ltb_spec v 256)
         end; try lia; repeat f_equal; lia.
Qed.

Lemma valid_colour_is_read_witness :
  exists r g b,
    rrggbb_value (of_string "#1a2B3c") = Some (r, g, b) /\
    parse_bg_color sample_db (of_string "#1a2B3c") [] = (Ok (r, g, b), []) /\
    (r, g, b) = (26, 43, 60).
Proof.
  destruct (valid_colour_is_read sample_db (of_string "#1a2B3c") ltac:(vm_compute; reflexivity))
    as (r & g & b & Hv & Hp & _).
  exists r, g, b. split; [exact Hv|]. split; [apply Hp|].
  vm_compute in Hv. now injection Hv as <- <- <-.
Defined.

(** The fitted size depends on the size of the image only. *)
Lemma fitted_ext (aw ah : Z) (img img' : Image) :
  size img = size img' -> fitted aw ah img = fitted aw ah img'.
Proof. intros E. unfold fitted, run, fitted_size. now rewrite E. Qed.

(** A cell of the grid lies inside the grid buffer, a padding away from
    its border. *)
Lemma cell_inside (n c p cw ch i : Z) :
  1 <= n -> 1 <= c -> 0 <= p -> 0 <= cw -> 0 <= ch -> 0 <= i < n ->
  p <= cell_x c p (rows n c) (last_row_count n c) cw i /\
  cell_x c p (rows n c) (last_row_count n c) cw i + cw + p <= grid_extent c cw p /\
  p <= cell_y c p ch i /\
  cell_y c p ch i + ch + p <= grid_extent (rows n c) ch p.
Proof.
  intros Hn Hc Hp Hcw Hch Hi.
  destruct (rows_facts n c Hn Hc) as (Hrow & Hlast).
  specialize (Hrow i Hi). specialize (Hlast i Hi).
  pose proof (Z.mod_pos_bound i c ltac:(lia)) as Hm.
  unfold cell_x, cell_y, grid_extent.
  set (q := i / c) in *. set (m := i mod c) in *. set (l := last_row_count n c) in *.
  set (r := rows n c) in *.
  assert (Y1 : 0 <= q * (ch + p)) by nia.
  assert (Y2 : (q + 1) * (ch + p) <= r * (ch + p)) by nia.
  assert (X1 : 0 <= m * (cw + p)) by nia.
  assert (X2 : (m + 1) * (cw + p) <= c * (cw + p)) by nia.
  split; [|split; [|split]]; try nia.
  - destruct (Z.eqb_spec q (r - 1)) as [E|E]; destruct (Z.ltb_spec l c) as [L|L]; cbn [andb];
      try lia.
    assert (0 <= (c - l) * (cw + p) / 2) by (apply Z.div_pos; nia). lia.
  - destruct (Z.eqb_spec q (r - 1)) as [E|E]; destruct (Z.ltb_spec l c) as [L|L]; cbn [andb];
      try nia.
    assert (Hml : m < l) by (apply Hlast; exact E).
    assert (O1 : 0 <= (c - l) * (cw + p)) by nia.
    assert (O2 : (c - l) * (cw + p) / 2 <= (c - l) * (cw + p)).
    { apply Z.div_le_upper_bound; lia. }
    assert (X3 : (m + 1) * (cw + p) <= l * (cw + p)) by nia.
    nia.
Qed.

(** Two cells of the grid are a padding apart. *)
Lemma cells_apart (n c p cw ch i j : Z) :
  1 <= c -> 0 <= p -> 0 <= cw -> 0 <= ch -> 0 <= i -> 0 <= j -> i <> j ->
  let x k := cell_x c p (rows n c) (last_row_count n c) cw k in
  let y k := cell_y c p ch k in
  x i + cw + p <= x j \/ x j + cw + p <= x i \/
  y i + ch + p <= y j \/ y j + ch + p <= y i.
Proof.
  intros Hc Hp Hcw Hch Hi Hj Hij x y. subst x y. cbv beta.
  pose proof (Z.div_mod i c ltac:(lia)) as Di.
  pose proof (Z.div_mod j c ltac:(lia)) as Dj.
  pose proof (Z.mod_pos_bound i c ltac:(lia)) as Mi.
  pose proof (Z.mod_pos_bound j c ltac:(lia)) as Mj.
  unfold cell_x, cell_y.
  set (qi := i / c) in *. set (mi := i mod c) in *.
  set (qj := j / c) in *. set (mj := j mod c) in *.
  destruct (Z.lt_trichotomy qi qj) as [L|[E|L]].
  - right. right. left.
    assert ((qi + 1) * (ch + p) <= qj * (ch + p)) by nia. lia.
  - rewrite <- E.
    destruct ((qi =? rows n c - 1) && (last_row_count n c <? c)).
    + destruct (Z.lt_trichotomy mi mj) as [M|[M|M]].
      * left. assert ((mi + 1) * (cw + p) <= mj * (cw + p)) by nia. lia.
      * exfalso. apply Hij. rewrite Di, Dj, E, M. reflexivity.
      * right. left. assert ((mj + 1) * (cw + p) <= mi * (cw + p)) by nia. lia.
    + destruct (Z.lt_trichotomy mi mj) as [M|[M|M]].
      * left. assert ((mi + 1) * (cw + p) <= mj * (cw + p)) by nia. lia.
      * exfalso. apply Hij. rewrite Di, Dj, E, M. reflexivity.
      * right. left. assert ((mj + 1) * (cw + p) <= mi * (cw + p)) by nia. lia.
  - right. right. right.
    assert ((qj + 1) * (ch + p) <= qi * (ch + p)) by nia. lia.
Qed.

(** X9: with images of one size (and a padding that is not negative)
    the grid is a clean tiling: every resized image has the size of the
    reference cell, every cell lies inside the grid buffer at least a
    padding away from its border, and two cells are at least a padding
    apart, so that no image covers another and none is cropped. *)
Theorem uniform_images_tile db (img0 : Image) (others : list Image) bg columns padding tw th
    final calls :
  run (create_storyboard_grid db (img0 :: others) bg columns padding (tw, th))
  = (Ok final, calls) ->
  pillow_size img0 -> Forall (fun img => size img = size img0) others -> 0 <= padding ->
  exists grid xy cw ch,
    pastes final = [(grid, xy)] /\ 1 <= cw /\ 1 <= ch /\
    length (pastes grid) = length (img0 :: others) /\
    (forall (i : nat) r x y,
       pastes grid !! i = Some (r, (x, y)) ->
       width r = cw /\ height r = ch /\
       padding <= x /\ x + cw + padding <= width grid /\
       padding <= y /\ y + ch + padding <= height grid) /\
    (forall (i j : nat) ri xi yi rj xj yj,
       i <> j ->
       pastes grid !! i = Some (ri, (xi, yi)) -> pastes grid !! j = Some (rj, (xj, yj)) ->
       xi + cw + padding <= xj \/ xj + cw + padding <= xi \/
       yi + ch + padding <= yj \/ yj + ch + padding <= yi).
Proof.
  intros H Hp Hsame Hpad.
  apply create_grid in H as (grid & first & rest & HF & Hpastes & Gw & Gh & _ & _ & Hl).
  set (images := img0 :: others) in *.
  set (c := valid_columns columns) in *.
  set (n := Z.of_nat (length images)) in *.
  set (rws := rows n c) in *.
  set (aw := available tw c padding) in *. set (ah := available th rws padding) in *.
  assert (Hc : 1 <= c) by apply valid_columns_pos.
  assert (Hn : 1 <= n) by (unfold n, images; simpl; lia).
  assert (Hfirst : resized_as aw ah img0 first).
  { inversion HF; subst; assumption. }
  destruct (resized_as_range _ _ _ _ Hp Hfirst) as [Rw Rh].
  assert (Hlen : length (first :: rest) = length images).
  { symmetry. eapply Forall2_length, HF. }
  assert (Hsize : forall (i : nat) r, (first :: rest) !! i = Some r -> size r = size first).
  { intros i r Hi.
    destruct (Forall2_lookup_r _ _ _ _ _ HF Hi) as (img & Himg & sz & Hfit & Hres).
    assert (Es : size img = size img0).
    { destruct i as [|i]; [simpl in Himg; now injection Himg as <-|].
      simpl in Himg. rewrite Forall_forall in Hsame.
      apply Hsame. eapply list_elem_of_lookup_2, Himg. }
    destruct Hfirst as (sz0 & Hfit0 & Hres0).
    rewrite (fitted_ext aw ah img img0 Es), Hfit0 in Hfit. injection Hfit as <-.
    apply resize_outcome_size in Hres as [-> _].
    apply resize_outcome_size in Hres0 as [-> _]. reflexivity. }
  assert (Hentry : forall (i : nat) r x y,
            pastes grid !! i = Some (r, (x, y)) ->
            (first :: rest) !! i = Some r /\ 0 <= Z.of_nat i < n /\
            x = cell_x c padding rws (last_row_count n c) (width first) (Z.of_nat i) /\
            y = cell_y c padding (height first) (Z.of_nat i)).
  { intros i r x y Hi. rewrite Hl in Hi.
    destruct ((first :: rest) !! i) as [r'|] eqn:Er; [|discriminate].
    cbn [fmap option_fmap option_map] in Hi. injection Hi as -> <- <-.
    apply lookup_lt_Some in Er. rewrite Hlen in Er.
    repeat split; try reflexivity; unfold n; lia. }
  exists grid, (centered tw (width grid), centered th (height grid)), (width first), (height first).
  split; [exact Hpastes|]. split; [lia|]. split; [lia|]. split; [|split].
  - assert (Hiff : forall k, (k < length (pastes grid))%nat <-> (k < length (first :: rest))%nat).
    { intros k. rewrite <- !lookup_lt_is_Some, Hl, fmap_is_Some. reflexivity. }
    rewrite <- Hlen.
    destruct (Nat.lt_trichotomy (length (pastes grid)) (length (first :: rest)))
      as [Hlt|[E|Hgt]]; [|exact E|].
    + apply Hiff in Hlt. lia.
    + apply Hiff in Hgt. lia.
  - intros i r x y Hi.
    destruct (Hentry i r x y Hi) as (Hr & Hin & -> & ->).
    apply Hsize in Hr. unfold size in Hr. injection Hr as -> ->.
    split; [reflexivity|]. split; [reflexivity|].
    rewrite Gw, Gh.
    apply (cell_inside n c padding (width first) (height first) (Z.of_nat i)); lia.
  - intros i j ri xi yi rj xj yj Hij Hi Hj.
    destruct (Hentry i ri xi yi Hi) as (_ & Hin & -> & ->).
    destruct (Hentry j rj xj yj Hj) as (_ & Hjn & -> & ->).
    apply (cells_apart n c padding (width first) (height first) (Z.of_nat i) (Z.of_nat j));
      lia.
Qed.

Lemma uniform_images_tile_witness :
  exists final calls grid xy,
    run (create_storyboard_grid sample_db four_squares (of_string "#000000") (PyInt 3) 10
           (1920, 1080))
    = (Ok final, calls) /\
    pastes final = [(grid, xy)] /\ length (pastes grid) = 4%nat.
Proof.
  assert (Hrun : exists final calls,
             run (create_storyboard_grid sample_db four_squares (of_string "#000000") (PyInt 3)
                    10 (1920, 1080)) = (Ok final, calls)).
  { eexists _, _. vm_compute. reflexivity. }
  destruct Hrun as (final & calls & H).
  destruct (uniform_images_tile sample_db _ _ _ _ _ _ _ final calls H)
    as (grid & xy & cw & ch & Hp & _ & _ & Hlen & _).
  - repeat split; vm_compute; congruence.
  - repeat constructor.
  - lia.
  - exists final, calls, grid, xy. repeat split; assumption.
Defined.

(** The condition of the tiling is needed: the layout takes the size of
    the first resized image for every cell.  With a narrow image first
    and two wide ones after it, the wide ones (626 pixels across) are
    pasted 275 pixels apart, over one another, and the last one reaches
    past the right border of the grid buffer, which is 835 pixels wide. *)
Example mixed_shapes_overlap :
  exists final calls grid xy r1 r2,
    run (create_storyboard_grid sample_db
           [Decoded "RGB" 100 400 0; Decoded "RGB" 400 100 1; Decoded "RGB" 400 100 2]
           (of_string "#000000") (PyInt 3) 10 (1920, 1080))
    = (Ok final, calls) /\
    pastes final = [(grid, xy)] /\ width grid = 835 /\
    pastes grid !! 1%nat = Some (r1, (285, 10)) /\
    pastes grid !! 2%nat = Some (r2, (560, 10)) /\
    width r1 = 626 /\ width r2 = 626.
Proof. do 6 eexists. vm_compute. repeat split; reflexivity. Qed.

(** ** Further properties: the branch [aspect_ratio > 1] *)

Lemma bpow_le (a b : Z) : a <= b -> (bpow a <= bpow b)%R.
Proof.
  intros H. replace b with (a + (b - a)) by lia. rewrite bpow_add.
  rewrite <- (bpow_IZR (b - a)) by lia.
  assert (H1 : (1 <= IZR (2 ^ (b - a)))%R).
  { apply IZR_le. pose proof (Z.pow_pos_nonneg 2 (b - a) ltac:(lia) ltac:(lia)). lia. }
  pose proof (bpow_pos a) as Hp.
  rewrite <- (Rmult_1_r (bpow a)) at 1. apply Rmult_le_compat_l; lra.
Qed.

Lemma bpow_opp (k : Z) : 0 <= k -> bpow (- k) = (/ IZR (2 ^ k))%R.
Proof.
  intros Hk. replace (- k) with (0 - k) by lia. rewrite bpow_sub, (bpow_IZR k Hk).
  change (bpow 0) with 1%R. pose proof (bpow_pos k). field. lra.
Qed.

Lemma one_value : one = S754_finite false 4503599627370496 (-52).
Proof. vm_compute. reflexivity. Qed.

(** A normal float above 1 is at least the successor of 1. *)
Lemma gt_one_bounds (A : positive) (a : Z) :
  2 ^ 52 <= Z.pos A < 2 ^ 53 ->
  let v := (IZR (Z.pos A) * bpow a)%R in
  if gt_one (S754_finite false A a) then (1 + 2 * u <= v)%R else (v <= 1)%R.
Proof.
  intros BA v. unfold gt_one. rewrite one_value. unfold SFltb, SFcompare.
  assert (HA1 : (4503599627370496 <= IZR (Z.pos A))%R) by (apply IZR_le; lia).
  assert (HA2 : (IZR (Z.pos A) <= 9007199254740991)%R) by (apply IZR_le; lia).
  pose proof (bpow_pos a) as Hp.
  destruct (Z.compare_spec (-52) a) as [E|E|E].
  - subst a. rewrite Pos.compare_cont_spec.
    assert (Hb : bpow (-52) = (/ 4503599627370496)%R).
    { change (-52) with (- (52)). rewrite bpow_opp by lia. reflexivity. }
    subst v. rewrite Hb. clear Hb Hp.
    destruct (Pos.compare_spec 4503599627370496 A) as [E|E|E]; cbn [Pos.switch_Eq].
    + subst A. clear. lra.
    + assert (HZ : 4503599627370497 <= Z.pos A) by lia.
      apply IZR_le in HZ. clear - HZ. rewrite u_value. lra.
    + exfalso. destruct BA as [B1 _]. change (2 ^ 52) with 4503599627370496 in B1.
      apply Pos2Z.pos_lt_pos in E. clear - B1 E. lia.
  - assert (Hb : (bpow (-51) <= bpow a)%R) by (apply bpow_le; lia).
    assert (Hc : bpow (-51) = (/ 2251799813685248)%R).
    { change (-51) with (- (51)). rewrite bpow_opp by lia. reflexivity. }
    subst v. rewrite Hc in Hb.
    assert (Hm : (4503599627370496 * / 2251799813685248 <= IZR (Z.pos A) * bpow a)%R).
    { apply Rmult_le_compat; [clear; lra | clear; lra | exact HA1 | exact Hb]. }
    clear - Hm. rewrite u_value. lra.
  - assert (Hb : (bpow a <= bpow (-53))%R) by (apply bpow_le; lia).
    assert (Hc : bpow (-53) = (/ 9007199254740992)%R).
    { change (-53) with (- (53)). rewrite bpow_opp by lia. reflexivity. }
    subst v. rewrite Hc in Hb.
    assert (Hm : (IZR (Z.pos A) * bpow a <= 9007199254740991 * / 9007199254740992)%R).
    { apply Rmult_le_compat; [clear - HA1; lra | clear - Hp; lra | exact HA2 | exact Hb]. }
    clear - Hm. lra.
Qed.

(** For sizes below [2^53] the test [aspect_ratio > 1] holds exactly
    when the image is wider than tall. *)
Lemma gt_one_iff (w h : Z) (A : positive) (a : Z) :
  0 < w -> 0 < h < 2 ^ 53 -> 2 ^ 52 <= Z.pos A < 2 ^ 53 ->
  (let v := (IZR (Z.pos A) * bpow a)%R in
   ((1 - u) * v * IZR h <= IZR w <= (1 + u) * v * IZR h)%R) ->
  (gt_one (S754_finite false A a) = true <-> h < w).
Proof.
  intros Bw Bh BA Hv. cbv zeta in Hv.
  pose proof (gt_one_bounds A a BA) as G. cbv zeta in G.
  pose proof (normal_value_pos A a) as Hpos.
  set (v := (IZR (Z.pos A) * bpow a)%R) in *. clearbody v.
  assert (HH : (1 <= IZR h)%R) by (apply IZR_le; lia).
  assert (HH2 : (IZR h <= 9007199254740991)%R) by (apply IZR_le; lia).
  destruct Hv as [Hv1 Hv2].
  destruct (gt_one (S754_finite false A a)); split; intros H; try reflexivity; try discriminate.
  - destruct (Z_lt_le_dec h w) as [Hlt|Hle]; [exact Hlt|exfalso].
    assert (Hwh : (IZR w <= IZR h)%R) by (apply IZR_le; lia).
    assert (Hm : ((1 - u) * (1 + 2 * u) * IZR h <= (1 - u) * v * IZR h)%R).
    { apply Rmult_le_compat_r; [clear - HH; lra|].
      apply Rmult_le_compat_l; [clear; rewrite u_value; lra | exact G]. }
    assert (Hn : ((1 - u) * (1 + 2 * u) * IZR h <= IZR h)%R) by (clear - Hm Hv1 Hwh; lra).
    clear - Hn HH. rewrite u_value in Hn.
    assert (Hz : (0 < ((1 - / 9007199254740992) * (1 + 2 * / 9007199254740992) - 1) * IZR h)%R).
    { apply Rmult_lt_0_compat; lra. }
    lra.
  - exfalso.
    assert (Hwh : (IZR h + 1 <= IZR w)%R).
    { rewrite <- plus_IZR. apply IZR_le. lia. }
    assert (Hm : ((1 + u) * v * IZR h <= (1 + u) * 1 * IZR h)%R).
    { apply Rmult_le_compat_r; [clear - HH; lra|].
      apply Rmult_le_compat_l; [clear; rewrite u_value; lra | exact G]. }
    clear - Hm Hv2 Hwh HH2. rewrite u_value in *. lra.
Qed.

(** The fitted size of an image too wide or too tall for the cell. *)
Lemma fitted_of_unfit (aw ah : Z) (img : Image) :
  pillow_size img -> 0 < aw < 2 ^ 31 -> 0 < ah < 2 ^ 31 ->
  (aw * height img < width img ->
   forall log, fitted_size aw ah img log = (Ok (aw, 0), log)) /\
  (ah * width img < height img ->
   forall log, fitted_size aw ah img log = (Ok (0, ah), log)).
Proof.
  intros [Pw Ph] Baw Bah.
  set (w := width img) in *. set (h := height img) in *.
  destruct (int_truediv_spec (L := call) w h ltac:(lia) ltac:(lia))
    as (A & a & Hasp & BA & Ba & Hv).
  pose proof (gt_one_iff w h A a ltac:(lia) ltac:(lia) BA Hv) as G.
  cbv zeta in Hv.
  pose proof (normal_value_pos A a) as Hvpos.
  destruct (int_div_float_spec (L := call) aw A a ltac:(lia) BA ltac:(lia))
    as (nh & b & Hq & Hnh & Hb).
  destruct (int_mul_float_spec (L := call) ah A a ltac:(lia) BA ltac:(lia))
    as (nw & k & Hm & Hnw & Hk).
  cbv zeta in Hb, Hk.
  split.
  - intros Hwide log.
    assert (Hlt : h < w) by nia.
    apply G in Hlt.
    assert (P50 : aw * h <= 2 ^ 50) by lia.
    pose proof (quotient_fit w h aw nh b _ ltac:(lia) ltac:(lia) ltac:(lia) P50 Hvpos Hv Hb Hnh)
      as Hfit.
    assert (E : nh = 0) by nia. subst nh.
    unfold fitted_size, size. fold w h.
    rewrite (bind_eq_ok _ _ _ _ _ (Hasp log)), Hlt.
    rewrite bind_assoc. rewrite (bind_eq_ok _ _ _ _ _ (Hq log)).
    destruct (Z.gtb_spec 0 ah); [lia | reflexivity].
  - intros Htall log.
    assert (Hge : ~ h < w) by nia.
    assert (Hf : gt_one (S754_finite false A a) = false).
    { destruct (gt_one (S754_finite false A a)); [|reflexivity]. exfalso. apply Hge, G. reflexivity. }
    assert (P50 : ah * w <= 2 ^ 50) by lia.
    pose proof (product_fit w h ah nw k _ ltac:(lia) ltac:(lia) ltac:(lia) P50 Hvpos Hv Hk Hnw)
      as Hfit.
    assert (E : nw = 0) by nia. subst nw.
    unfold fitted_size, size. fold w h.
    rewrite (bind_eq_ok _ _ _ _ _ (Hasp log)), Hf.
    rewrite bind_assoc. rewrite (bind_eq_ok _ _ _ _ _ (Hm log)).
    destruct (Z.gtb_spec 0 aw); [lia | reflexivity].
Qed.

(** With a cell Pillow can hold and one image that does not fit it, the
    resize loop ends in the [ValueError] of [Image.resize]. *)
Lemma resize_loop_unfit (aw ah : Z) (images : list Image) :
  0 < aw < 2 ^ 31 -> 0 < ah < 2 ^ 31 ->
  Forall pillow_size images -> Exists (unfit aw ah) images ->
  forall acc log,
    exists rcalls,
      for_each (resize_step aw ah) images acc log
      = (Raise (ValueError "height and width must be > 0"), log ++ rcalls) /\
      Forall is_resize_call rcalls /\ rcalls <> [].
Proof.
  intros Baw Bah Hall Hex.
  induction images as [|img rest IH]; intros acc log; [inversion Hex|].
  inversion Hall as [|? ? Hp Hrest]; subst.
  simpl. unfold bind at 1. rewrite resize_step_eq.
  destruct Hp as [Pw Ph].
  destruct (fitted_size_fits aw ah img ltac:(lia) ltac:(lia) ltac:(lia) ltac:(lia))
    as (nw & nh & E & Lw & Lh & Hside).
  assert (Ef : fitted aw ah img = Ok (nw, nh)) by (unfold fitted, run; now rewrite E).
  rewrite Ef.
  assert (Q1 : 0 <= aw * height img / width img) by (apply Z.div_pos; nia).
  assert (Q2 : 0 <= ah * width img / height img) by (apply Z.div_pos; nia).
  assert (Eo : size_overflow (nw, nh) = None) by (apply size_overflow_none; simpl; lia).
  destruct (resize_outcome img (nw, nh)) as [r|e] eqn:Er.
  - assert (Htail : Exists (unfit aw ah) rest).
    { inversion Hex as [? ? Hu|]; subst; [exfalso|assumption].
      destruct (fitted_of_unfit aw ah img (conj Pw Ph) Baw Bah) as [Fw Ft].
      apply resize_outcome_range in Er. cbn [fst snd] in Er.
      destruct Hu as [Hu|Hu].
      + specialize (Fw Hu []). rewrite E in Fw. injection Fw as -> ->.
        destruct Er as [Er|Er]; [unfold size in Er; injection Er as _ Er; lia | lia].
      + specialize (Ft Hu []). rewrite E in Ft. injection Ft as -> ->.
        destruct Er as [Er|Er]; [unfold size in Er; injection Er as Er _; lia | lia]. }
    destruct (IH Hrest Htail (acc ++ [r]) (log ++ [CallResize img (nw, nh)])) as (rcalls & -> & Hc & _).
    exists (CallResize img (nw, nh) :: rcalls). rewrite <- app_assoc.
    split; [reflexivity|]. split; [constructor; [exact I | exact Hc] | discriminate].
  - exists [CallResize img (nw, nh)]. split.
    + unfold resize_outcome in Er. rewrite Eo in Er.
      destruct (bool_decide (size img = (nw, nh))); [discriminate|].
      cbn [fst snd] in Er.
      destruct ((nw <? 1) || (nh <? 1)); [|discriminate].
      injection Er as <-. reflexivity.
    + split; [constructor; [exact I | constructor] | discriminate].
Qed.

(** An error of the resize loop is the error of the call. *)
Lemma create_until_loop db (images : list Image) bg columns padding tw th e calls :
  let c := valid_columns columns in
  let rws := rows (Z.of_nat (length images)) c in
  images <> [] ->
  for_each (resize_step (available tw c padding) (available th rws padding)) images [] []
  = (Raise e, calls) ->
  run (create_storyboard_grid db images bg columns padding (tw, th)) = (Raise e, calls).
Proof.
  intros c rws Hne H. unfold run, create_storyboard_grid.
  destruct (bool_decide_reflect (images = [])) as [E|_]; [contradiction|].
  assert (Hc : 1 <= c) by apply valid_columns_pos.
  assert (Hn : 1 <= Z.of_nat (length images)).
  { destruct images; [contradiction | simpl; lia]. }
  assert (Hr : 1 <= rws) by (apply rows_pos; assumption).
  rewrite (bind_eq_ok _ _ _ _ _ (parse_bg_color_eq db bg [])).
  fold c.
  rewrite (bind_eq_ok _ _ _ _ _ (floordiv_eq _ c [] ltac:(lia))).
  fold (rows (Z.of_nat (length images)) c). fold rws.
  rewrite (bind_eq_ok _ _ _ _ _ (floordiv_eq _ c [] ltac:(lia))).
  fold (available tw c padding).
  rewrite (bind_eq_ok _ _ _ _ _ (floordiv_eq _ c [] ltac:(lia))).
  fold (rows (Z.of_nat (length images)) c). fold rws.
  rewrite (bind_eq_ok _ _ _ _ _ (floordiv_eq _ rws [] ltac:(lia))).
  fold (available th rws padding).
  apply bind_eq_raise. exact H.
Qed.

(** X10: an image too wide or too tall for the cell (its fitted size
    would have a side below one pixel) is given the size [(aw, 0)] or
    [(0, ah)], and one such image among images Pillow can hold makes the
    whole call fail with the [ValueError] of [Image.resize], before any
    canvas is made: no storyboard of the other images is produced. *)
Theorem unfit_image_fails db images bg columns padding tw th :
  let c := valid_columns columns in
  let rws := rows (Z.of_nat (length images)) c in
  let aw := available tw c padding in
  let ah := available th rws padding in
  0 < aw < 2 ^ 31 -> 0 < ah < 2 ^ 31 ->
  (forall img log, pillow_size img ->
     (aw * height img < width img -> fitted_size aw ah img log = (Ok (aw, 0), log)) /\
     (ah * width img < height img -> fitted_size aw ah img log = (Ok (0, ah), log))) /\
  (Forall pillow_size images -> Exists (unfit aw ah) images ->
   exists calls,
     run (create_storyboard_grid db images bg columns padding (tw, th))
     = (Raise (ValueError "height and width must be > 0"), calls) /\
     Forall is_resize_call calls /\ calls <> []).
Proof.
  intros c rws aw ah Baw Bah. split.
  - intros img log Hp.
    destruct (fitted_of_unfit aw ah img Hp Baw Bah) as [Fw Ft].
    split; intros Hu; [apply Fw | apply Ft]; exact Hu.
  - intros Hall Hex.
    destruct (resize_loop_unfit aw ah images Baw Bah Hall Hex [] []) as (rcalls & H & Hc & Hne).
    exists rcalls. split; [|split; assumption].
    apply create_until_loop; [|exact H].
    intros ->. inversion Hex.
Qed.

Lemma unfit_image_fails_witness :
  exists calls,
    run (create_storyboard_grid sample_db [sq100 0; Decoded "RGB" 4000 2 1]
           (of_string "#000000") (PyInt 3) 10 (1920, 1080))
    = (Raise (ValueError "height and width must be > 0"), calls) /\ calls <> [].
Proof.
  destruct (proj2 (unfit_image_fails sample_db [sq100 0; Decoded "RGB" 4000 2 1]
                     (of_string "#000000") (PyInt 3) 10 1920 1080
                     ltac:(vm_compute; split; reflexivity)
                     ltac:(vm_compute; split; reflexivity)))
    as (calls & H & _ & Hne).
  - repeat constructor; vm_compute; congruence.
  - right. left. left. vm_compute. reflexivity.
  - exists calls. split; assumption.
Defined.
